(** * Verification of [scripts/create_orb_images.py]

    A shallow embedding of the annotation parser, the orb pipeline and the
    scene pipeline of [create_orb_images.py], and the properties of the
    specification settled against it.

    Conventions of the embedding:
    - Python values that flow through the script (text, [None], dicts and
      lists built by the parser) are the inductive type [pyval]; a dict is an
      association list in insertion order, as in CPython. Text is a sequence
      of code points below 256 (the annotation files of the schema are
      ASCII); [int], [float] and [repr] are CPython's on such text.
    - Exceptions are values of [exn]; code that can raise returns [res A].
      Converting an [int] beyond the range of a double to [float] raises
      [OverflowError], also within a mixed operation.
    - Side effects (codec requests, directories, saved files, printed lines,
      CSV rows) are recorded as a trace of [event]s by a writer/error monad.
      A request is recorded when it is made, whether or not the codec then
      raises.
    - Python's [float] is an interface [PyFloat] with two instances: IEEE-754
      binary64 (the kernel's primitive floats, bit for bit what CPython
      computes) and exact rationals. Properties that depend on the order of
      rounded results are proved for every instance that satisfies the
      monotonicity facts of [PyFloatOrder]; both instances are proved to
      satisfy them, binary64 from the kernel's specification of rounding
      ([SpecFloat]).
    - PIL, hashlib and the file store are parameters ([Codec]): a crop and
      a resize may raise, as PIL does for a box whose right side lies left
      of its left side and for a size with a side of zero. What the orb
      manifest reads back from the file system is a parameter too
      ([Store]), whose answers depend on the events so far. *)

From Stdlib Require Import ZArith QArith Qround List String Ascii Bool Lia Lqa Floats.
From Stdlib Require Import DecimalString.
Import ListNotations.

Set Warnings "-register-all".
Close Scope Q_scope.
Local Open Scope string_scope.
Local Open Scope list_scope.
Local Open Scope Z_scope.

(* ================================================================= *)
(** ** Exceptions and results *)

Inductive exn : Type :=
| KeyError (key : string)
| TypeError
| ValueError (msg : string)
| AttributeError
| ZeroDivisionError
| OverflowError
| FileNotFoundError (path : string).

Definition res (A : Type) : Type := (exn + A)%type.
Definition OK {A} (a : A) : res A := inr a.
Definition raise {A} (e : exn) : res A := inl e.

Definition rbind {A B} (r : res A) (k : A -> res B) : res B :=
  match r with
  | inl e => inl e
  | inr a => k a
  end.

Declare Scope res_scope.
Delimit Scope res_scope with res.
Notation "x <- r ;; k" := (rbind r (fun x => k))
  (at level 61, r at next level, right associativity) : res_scope.

(* ================================================================= *)
(** ** Python values *)

Inductive pyval : Type :=
| PNone
| PStr (s : string)
| PDict (items : list (string * pyval))
| PList (elems : list pyval).

Module Dict.
Section Ops.
Context {V : Type}.

Fixpoint get (k : string) (d : list (string * V)) : option V :=
  match d with
  | [] => None
  | (k', v) :: d' => if String.eqb k k' then Some v else get k d'
  end.

Definition mem (k : string) (d : list (string * V)) : bool :=
  match get k d with
  | Some _ => true
  | None => false
  end.

(** [d[k] = v]: an existing key keeps its position, a new key goes last. *)
Fixpoint set (k : string) (v : V) (d : list (string * V)) : list (string * V) :=
  match d with
  | [] => [(k, v)]
  | (k', v') :: d' =>
      if String.eqb k k' then (k, v) :: d' else (k', v') :: set k v d'
  end.

End Ops.
End Dict.

(** [v[k]] for a string key. Text, lists and [None] refuse a string index. *)
Definition getitem (v : pyval) (k : string) : res pyval :=
  match v with
  | PDict d =>
      match Dict.get k d with
      | Some x => OK x
      | None => raise (KeyError k)
      end
  | _ => raise TypeError
  end.

(* ================================================================= *)
(** ** Strings *)

Definition starts_with (p s : string) : bool := String.prefix p s.

(** [needle in hay] on text. *)
Fixpoint is_substring (needle hay : string) : bool :=
  String.prefix needle hay ||
  match hay with
  | EmptyString => false
  | String _ t => is_substring needle t
  end.

Fixpoint ends_with_sep (s : string) : bool :=
  match s with
  | EmptyString => false
  | String c EmptyString => Ascii.eqb c "/"
  | String _ t => ends_with_sep t
  end.

(** [os.path.join(a, b)] of [posixpath]. *)
Definition path_join (a b : string) : string :=
  if starts_with "/" b then b
  else if String.eqb a "" || ends_with_sep a then (a ++ b)%string
  else (a ++ "/" ++ b)%string.

(** [os.path.basename(p)]: what follows the last separator. *)
Fixpoint basename (p : string) : string :=
  match p with
  | EmptyString => EmptyString
  | String c t =>
      if is_substring "/" p
      then basename t
      else p
  end.

(** [s.replace(old, new)] for a non-empty [old]: [skip] counts the characters
    of a match that are still to be passed over. *)
Fixpoint replace_from (old new : string) (skip : nat) (s : string) : string :=
  match s with
  | EmptyString => EmptyString
  | String c t =>
      match skip with
      | S k => replace_from old new k t
      | O =>
          if String.prefix old s
          then (new ++ replace_from old new (String.length old - 1) t)%string
          else String c (replace_from old new O t)
      end
  end.

Definition str_replace (old new s : string) : string := replace_from old new O s.

(** *** [repr(s)] and [str(v)] *)

Definition squote : ascii := "039"%char.
Definition dquote : ascii := "034"%char.
Definition backslash : ascii := "092"%char.

Definition lower_hex (n : nat) : ascii :=
  ascii_of_nat (if (n <? 10)%nat then 48 + n else 87 + n).

Definition has_char (c : ascii) (s : string) : bool := is_substring (String c "") s.

(** How [repr] writes the character [c] between the quotes [quote]: the
    quote and the backslash behind a backslash, the characters that are
    not printable (below 32, from 127 to 160, and 173) as an escape. *)
Definition repr_char (quote c : ascii) : string :=
  let n := nat_of_ascii c in
  if Ascii.eqb c quote || Ascii.eqb c backslash then String backslash (String c "")
  else if (n =? 9)%nat then String backslash "t"
  else if (n =? 10)%nat then String backslash "n"
  else if (n =? 13)%nat then String backslash "r"
  else if ((n <? 32) || (127 <=? n) && (n <=? 160) || (n =? 173))%nat then
    String backslash
      (String "x" (String (lower_hex (n / 16)) (String (lower_hex (n mod 16)) "")))
  else String c "".

Fixpoint concat_map (f : ascii -> string) (s : string) : string :=
  match s with
  | EmptyString => EmptyString
  | String c t => (f c ++ concat_map f t)%string
  end.

(** [repr(s)]: between single quotes, unless [s] holds a single quote and
    no double quote. *)
Definition py_repr (s : string) : string :=
  let quote := if has_char squote s && negb (has_char dquote s) then dquote else squote in
  (String quote "" ++ concat_map (repr_char quote) s ++ String quote "")%string.

(** [repr(v)] and [str(v)]. *)
Fixpoint py_repr_val (v : pyval) : string :=
  match v with
  | PNone => "None"
  | PStr s => py_repr s
  | PDict items =>
      ("{"
       ++ (fix entries (l : list (string * pyval)) : string :=
             match l with
             | [] => ""
             | (k, x) :: l' =>
                 py_repr k ++ ": " ++ py_repr_val x
                 ++ match l' with
                    | [] => ""
                    | _ => ", " ++ entries l'
                    end
             end) items
       ++ "}")%string
  | PList elems =>
      ("["
       ++ (fix entries (l : list pyval) : string :=
             match l with
             | [] => ""
             | x :: l' =>
                 py_repr_val x
                 ++ match l' with
                    | [] => ""
                    | _ => ", " ++ entries l'
                    end
             end) elems
       ++ "]")%string
  end.

Definition py_str (v : pyval) : string :=
  match v with
  | PStr s => s
  | _ => py_repr_val v
  end.

(** [str(n)] for an int. *)
Definition py_str_int (n : Z) : string := NilZero.string_of_int (Z.to_int n).

(** *** Integer literals: [int(s)] *)

(** The blanks that [int] and [float] take off both ends: the ASCII ones
    and, from 128 on, U+0085 and U+00A0. *)
Definition is_space (c : ascii) : bool :=
  let n := nat_of_ascii c in
  ((9 <=? n) && (n <=? 13) || (n =? 32) || (n =? 133) || (n =? 160))%nat.

Fixpoint lstrip (s : string) : string :=
  match s with
  | String c t => if is_space c then lstrip t else s
  | EmptyString => EmptyString
  end.

Fixpoint rstrip (s : string) : string :=
  match s with
  | EmptyString => EmptyString
  | String c t =>
      let r := rstrip t in
      if is_space c && String.eqb r "" then EmptyString else String c r
  end.

Definition digit_of (c : ascii) : option Z :=
  let n := Z.of_nat (nat_of_ascii c) in
  if (48 <=? n) && (n <=? 57) then Some (n - 48) else None.

(** Digits with single underscores between them; [prev] tells whether the
    previous character was a digit. *)
Fixpoint parse_digits (acc : Z) (prev : bool) (s : string) : option Z :=
  match s with
  | EmptyString => if prev then Some acc else None
  | String c t =>
      match digit_of c with
      | Some d => parse_digits (10 * acc + d) true t
      | None =>
          if Ascii.eqb c "_" && prev then parse_digits acc false t else None
      end
  end.

Definition parse_int (s : string) : option Z :=
  match rstrip (lstrip s) with
  | String "-" t => option_map Z.opp (parse_digits 0 false t)
  | String "+" t => parse_digits 0 false t
  | t => parse_digits 0 false t
  end.

(** [int(v)]. The message of the error holds the first 200 characters of
    [repr(v)]. *)
Definition py_int (v : pyval) : res Z :=
  match v with
  | PStr s =>
      match parse_int s with
      | Some z => OK z
      | None =>
          raise (ValueError ("invalid literal for int() with base 10: "
                             ++ substring 0 200 (py_repr s)))
      end
  | _ => raise TypeError
  end.

(** *** Float literals: [float(s)] *)

Definition is_digit (c : ascii) : bool :=
  match digit_of c with
  | Some _ => true
  | None => false
  end.

(** The text without its underscores, when each of them stands between
    two digits. *)
Fixpoint drop_underscores (prev_digit prev_underscore : bool) (s : string)
    : option string :=
  match s with
  | EmptyString => if prev_underscore then None else Some EmptyString
  | String c t =>
      if Ascii.eqb c "_" then
        if prev_digit then drop_underscores false true t else None
      else if prev_underscore && negb (is_digit c) then None
      else option_map (String c) (drop_underscores (is_digit c) false t)
  end.

(** The digits at the head of [s]: their value after [acc], their number
    after [count], and what follows them. *)
Fixpoint read_digits (acc : Z) (count : nat) (s : string) : Z * nat * string :=
  match s with
  | EmptyString => (acc, count, s)
  | String c t =>
      match digit_of c with
      | Some d => read_digits (10 * acc + d) (Datatypes.S count) t
      | None => (acc, count, s)
      end
  end.

Definition read_sign (s : string) : bool * string :=
  match s with
  | String "-" t => (true, t)
  | String "+" t => (false, t)
  | _ => (false, s)
  end.

Definition lower (c : ascii) : ascii :=
  let n := nat_of_ascii c in
  if ((65 <=? n) && (n <=? 90))%nat then ascii_of_nat (n + 32) else c.

Fixpoint lowercase (s : string) : string :=
  match s with
  | EmptyString => EmptyString
  | String c t => String (lower c) (lowercase t)
  end.

(** What a float literal denotes: [m * 10^e] with its sign, or an
    infinity or a nan. *)
Inductive float_literal : Type :=
| LitDecimal (neg : bool) (m e : Z)
| LitSpecial (neg nan : bool).

(** Digits with an optional point among them, then an optional exponent:
    the mantissa as an integer and the power of ten. *)
Definition parse_decimal (s : string) : option (Z * Z) :=
  let '(mi, ni, r1) := read_digits 0 0 s in
  let '(m, nf, r2) :=
    match r1 with
    | String "." t => read_digits mi 0 t
    | _ => (mi, O, r1)
    end in
  if (ni + nf =? 0)%nat then None
  else
    match r2 with
    | EmptyString => Some (m, - Z.of_nat nf)
    | String c t =>
        if Ascii.eqb (lower c) "e" then
          let '(eneg, t') := read_sign t in
          let '(ev, ne, r3) := read_digits 0 0 t' in
          if (ne =? 0)%nat || negb (String.eqb r3 "") then None
          else Some (m, (if eneg then - ev else ev) - Z.of_nat nf)
        else None
    end.

Definition parse_float (s : string) : option float_literal :=
  match drop_underscores false false (rstrip (lstrip s)) with
  | None => None
  | Some t =>
      let '(neg, body) := read_sign t in
      let word := lowercase body in
      if String.eqb word "inf" || String.eqb word "infinity" then Some (LitSpecial neg false)
      else if String.eqb word "nan" then Some (LitSpecial neg true)
      else option_map (fun me => LitDecimal neg (fst me) (snd me)) (parse_decimal body)
  end.

(** [needle in v]. *)
Definition py_in (needle : string) (v : pyval) : res bool :=
  match v with
  | PStr s => OK (is_substring needle s)
  | PDict d => OK (Dict.mem needle d)
  | PList l =>
      OK (existsb (fun x => match x with
                            | PStr s => String.eqb s needle
                            | _ => false
                            end) l)
  | PNone => raise TypeError
  end.

(** The items a [for] loop or a comprehension draws from [v]. *)
Definition py_iter (v : pyval) : res (list pyval) :=
  match v with
  | PList l => OK l
  | PDict d => OK (map (fun kv => PStr (fst kv)) d)
  | PStr s => OK (map (fun c => PStr (String c EmptyString)) (list_ascii_of_string s))
  | PNone => raise TypeError
  end.

(* ================================================================= *)
(** ** Annotation parser *)

(** An element of the markup tree as [lxml] presents it: its tag, its text
    ([None] when absent) and its child elements in document order. *)
Inductive xml : Type :=
| Element (tag : string) (text : option string) (children : list xml).

Definition xml_tag (x : xml) : string := let 'Element t _ _ := x in t.
Definition xml_text (x : xml) : option string := let 'Element _ t _ := x in t.
Definition xml_children (x : xml) : list xml := let 'Element _ _ c := x in c.

Definition text_value (t : option string) : pyval :=
  match t with
  | Some s => PStr s
  | None => PNone
  end.

(** The body of the loop of [recursive_parse_xml_to_dict], after the
    recursive call. [store_child] is the [if]/[else] on the child's tag, with
    [v] standing for [child_result[child.tag]]. *)
Definition store_child (result : list (string * pyval)) (child_tag : string)
    (v : pyval) : res (list (string * pyval)) :=
  if negb (String.eqb child_tag "object") then
    OK (Dict.set child_tag v result)
  else
    let result :=
      if negb (Dict.mem child_tag result)
      then Dict.set child_tag (PList []) result
      else result in
    (l <- getitem (PDict result) child_tag ;;
     match l with
     | PList items => OK (Dict.set child_tag (PList (items ++ [v])) result)
     | _ => raise AttributeError
     end)%res.

Definition add_child (result : list (string * pyval)) (child_tag : string)
    (child_result : pyval) : res (list (string * pyval)) :=
  (v <- getitem child_result child_tag ;; store_child result child_tag v)%res.

Fixpoint recursive_parse_xml_to_dict (x : xml) : res pyval :=
  match x with
  | Element tag text children =>
      match children with
      | [] => OK (PDict [(tag, text_value text)])
      | _ =>
          (result <-
             fold_left
               (fun acc child =>
                  result <- acc ;;
                  child_result <- recursive_parse_xml_to_dict child ;;
                  add_child result (xml_tag child) child_result)
               children (OK []) ;;
           OK (PDict [(tag, PDict result)]))%res
      end
  end.

(** [load_annotations], from the document [lxml] has read. *)
Definition load_annotations (root : xml) : res pyval :=
  (d <- recursive_parse_xml_to_dict root ;; getitem d "annotation")%res.

(** What a child hands to its parent: [child_result[child.tag]]. *)
Definition contribution (child : xml) : res pyval :=
  (child_result <- recursive_parse_xml_to_dict child ;;
   getitem child_result (xml_tag child))%res.

Definition has_tag (t : string) (x : xml) : bool := String.eqb (xml_tag x) t.

(** The last child, in document order, that carries the tag [t]. *)
Definition last_tagged (t : string) (children : list xml) : option xml :=
  find (has_tag t) (rev children).

Fixpoint map_res {A B} (f : A -> res B) (l : list A) : res (list B) :=
  match l with
  | [] => OK []
  | a :: l' => (b <- f a ;; bs <- map_res f l' ;; OK (b :: bs))%res
  end.

(** The loop of the parser, from an accumulator. *)
Definition parse_children (acc : res (list (string * pyval))) (children : list xml) :=
  fold_left
    (fun acc child =>
       (result <- acc ;;
        child_result <- recursive_parse_xml_to_dict child ;;
        add_child result (xml_tag child) child_result)%res)
    children acc.

Definition node_value (x : xml) : pyval :=
  match contribution x with
  | inr v => v
  | inl _ => PNone
  end.

Definition total (x : xml) : Prop := exists v, contribution x = OK v.

(** The entry under ['object'] is absent or a list. *)
Definition obj_ok (r : list (string * pyval)) : Prop :=
  match Dict.get "object" r with
  | None | Some (PList _) => True
  | Some _ => False
  end.

Definition obj_list (r : list (string * pyval)) : list pyval :=
  match Dict.get "object" r with
  | Some (PList l) => l
  | _ => []
  end.

(* ================================================================= *)
(** ** Python floats *)

(** The operations the script applies to [float] values. An [int] operand of
    a mixed operation is converted with [of_int] first, as CPython does
    ([py_float_of_int] below adds the refusal of an [int] out of range); the
    comparisons of [max] and [min] between an [int] and a [float] are made
    after the same conversion, which is exact up to [2^53] in magnitude. *)
Class PyFloat (F : Type) : Type := {
  of_int : Z -> F;             (* float(n), for n within the range of a double *)
  of_decimal : bool -> Z -> Z -> F;
                               (* the float nearest to m * 10^e for 0 <= m,
                                  negative when the flag is set: what float()
                                  reads from a decimal literal *)
  of_special : bool -> bool -> option F;
                               (* float('inf') and float('nan') and their
                                  negatives; None where the arithmetic has
                                  neither *)
  fadd : F -> F -> F;
  fsub : F -> F -> F;
  fmul : F -> F -> F;
  fdiv : F -> F -> F;          (* for a divisor that is not zero *)
  fltb : F -> F -> bool;       (* x < y *)
  fleb : F -> F -> bool;       (* x <= y *)
  tenth : F;                   (* the literal .1 *)
  trunc : F -> option Z;       (* int(x); None for an infinity or a nan *)
  round4 : F -> F              (* round(x, 4) *)
}.

(** The integers that every instance converts without rounding: pixel
    coordinates and image dimensions are of this kind. *)
Definition exact_int (z : Z) : Prop := 0 <= z < 2 ^ 53.

(** The largest magnitude of an [int] that [float] converts: from
    [2^1024 - 2^970] on, the nearest double would be an infinity, and
    CPython raises [OverflowError]. *)
Definition float_limit : Z := 2 ^ 1024 - 2 ^ 970.

Definition float_range (n : Z) : bool := Z.abs n <? float_limit.

(** The order facts about rounded results that the geometric properties rest
    on: the monotonicity of round-to-nearest, and what a literal without
    fraction denotes. Both instances below are proved to satisfy them. *)
Class PyFloatOrder (F : Type) {PF : PyFloat F} : Prop := {
  of_decimal_nat : forall m, 0 <= m -> of_decimal false m 0 = of_int m;
  neg_zero_unit : forall b,
    0 < b -> exact_int b ->
    fleb (of_int 0) (fdiv (of_decimal true 0 0) (of_int b)) = true /\
    fleb (fdiv (of_decimal true 0 0) (of_int b)) (of_int 1) = true;
  fleb_of_int : forall a b,
    exact_int a -> exact_int b -> a <= b -> fleb (of_int a) (of_int b) = true;
  fltb_fleb : forall x y, fltb x y = true -> fleb x y = true;
  fleb_trans : forall x y z, fleb x y = true -> fleb y z = true -> fleb x z = true;
  tenth_mul_nonneg : forall d,
    exact_int d -> fleb (of_int 0) (fmul tenth (of_int d)) = true;
  fsub_le : forall a o,
    exact_int a -> fleb (of_int 0) o = true -> fleb (fsub (of_int a) o) (of_int a) = true;
  fadd_ge : forall a o,
    exact_int a -> fleb (of_int 0) o = true -> fleb (of_int a) (fadd (of_int a) o) = true;
  fdiv_unit : forall a b,
    0 <= a <= b -> 0 < b -> exact_int b ->
    fleb (of_int 0) (fdiv (of_int a) (of_int b)) = true /\
    fleb (fdiv (of_int a) (of_int b)) (of_int 1) = true
}.

(** *** IEEE-754 binary64, as CPython computes *)

Module Binary64.

(** The integer [z] rounded to the nearest double, ties to even. *)
Definition of_Z (z : Z) : float := SF2Prim (binary_normalize prec emax z 0 false).

Definition to_Z (x : float) : option Z :=
  match Prim2SF x with
  | S754_zero _ => Some 0
  | S754_finite s m e =>
      let a := if 0 <=? e then Z.pos m * 2 ^ e else Z.pos m / 2 ^ (- e) in
      Some (if s then - a else a)
  | _ => None
  end.

(** The nearest integer to [n / d], ties to even, for [0 < d]. *)
Definition div_half_even (n d : Z) : Z :=
  let q := n / d in
  let r := n mod d in
  match 2 * r ?= d with
  | Lt => q
  | Gt => q + 1
  | Eq => if Z.even q then q else q + 1
  end.

Definition spec_of_Z (neg : bool) (k : Z) : spec_float :=
  match k with
  | Z0 => S754_zero neg
  | Zpos p => S754_finite false p 0
  | Zneg p => S754_finite true p 0
  end.

(** The double nearest to [m * 10^e], ties to even, with the sign [neg]
    (also of a zero): an integer is rounded as [of_Z] rounds, a fraction
    as the quotient of two integers. *)
Definition of_dec (neg : bool) (m e : Z) : float :=
  let n := if neg then - m else m in
  if 0 <=? e then SF2Prim (binary_normalize prec emax (n * 10 ^ e) 0 neg)
  else SF2Prim (SFdiv prec emax (spec_of_Z neg n) (spec_of_Z false (10 ^ (- e)))).

Definition special (neg nan : bool) : float :=
  if nan then PrimFloat.nan
  else if neg then PrimFloat.neg_infinity else PrimFloat.infinity.

(** [round(x, 4)]: the decimal with four digits nearest to the exact value
    of [x] (ties to even), then the double nearest to that decimal. *)
Definition round_4 (x : float) : float :=
  match Prim2SF x with
  | S754_finite s m e =>
      if 0 <=? e then x
      else
        let k := div_half_even (Z.pos m * 10000) (2 ^ (- e)) in
        SF2Prim (SFdiv prec emax (spec_of_Z s (if s then - k else k))
                                 (S754_finite false 10000 0))
  | _ => x
  end.

#[global] Instance binary64 : PyFloat float := {
  of_int := of_Z;
  of_decimal := of_dec;
  of_special := fun neg nan => Some (special neg nan);
  fadd := PrimFloat.add;
  fsub := PrimFloat.sub;
  fmul := PrimFloat.mul;
  fdiv := PrimFloat.div;
  fltb := PrimFloat.ltb;
  fleb := PrimFloat.leb;
  tenth := 0x1.999999999999ap-4%float;
  trunc := to_Z;
  round4 := round_4
}.

End Binary64.

(** *** Vocabulary for the rounding of binary64

    The notions in which the behaviour of [SpecFloat]'s round-to-nearest is
    described: a float [S754_finite s m e] stands for [m * 2^e], and is
    canonical when [e] is the exponent that the format assigns to a number
    of its magnitude. *)

Module Rounding.

(** The number of binary digits of a mantissa. *)
Definition dig (p : positive) : Z := Z.pos (digits2_pos p).

Definition Zdig (m : Z) : Z := Zdigits2 m.

(** A shifted mantissa that lost no bit. *)
Definition exact_rec (r : shr_record) : bool := negb (shr_r r) && negb (shr_s r).

(** The exponent of the format for a number of [e] digits. *)
Definition fexp64 (e : Z) : Z := fexp prec emax e.

(** Canonical mantissa and exponent. *)
Definition canon (p : positive) (e : Z) : Prop := fexp64 (dig p + e) = e.

(** The float made of a sign, a mantissa and an exponent. *)
Definition pack (s : bool) (m e : Z) : spec_float :=
  match m with
  | Z0 => S754_zero s
  | Zpos p => if e <=? 971 then S754_finite s p e else S754_infinity s
  | Zneg _ => S754_nan
  end.

(** What the first shift and the rounding produce from the mantissa [mx],
    the exponent [ex] and the location [lx] of the exact value: the mantissa
    [m2] at the exponent [e'], rounded down or up. *)
Record rounded (mx ex : Z) (lx : location) (m2 e' : Z) : Prop := {
  rd_n : 0 <= e' - ex;
  rd_e : e' = fexp64 (Zdig mx + ex);
  rd_cases : m2 = mx / 2 ^ (e' - ex) \/
             (m2 = mx / 2 ^ (e' - ex) + 1 /\
              ~ (mx mod 2 ^ (e' - ex) = 0 /\ lx = loc_Exact))
}.

(** The same with the second shift, which renormalises a mantissa that the
    rounding carried into one more bit: the result is [m3] at [e3]. *)
Record described (mx ex : Z) (lx : location) (m2 e' m3 e3 : Z) : Prop := {
  ds_rounded : rounded mx ex lx m2 e';
  ds_low : -1074 <= e';
  ds_up : mx / 2 ^ (e' - ex) < 2 ^ 53;
  ds_normal : -1074 < e' -> 2 ^ 52 <= mx / 2 ^ (e' - ex);
  ds_m3 : 0 <= m3;
  ds_value : m3 * 2 ^ (e3 + 1074) = m2 * 2 ^ (e' + 1074);
  ds_canon : forall p, m3 = Z.pos p -> canon p e3
}.

(** One when bits were lost below the mantissa. *)
Definition inexact (l : location) : Z :=
  match l with
  | loc_Exact => 0
  | _ => 1
  end.

(** A float of sign [s]. *)
Definition signed (s : bool) (x : spec_float) : Prop :=
  match x with
  | S754_zero s' | S754_infinity s' | S754_finite s' _ _ => s' = s
  | S754_nan => False
  end.

(** The double nearest to the integer [z]: [Binary64.of_Z] before it is
    packed into a primitive float. *)
Definition norm (z : Z) : spec_float := binary_normalize prec emax z 0 false.

(** A float that is zero or a positive canonical finite number. *)
Definition nonneg_finite (x : spec_float) : Prop :=
  x = S754_zero false \/
  exists p e, x = S754_finite false p e /\ canon p e /\ e <= 971.

End Rounding.

(** *** Exact arithmetic on rationals in lowest terms *)

Module Exact.

Definition round_4 (q : Q) : Q :=
  Qred (Binary64.div_half_even (Qnum q * 10000) (Z.pos (Qden q)) # 10000).

Definition of_dec (neg : bool) (m e : Z) : Q :=
  let n := if neg then - m else m in
  if 0 <=? e then inject_Z (n * 10 ^ e) else Qred (n # Z.to_pos (10 ^ (- e))).

#[global] Instance exact : PyFloat Q := {
  of_int := inject_Z;
  of_decimal := of_dec;
  of_special := fun _ _ => None;
  fadd := fun x y => Qred (Qplus x y);
  fsub := fun x y => Qred (Qminus x y);
  fmul := fun x y => Qred (Qmult x y);
  fdiv := fun x y => Qred (Qdiv x y);
  fltb := fun x y => negb (Qle_bool y x);
  fleb := Qle_bool;
  tenth := (1 # 10)%Q;
  trunc := fun x => Some (Z.quot (Qnum x) (Z.pos (Qden x)));
  round4 := round_4
}.

End Exact.

(* ================================================================= *)
(** ** The image codec, the hash and the image store *)

(** A crop rectangle, [(xmin, ymin, xmax, ymax)], as the codec takes it.
    An [int] coordinate is held as its double, which is the same number up
    to [2^53] in magnitude. *)
Record box (F : Type) : Type := Box { bxmin : F; bymin : F; bxmax : F; bymax : F }.
Arguments Box {F}.
Arguments bxmin {F}.
Arguments bymin {F}.
Arguments bxmax {F}.
Arguments bymax {F}.

(** What the script asks of PIL and hashlib. Opening, cropping and
    resizing may raise. *)
Class Codec (F : Type) (Image : Type) : Type := {
  image_open : string -> res Image;              (* PIL.Image.open(path) *)
  image_format : Image -> string;                (* image.format *)
  image_size : Image -> Z * Z;                   (* image.size *)
  image_crop : Image -> box F -> res Image;      (* image.crop(box) *)
  image_resize : Image -> Z * Z -> res Image;    (* image.resize(size, ANTIALIAS) *)
  image_tobytes : Image -> list Byte.byte;       (* image.tobytes() *)
  md5_hexdigest : list Byte.byte -> string       (* hashlib.md5(b).hexdigest() *)
}.

(* ================================================================= *)
(** ** Effects *)

Inductive cell (F : Type) : Type :=
| CText (s : string)
| CNum (x : F).
Arguments CText {F}.
Arguments CNum {F}.

Inductive event (F Image : Type) : Type :=
| EvCrop (b : box F)                         (* a crop asked of the codec *)
| EvResize (size : Z * Z)                    (* a resize asked of the codec *)
| EvMakedirs (path : string)                 (* os.makedirs(path, exist_ok=True) *)
| EvSave (path : string) (img : Image)       (* img.save(path) *)
| EvSkip (orb_count : Z) (filename : pyval)  (* the 'unexpected orb count' line *)
| EvPrint (line : string)                    (* print(line) *)
| EvLog (idx total : Z)                      (* logging.info('On image %d of %d') *)
| EvCsvOpen (path : string)                  (* open(path, 'w') *)
| EvCsvRow (cells : list (cell F))           (* csv_writer.writerow(cells) *)
| EvHelp (local_path bucket_path bucket_folder csv_file_name : string).
Arguments EvCrop {F Image}.
Arguments EvResize {F Image}.
Arguments EvMakedirs {F Image}.
Arguments EvSave {F Image}.
Arguments EvSkip {F Image}.
Arguments EvPrint {F Image}.
Arguments EvLog {F Image}.
Arguments EvCsvOpen {F Image}.
Arguments EvCsvRow {F Image}.
Arguments EvHelp {F Image}.

(** A computation that may raise and that leaves a trace of events. What
    was done before an exception stays done. *)
Definition M (E A : Type) : Type := (res A * list E)%type.

Definition ret {E A} (a : A) : M E A := (OK a, []).
Definition lift {E A} (r : res A) : M E A := (r, []).
Definition emit {E} (ev : E) : M E unit := (OK tt, [ev]).

Definition bind {E A B} (m : M E A) (k : A -> M E B) : M E B :=
  match m with
  | (inl e, t) => (inl e, t)
  | (inr a, t) => let '(r, t') := k a in (r, t ++ t')
  end.

Declare Scope m_scope.
Delimit Scope m_scope with M.
Notation "x <- m ;; k" := (bind m (fun x => k))
  (at level 61, m at next level, right associativity) : m_scope.
Notation "m ;; k" := (bind m (fun _ => k))
  (at level 61, right associativity) : m_scope.

(** [for x in l: body(x)]. *)
Fixpoint for_each {E A} (l : list A) (body : A -> M E unit) : M E unit :=
  match l with
  | [] => ret tt
  | a :: l' => (body a ;; for_each l' body)%M
  end.

(** [for idx, x in enumerate(l): body(idx, x)], counting from [idx]. *)
Fixpoint for_each_from {E A} (idx : Z) (l : list A) (body : Z -> A -> M E unit) : M E unit :=
  match l with
  | [] => ret tt
  | a :: l' => (body idx a ;; for_each_from (idx + 1) l' body)%M
  end.

(** A comprehension [[x for x in l if keep(x)]]. *)
Fixpoint filter_res {A} (keep : A -> res bool) (l : list A) : res (list A) :=
  match l with
  | [] => OK []
  | a :: l' =>
      (b <- keep a ;; rest <- filter_res keep l' ;;
       OK (if b then a :: rest else rest))%res
  end.

(* ================================================================= *)
(** ** The script *)

Definition MAX_IMG_DIM {F} `{PyFloat F} : F := of_int 1024.
Definition ORB_SIZE : Z := 64.
Definition ORB_EXPANSION_PCT {F} `{PyFloat F} : F := tenth.

(** [os.path.join(a, b)] where [b] is a value of the record. *)
Definition py_path_join (a : string) (b : pyval) : res string :=
  match b with
  | PStr s => OK (path_join a s)
  | _ => raise TypeError
  end.

(** [float(v)] on text. *)
Definition py_float {F} `{PyFloat F} (v : pyval) : res F :=
  match v with
  | PStr s =>
      let refused :=
        raise (ValueError ("could not convert string to float: " ++ py_repr s)) in
      match parse_float s with
      | Some (LitDecimal neg m e) => OK (of_decimal neg m e)
      | Some (LitSpecial neg nan) =>
          match of_special neg nan with
          | Some x => OK x
          | None => refused
          end
      | None => refused
      end
  | _ => raise TypeError
  end.

(** [float(n)] on an int, also where an operation between a float and an
    int converts the int. *)
Definition py_float_of_int {F} `{PyFloat F} (n : Z) : res F :=
  if float_range n then OK (of_int n) else raise OverflowError.

(** [int(x)] on a float: an infinity and a nan are refused, each with its
    own exception (a nan is the one float that is not below or equal to
    itself). *)
Definition py_int_of_float {F} `{PyFloat F} (x : F) : res Z :=
  match trunc x with
  | Some z => OK z
  | None =>
      if fleb x x then raise OverflowError
      else raise (ValueError "cannot convert float NaN to integer")
  end.

(** [x / n] for a float [x] and an int [n]: the int is converted, then
    tested for zero. *)
Definition py_div_int {F} `{PyFloat F} (x : F) (n : Z) : res F :=
  (d <- py_float_of_int n ;;
   if n =? 0 then raise ZeroDivisionError else OK (fdiv x d))%res.

(** [max(0, v)] and [min(a, v)] for an int first argument and a float [v]:
    the first argument is kept unless the second is strictly beyond it. *)
Definition py_max0 {F} `{PyFloat F} (v : F) : F :=
  if fltb (of_int 0) v then v else of_int 0.
Definition py_min {F} `{PyFloat F} (a : Z) (v : F) : F :=
  if fltb v (of_int a) then v else of_int a.

(** One row of the result of [process_images]:
    [('UNASSIGNED', output_img_path, class_text, xmin, ymin, xmax, ymax)]. *)
Record scene_row (F : Type) : Type := SceneRow {
  row_split : string;
  row_path : string;
  row_label : string;
  row_xmin : F;
  row_ymin : F;
  row_xmax : F;
  row_ymax : F
}.
Arguments SceneRow {F}.
Arguments row_split {F}.
Arguments row_path {F}.
Arguments row_label {F}.
Arguments row_xmin {F}.
Arguments row_ymin {F}.
Arguments row_xmax {F}.
Arguments row_ymax {F}.

Section Script.
Context {F : Type} {PF : PyFloat F} {Image : Type} {C : Codec F Image}.

#[local] Abbreviation Ev := (event F Image).

Definition has_orb_name (x : pyval) : res bool :=
  (name <- getitem x "name" ;; py_in "orb" name)%res.

Definition extract_orb_annotations (data : pyval) : res (list pyval) :=
  (objects <- getitem data "object" ;;
   items <- py_iter objects ;;
   filter_res has_orb_name items)%res.

Definition load_image (data : pyval) (image_dir : string) : res Image :=
  (filename <- getitem data "filename" ;;
   input_path <- py_path_join image_dir filename ;;
   has_object <- py_in "object" data ;;
   if negb has_object then
     raise (ValueError ("no objects found in " ++ input_path))
   else
     image <- image_open input_path ;;
     if negb (String.eqb (image_format image) "JPEG"
              || String.eqb (image_format image) "PNG") then
       raise (ValueError "Image format not JPEG/PNG")
     else OK image)%res.

(** The inner function [save_orb] of [process_orbs]. *)
Definition save_orb (image : Image) (output_dir : string) (class_text : pyval)
    (b : box F) : M Ev unit :=
  (emit (EvCrop b) ;;
   orb_img <- lift (image_crop image b) ;;
   emit (EvResize (ORB_SIZE, ORB_SIZE)) ;;
   orb_img <- lift (image_resize orb_img (ORB_SIZE, ORB_SIZE)) ;;
   output_color_path <- lift (py_path_join output_dir class_text) ;;
   emit (EvMakedirs output_color_path) ;;
   let key := md5_hexdigest (image_tobytes orb_img) in
   let output_orb_path := path_join output_color_path (key ++ ".png") in
   emit (EvSave output_orb_path orb_img))%M.

(** The box that is cropped first: the annotated one. *)
Definition tight_box (xmin ymin xmax ymax : Z) : box F :=
  Box (of_int xmin) (of_int ymin) (of_int xmax) (of_int ymax).

(** Lines 85 to 90: the box that is cropped second. Each [int] that meets
    a float is converted first, in the order of the six operations. *)
Definition expand_box (image_width image_height xmin ymin xmax ymax : Z) : res (box F) :=
  (x_offset <- (d <- py_float_of_int (xmax - xmin) ;; OK (fmul ORB_EXPANSION_PCT d)) ;;
   y_offset <- (d <- py_float_of_int (ymax - ymin) ;; OK (fmul ORB_EXPANSION_PCT d)) ;;
   xmin' <- (a <- py_float_of_int xmin ;; OK (py_max0 (fsub a x_offset))) ;;
   xmax' <- (a <- py_float_of_int xmax ;; OK (py_min image_width (fadd a x_offset))) ;;
   ymin' <- (a <- py_float_of_int ymin ;; OK (py_max0 (fsub a y_offset))) ;;
   ymax' <- (a <- py_float_of_int ymax ;; OK (py_min image_height (fadd a y_offset))) ;;
   OK (Box xmin' ymin' xmax' ymax'))%res.

Definition bndbox_ints (obj : pyval) : res (Z * Z * Z * Z) :=
  (bb <- getitem obj "bndbox" ;;
   xmin <- (v <- getitem bb "xmin" ;; py_int v) ;;
   xmax <- (v <- getitem bb "xmax" ;; py_int v) ;;
   ymin <- (v <- getitem bb "ymin" ;; py_int v) ;;
   ymax <- (v <- getitem bb "ymax" ;; py_int v) ;;
   OK (xmin, ymin, xmax, ymax))%res.

(** The body of the loop of [process_orbs]. *)
Definition process_orb (image : Image) (output_dir : string) (obj : pyval) : M Ev unit :=
  let '(image_width, image_height) := image_size image in
  (class_text <- lift (getitem obj "name") ;;
   bb <- lift (bndbox_ints obj) ;;
   let '(xmin, ymin, xmax, ymax) := bb in
   save_orb image output_dir class_text (tight_box xmin ymin xmax ymax) ;;
   expanded <- lift (expand_box image_width image_height xmin ymin xmax ymax) ;;
   save_orb image output_dir class_text expanded)%M.

Definition process_orbs (data : pyval) (image_dir output_dir : string) : M Ev unit :=
  (image <- lift (load_image data image_dir) ;;
   orb_annotations <- lift (extract_orb_annotations data) ;;
   for_each orb_annotations (process_orb image output_dir))%M.

(** [orb_count not in [4*5, 5*6, 6*7]], negated. *)
Definition expected_orb_count (orb_count : Z) : bool :=
  existsb (Z.eqb orb_count) [4 * 5; 5 * 6; 6 * 7].

(** Lines 104 to 114: the size the image is resized to, or [None] when it
    is left as it is. *)
Definition scaled_size (size : Z * Z) : res (option (Z * Z)) :=
  (max_dim <- py_float_of_int (Z.max (fst size) (snd size)) ;;
   if fltb MAX_IMG_DIM max_dim then
     let scale_factor := fsub (of_int 1) (fdiv (fsub max_dim MAX_IMG_DIM) max_dim) in
     new_size <-
       (if snd size <? fst size
        then (side <- py_float_of_int (snd size) ;;
              OK (MAX_IMG_DIM, fmul side scale_factor))
        else (side <- py_float_of_int (fst size) ;;
              OK (fmul side scale_factor, MAX_IMG_DIM))) ;;
     w <- py_int_of_float (fst new_size) ;;
     h <- py_int_of_float (snd new_size) ;;
     OK (Some (w, h))
   else OK None)%res.

Definition declared_size (data : pyval) : res (Z * Z) :=
  (width <- (s <- getitem data "size" ;; v <- getitem s "width" ;; py_int v) ;;
   height <- (s <- getitem data "size" ;; v <- getitem s "height" ;; py_int v) ;;
   OK (width, height))%res.

Definition bndbox_coord (obj : pyval) (key : string) (dim : Z) : res F :=
  (bb <- getitem obj "bndbox" ;;
   v <- getitem bb key ;;
   x <- py_float v ;;
   py_div_int x dim)%res.

(** The body of the loop of [process_images]. *)
Definition scene_row_of (output_img_path : string) (width height : Z)
    (obj : pyval) : res (scene_row F) :=
  let class_text := "orb" in
  (xmin <- bndbox_coord obj "xmin" width ;;
   ymin <- bndbox_coord obj "ymin" height ;;
   xmax <- bndbox_coord obj "xmax" width ;;
   ymax <- bndbox_coord obj "ymax" height ;;
   OK (SceneRow "UNASSIGNED" output_img_path class_text xmin ymin xmax ymax))%res.

Definition process_images (data : pyval) (image_dir output_dir : string)
    : M Ev (list (scene_row F)) :=
  (image <- lift (load_image data image_dir) ;;
   orb_annotations <- lift (extract_orb_annotations data) ;;
   let orb_count := Z.of_nat (List.length orb_annotations) in
   if negb (expected_orb_count orb_count) then
     filename <- lift (getitem data "filename") ;;
     emit (EvSkip orb_count filename) ;;
     ret []
   else
     new_size <- lift (scaled_size (image_size image)) ;;
     image <- match new_size with
              | Some size => (emit (EvResize size) ;; lift (image_resize image size))
              | None => ret image
              end ;;
     let img_output_path := path_join output_dir "corrected_images" in
     emit (EvMakedirs img_output_path) ;;
     let key := md5_hexdigest (image_tobytes image) in
     let output_img_path := path_join img_output_path (key ++ ".png") in
     emit (EvSave output_img_path image) ;;
     size <- lift (declared_size data) ;;
     let '(width, height) := size in
     lift (map_res (scene_row_of output_img_path width height) orb_annotations))%M.

Definition pr (num : F) : F := round4 num.

(** The CSV line written for one row of [process_images]. *)
Definition csv_row_of (screen_output_path screen_bucket_path last_output_path : string)
    (item : scene_row F) : list (cell F) :=
  let item_path := str_replace (screen_output_path ++ "/") "" (row_path item) in
  let gcs_file_path :=
    ("gs://" ++ screen_bucket_path ++ "/" ++ last_output_path ++ "/" ++ item_path)%string in
  [CText (row_split item); CText gcs_file_path; CText (row_label item);
   CNum (pr (row_xmin item)); CNum (pr (row_ymin item)); CText ""; CText "";
   CNum (pr (row_xmax item)); CNum (pr (row_ymax item)); CText ""; CText ""].

(** The body of the loop of [do_screen_processing] over the annotation
    files, each given by its name and the document read from it. *)
Definition screen_step (image_dir screen_output_path screen_bucket_path : string)
    (total : Z) (idx : Z) (file : string * xml) : M Ev unit :=
  let last_output_path := basename screen_output_path in
  (emit (EvPrint (fst file)) ;;
   (if idx mod 100 =? 0 then emit (EvLog idx total) else ret tt) ;;
   data <- lift (load_annotations (snd file)) ;;
   results <- process_images data image_dir screen_output_path ;;
   for_each results
     (fun item =>
        emit (EvCsvRow (csv_row_of screen_output_path screen_bucket_path
                          last_output_path item))))%M.

Definition do_screen_processing (image_dir screen_output_path : string)
    (annotation_files : list (string * xml)) (screen_bucket_path : string) : M Ev unit :=
  let screen_output_csv := path_join screen_output_path "screen_data.csv" in
  let last_output_path := basename screen_output_path in
  (emit (EvMakedirs screen_output_path) ;;
   emit (EvCsvOpen screen_output_csv) ;;
   for_each_from 0 annotation_files
     (screen_step image_dir screen_output_path screen_bucket_path
        (Z.of_nat (List.length annotation_files))) ;;
   emit (EvHelp screen_output_path screen_bucket_path last_output_path
           "screen_data.csv"))%M.

End Script.

(* ================================================================= *)
(** ** Vocabulary of the properties *)

Section Vocabulary.
Context {F : Type} {PF : PyFloat F} {Image : Type} {C : Codec F Image}.

(** The class name of a detection is text that contains ['orb']. *)
Definition orb_named (x : pyval) : bool :=
  match getitem x "name" with
  | inr (PStr s) => is_substring "orb" s
  | _ => false
  end.

(** [outer] contains [inner]. *)
Definition box_contains (outer inner : box F) : bool :=
  fleb (bxmin outer) (bxmin inner) && fleb (bymin outer) (bymin inner)
  && fleb (bxmax inner) (bxmax outer) && fleb (bymax inner) (bymax outer).

Definition between (lo hi : Z) (x : F) : bool :=
  fleb (of_int lo) x && fleb x (of_int hi).

(** [b] lies within [[0, width] x [0, height]]. *)
Definition box_within (width height : Z) (b : box F) : bool :=
  between 0 width (bxmin b) && between 0 width (bxmax b)
  && between 0 height (bymin b) && between 0 height (bymax b).

(** The extent of [b] is zero or negative along some axis. *)
Definition box_collapsed (b : box F) : bool :=
  fleb (bxmax b) (bxmin b) || fleb (bymax b) (bymin b).

(** The four coordinates of a row lie in [[0, 1]]. *)
Definition row_in_unit_square (r : scene_row F) : bool :=
  between 0 1 (row_xmin r) && between 0 1 (row_ymin r)
  && between 0 1 (row_xmax r) && between 0 1 (row_ymax r).

(** The boxes of the crops asked of the codec, in order. *)
Fixpoint crops_of (trace : list (event F Image)) : list (box F) :=
  match trace with
  | [] => []
  | EvCrop b :: t => b :: crops_of t
  | _ :: t => crops_of t
  end.

(** The paths written to, in order. *)
Fixpoint saved_paths (trace : list (event F Image)) : list string :=
  match trace with
  | [] => []
  | EvSave p _ :: t => p :: saved_paths t
  | _ :: t => saved_paths t
  end.

(** The name a file gets from the directory it goes to and its bytes. *)
Definition content_path (dir : string) (bytes : list Byte.byte) : string :=
  path_join dir (md5_hexdigest bytes ++ ".png").

(** The box that [expand_box] returns when it returns one: lines 85 to 90
    on the converted operands. *)
Definition expanded_box (image_width image_height xmin ymin xmax ymax : Z) : box F :=
  let x_offset := fmul ORB_EXPANSION_PCT (of_int (xmax - xmin)) in
  let y_offset := fmul ORB_EXPANSION_PCT (of_int (ymax - ymin)) in
  let xmin' := py_max0 (fsub (of_int xmin) x_offset) in
  let xmax' := py_min image_width (fadd (of_int xmax) x_offset) in
  let ymin' := py_max0 (fsub (of_int ymin) y_offset) in
  let ymax' := py_min image_height (fadd (of_int ymax) y_offset) in
  Box xmin' ymin' xmax' ymax'.

(** Every [int] that lines 85 to 90 convert is within the range of a
    double. *)
Definition box_in_range (b : Z * Z * Z * Z) : bool :=
  let '(xmin, ymin, xmax, ymax) := b in
  float_range (xmax - xmin) && float_range (ymax - ymin)
  && float_range xmin && float_range xmax && float_range ymin && float_range ymax.

(** The image that [save_orb] writes for the box [b]: the crop, resized
    to the size of an orb. *)
Definition orb_image (image : Image) (b : box F) : res Image :=
  (cropped <- image_crop image b ;; image_resize cropped (ORB_SIZE, ORB_SIZE))%res.

(** What one call of [save_orb] does for a textual class name when the
    codec returns [orb_img]. *)
Definition save_orb_trace (orb_img : Image) (output_dir name : string) (b : box F)
    : list (event F Image) :=
  [EvCrop b; EvResize (ORB_SIZE, ORB_SIZE);
   EvMakedirs (path_join output_dir name);
   EvSave (content_path (path_join output_dir name) (image_tobytes orb_img)) orb_img].

(** A computation has ended without an exception. *)
Definition succeeded {E A : Type} (m : M E A) : bool :=
  match fst m with
  | inr _ => true
  | inl _ => false
  end.

(** The image [process_images] writes, and what it does to write the
    image [img]. *)
Definition scene_image (image : Image) (new_size : option (Z * Z)) : res Image :=
  match new_size with
  | Some size => image_resize image size
  | None => OK image
  end.

Definition scene_path (output_dir : string) (img : Image) : string :=
  content_path (path_join output_dir "corrected_images") (image_tobytes img).

(** The request of the resizing step, when there is one. *)
Definition resize_trace (new_size : option (Z * Z)) : list (event F Image) :=
  match new_size with
  | Some size => [EvResize size]
  | None => []
  end.

Definition scene_trace (img : Image) (output_dir : string)
    (new_size : option (Z * Z)) : list (event F Image) :=
  resize_trace new_size
  ++ [EvMakedirs (path_join output_dir "corrected_images");
      EvSave (scene_path output_dir img) img].

(** The four coordinates of a detection as [float] reads them, in the
    order of lines 131 to 134. *)
Definition bndbox_floats (obj : pyval) : res (F * F * F * F) :=
  (bb <- getitem obj "bndbox" ;;
   xmin <- (v <- getitem bb "xmin" ;; py_float v) ;;
   ymin <- (v <- getitem bb "ymin" ;; py_float v) ;;
   xmax <- (v <- getitem bb "xmax" ;; py_float v) ;;
   ymax <- (v <- getitem bb "ymax" ;; py_float v) ;;
   OK (xmin, ymin, xmax, ymax))%res.

(** The row of a detection with box [(xmin, ymin, xmax, ymax)]: the box
    divided by the declared width and height, under the label ['orb']. *)
Definition normalized_row (path : string) (width height : Z) (b : F * F * F * F)
    : scene_row F :=
  let '(xmin, ymin, xmax, ymax) := b in
  SceneRow "UNASSIGNED" path "orb"
    (fdiv xmin (of_int width)) (fdiv ymin (of_int height))
    (fdiv xmax (of_int width)) (fdiv ymax (of_int height)).

(** The CSV line of that row: eleven columns, the coordinates rounded to
    four decimals, the four polygon columns empty. *)
Definition normalized_csv_row (gcs_file_path : string) (width height : Z)
    (b : F * F * F * F) : list (cell F) :=
  let '(xmin, ymin, xmax, ymax) := b in
  [CText "UNASSIGNED"; CText gcs_file_path; CText "orb";
   CNum (round4 (fdiv xmin (of_int width)));
   CNum (round4 (fdiv ymin (of_int height)));
   CText ""; CText "";
   CNum (round4 (fdiv xmax (of_int width)));
   CNum (round4 (fdiv ymax (of_int height)));
   CText ""; CText ""].

(** The address of a written scene image in the manifest. *)
Definition gcs_path (screen_output_path bucket path : string) : string :=
  ("gs://" ++ bucket ++ "/" ++ basename screen_output_path ++ "/"
   ++ str_replace (screen_output_path ++ "/") "" path)%string.

(** The detection carries a textual class name. *)
Definition named (x : pyval) : Prop := exists s, getitem x "name" = OK (PStr s).

(** The boxes of one orb detection, each with the class name: the
    annotated box, then the expanded one. *)
Definition orb_boxes (size : Z * Z) (job : string * (Z * Z * Z * Z))
    : list (string * box F) :=
  let '(name, (xmin, ymin, xmax, ymax)) := job in
  [(name, tight_box xmin ymin xmax ymax);
   (name, expanded_box (fst size) (snd size) xmin ymin xmax ymax)].

(** One call of [save_orb] for a box with its class name. *)
Definition save_job (image : Image) (output_dir : string) (nb : string * box F)
    : M (event F Image) unit :=
  save_orb image output_dir (PStr (fst nb)) (snd nb).

End Vocabulary.

(* ================================================================= *)
(** ** The orb manifest, the help text and [main] *)

(** What the script asks of the file system when it writes the manifest of
    the crops. The answers depend on the store as the events so far have
    left it, which is the first argument. *)
Class Store (F Image : Type) : Type := {
  open_w : list (event F Image) -> string -> res unit;            (* open(path, 'w') *)
  listdir : list (event F Image) -> string -> res (list string);  (* os.listdir(path) *)
  isdir : list (event F Image) -> string -> bool                  (* os.path.isdir(path) *)
}.

(** The lines [print_gsutil_help] prints. In a trace the call is the event
    [EvHelp] with the same four arguments. *)
Definition print_gsutil_help (local_path bucket_path bucket_folder csv_file_name : string)
    : list string :=
  ["you probably want to execute:";
   "  gsutil -m rsync -r -c " ++ local_path ++ " gs://" ++ bucket_path ++ "/" ++ bucket_folder;
   "consider running this command to force-sync the remote dir:";
   "  gsutil -m rsync -r -c -d " ++ local_path ++ " gs://" ++ bucket_path ++ "/"
     ++ bucket_folder;
   "the CSV file will be available at:";
   "  gs://" ++ bucket_path ++ "/" ++ bucket_folder ++ "/" ++ csv_file_name]%string.

(** The command-line flags. *)
Record flags : Type := Flags {
  data_dir : string;
  annotations_dir : string;
  output_path : string;
  bucket_path : string
}.

Definition default_flags : flags := Flags "images" "annotations" "" "rpad-discord-vcm".

(** What [main] does: its own logging line, and the events of the two
    pipelines. *)
Inductive main_event (F Image : Type) : Type :=
| EvProcessing (count : Z)       (* logging.info('Processing %s images.', count) *)
| EvRun (ev : event F Image).
Arguments EvProcessing {F Image}.
Arguments EvRun {F Image}.

Section Manifest.
Context {F : Type} {PF : PyFloat F} {Image : Type} {C : Codec F Image}
        {S : Store F Image}.

#[local] Abbreviation Ev := (event F Image).

(** The body of the first loop of [do_orb_processing]. *)
Definition orb_step (image_dir orb_output_path : string) (total : Z) (idx : Z)
    (file : string * xml) : M Ev unit :=
  (emit (EvPrint (fst file)) ;;
   (if idx mod 100 =? 0 then emit (EvLog idx total) else ret tt) ;;
   data <- lift (load_annotations (snd file)) ;;
   process_orbs data image_dir orb_output_path)%M.

(** The line of the manifest for one file of a label directory. *)
Definition orb_csv_row (orb_bucket_path last_output_path label orb_filename : string)
    : list (cell F) :=
  let final_label_dir := path_join last_output_path label in
  let gcs_file_path :=
    ("gs://" ++ orb_bucket_path ++ "/" ++ final_label_dir ++ "/" ++ orb_filename)%string in
  [CText gcs_file_path; CText label].

(** The second part of [do_orb_processing] (lines 181 to 194), in the store
    that the events [done] have left. *)
Definition orb_manifest (done : list Ev) (orb_output_path orb_bucket_path : string)
    : M Ev unit :=
  let orb_output_csv := path_join orb_output_path "orb_data.csv" in
  let last_output_path := basename orb_output_path in
  (lift (open_w done orb_output_csv) ;;
   emit (EvCsvOpen orb_output_csv) ;;
   let store := done ++ [EvCsvOpen orb_output_csv] in
   labels <- lift (listdir store orb_output_path) ;;
   for_each labels
     (fun label =>
        let label_dir := path_join orb_output_path label in
        if negb (isdir store label_dir) then ret tt
        else
          orb_filenames <- lift (listdir store label_dir) ;;
          for_each orb_filenames
            (fun orb_filename =>
               emit (EvCsvRow (orb_csv_row orb_bucket_path last_output_path
                                 label orb_filename)))) ;;
   emit (EvHelp orb_output_path orb_bucket_path last_output_path "orb_data.csv"))%M.

Definition do_orb_processing (image_dir orb_output_path : string)
    (annotation_files : list (string * xml)) (orb_bucket_path : string) : M Ev unit :=
  let crops :=
    for_each_from 0 annotation_files
      (orb_step image_dir orb_output_path (Z.of_nat (List.length annotation_files))) in
  (crops ;; orb_manifest (snd crops) orb_output_path orb_bucket_path)%M.

(** A pipeline run from [main]. *)
Definition run {A} (m : M Ev A) : M (main_event F Image) A :=
  (fst m, map EvRun (snd m)).

(** [main], from the flags and from what [tf.gfile.Glob] finds: the
    annotation files, each with the document read from it. *)
Definition main (FLAGS : flags) (glob : string -> list (string * xml))
    : M (main_event F Image) unit :=
  let image_dir := data_dir FLAGS in
  let annotation_files := glob (path_join (annotations_dir FLAGS) "*.xml") in
  (emit (EvProcessing (Z.of_nat (List.length annotation_files))) ;;
   let orb_output_path := path_join (output_path FLAGS) "extracted_orb_images" in
   let orb_bucket_path := path_join (bucket_path FLAGS) "orbs" in
   emit (EvRun (EvPrint "starting orb processing")) ;;
   run (do_orb_processing image_dir orb_output_path annotation_files orb_bucket_path) ;;
   emit (EvRun (EvPrint "starting screen processing")) ;;
   let screen_output_path := path_join (output_path FLAGS) "orbs_in_screens" in
   let screen_bucket_path := path_join (bucket_path FLAGS) "orbs" in
   run (do_screen_processing image_dir screen_output_path annotation_files
          screen_bucket_path))%M.

End Manifest.

(* ================================================================= *)
(** ** Vocabulary of the further properties *)

Section Traces.
Context {F : Type} {Image : Type}.

(** The texts that the plain calls [print(text)] have printed, in order:
    the names of the annotation files and the two announcements of [main].
    The notice of a skipped record and the help text are events of their
    own and are not counted here; [stdout] counts everything. *)
Fixpoint printed (trace : list (event F Image)) : list string :=
  match trace with
  | [] => []
  | EvPrint line :: t => line :: printed t
  | _ :: t => printed t
  end.

(** The line that [process_images] prints when it skips a record:
    [print('unexpected orb count of', orb_count, 'for', filename,
    'skipping it')]. *)
Definition skip_notice (orb_count : Z) (filename : pyval) : string :=
  ("unexpected orb count of " ++ py_str_int orb_count ++ " for " ++ py_str filename
   ++ " skipping it")%string.

(** Everything printed, one text for each call of [print], in order. *)
Fixpoint stdout (trace : list (event F Image)) : list string :=
  match trace with
  | [] => []
  | EvPrint line :: t => line :: stdout t
  | EvSkip orb_count filename :: t => skip_notice orb_count filename :: stdout t
  | EvHelp local_path bucket_path bucket_folder csv_file_name :: t =>
      print_gsutil_help local_path bucket_path bucket_folder csv_file_name ++ stdout t
  | _ :: t => stdout t
  end.

(** The progress lines logged, in order. *)
Fixpoint logged (trace : list (event F Image)) : list (Z * Z) :=
  match trace with
  | [] => []
  | EvLog idx total :: t => (idx, total) :: logged t
  | _ :: t => logged t
  end.

(** The lines written to a manifest, in order. *)
Fixpoint csv_rows (trace : list (event F Image)) : list (list (cell F)) :=
  match trace with
  | [] => []
  | EvCsvRow cells :: t => cells :: csv_rows t
  | _ :: t => csv_rows t
  end.

(** An event of the cropping of orbs: a crop, a resize to the size of an
    orb, a directory, a saved file. *)
Definition orb_event (ev : event F Image) : bool :=
  match ev with
  | EvCrop _ | EvMakedirs _ | EvSave _ _ => true
  | EvResize size => (fst size =? ORB_SIZE) && (snd size =? ORB_SIZE)
  | _ => false
  end.

(** An event on a manifest or the help text that ends a pipeline. *)
Definition manifest_event (ev : event F Image) : bool :=
  match ev with
  | EvCsvOpen _ | EvCsvRow _ | EvHelp _ _ _ _ => true
  | _ => false
  end.

(** An event of a pipeline's loop over the records: anything but the
    manifest's opening and the help text. *)
Definition record_event (ev : event F Image) : bool :=
  match ev with
  | EvCsvOpen _ | EvHelp _ _ _ _ => false
  | _ => true
  end.

(** An event of the preparation of a scene image: a resize, a directory,
    a saved file, the notice of a skipped record. *)
Definition scene_event (ev : event F Image) : bool :=
  match ev with
  | EvResize _ | EvMakedirs _ | EvSave _ _ | EvSkip _ _ => true
  | _ => false
  end.

(** An event that neither prints a file name nor logs progress. *)
Definition quiet_event (ev : event F Image) : bool :=
  match ev with
  | EvPrint _ | EvLog _ _ => false
  | _ => true
  end.

End Traces.

(** A property of traces that holds of the empty trace and of two traces
    put end to end when it holds of each. *)
Definition additive {E : Type} (Q : list E -> Prop) : Prop :=
  Q [] /\ forall t1 t2, Q t1 -> Q t2 -> Q (t1 ++ t2).

(** No separator occurs in [s]. *)
Definition no_sep (s : string) : bool := negb (is_substring "/" s).

(** The scale at which the values of doubles are compared as integers:
    the inverse of the least positive double. *)
Definition unit_scale : Z := 2 ^ 1074.

(** The indices below [n] at which progress is logged: every hundredth
    one, from the first. *)
Definition progress_indices (first n : nat) : list Z :=
  filter (fun i => i mod 100 =? 0) (map Z.of_nat (seq first n)).

Section Addresses.
Context {F : Type} {Image : Type} {C : Codec F Image}.

(** Where [gsutil rsync -r local_path gs://bucket/folder] puts the scene
    image [img] of [local_path/corrected_images]. *)
Definition scene_address (bucket folder : string) (img : Image) : string :=
  ("gs://" ++ bucket ++ "/" ++ folder ++ "/corrected_images/"
   ++ md5_hexdigest (image_tobytes img) ++ ".png")%string.

(** Every manifest line of a trace for a scene gives, in its second
    column, the address of a scene image that the trace saves. *)
Definition rows_address_saved_scenes (out bucket folder : string)
    (trace : list (event F Image)) : Prop :=
  forall cells, In (EvCsvRow cells) trace ->
  exists img,
    In (EvSave (scene_path out img) img) trace /\
    nth 1 cells (CText "") = CText (scene_address bucket folder img).

End Addresses.

(* ================================================================= *)
(** ** Concrete inputs *)

(** A stand-in for PIL and hashlib on which the script can be run: an image
    is its format, its size and its bytes; cropping and resizing keep the
    bytes (pixels are not modelled), and the digest spells the bytes out. *)
Module Demo.

Record image : Type := Image { fmt : string; size : Z * Z; pixels : list Byte.byte }.

Definition board : image := Image "PNG" (1000, 500) [Byte.x01; Byte.x02].
Definition photo : image := Image "GIF" (1000, 500) [Byte.x03].

Definition store : list (string * image) :=
  [("images/board.png", board); ("images/photo.gif", photo)].

Definition hex_digit (n : N) : ascii :=
  ascii_of_N (if (n <? 10)%N then 48 + n else 87 + n).

Fixpoint hex (bytes : list Byte.byte) : string :=
  match bytes with
  | [] => EmptyString
  | b :: bs =>
      let n := Byte.to_N b in
      String (hex_digit (n / 16)) (String (hex_digit (n mod 16)) (hex bs))
  end.

(** A stand-in for PIL that refuses what PIL refuses: a box whose right
    side lies left of its left side, or its lower side above its upper
    side, and a size with a side that is not positive. A box without
    extent is cropped. (PIL rounds the sides of the box to integers before
    it compares them; the boxes of the records below have integral
    sides.) *)
Definition crop {F : Type} {PF : PyFloat F} (img : image) (b : box F) : res image :=
  if fltb (bxmax b) (bxmin b) then
    raise (ValueError "Coordinate 'right' is less than 'left'")
  else if fltb (bymax b) (bymin b) then
    raise (ValueError "Coordinate 'lower' is less than 'upper'")
  else OK img.

Definition resize (img : image) (sz : Z * Z) : res image :=
  if (fst sz <=? 0) || (snd sz <=? 0) then
    raise (ValueError "height and width must be > 0")
  else OK (Image (fmt img) sz (pixels img)).

#[global] Instance codec (F : Type) {PF : PyFloat F} : Codec F image := {
  image_open := fun path =>
    match Dict.get path store with
    | Some img => OK img
    | None => raise (FileNotFoundError path)
    end;
  image_format := fmt;
  image_size := size;
  image_crop := crop;
  image_resize := resize;
  image_tobytes := pixels;
  md5_hexdigest := hex
}.

(** The board as [save_orb] writes a crop of it. *)
Definition tile : image := Image "PNG" (64, 64) [Byte.x01; Byte.x02].

Definition leaf (tag text : string) : xml := Element tag (Some text) [].
Definition node (tag : string) (children : list xml) : xml := Element tag None children.

Definition detection (name xmin ymin xmax ymax : string) : xml :=
  node "object"
    [leaf "name" name;
     node "bndbox" [leaf "xmin" xmin; leaf "ymin" ymin;
                    leaf "xmax" xmax; leaf "ymax" ymax]].

Definition annotation (filename width height : string) (objects : list xml) : xml :=
  node "annotation"
    ([leaf "filename" filename;
      node "size" [leaf "width" width; leaf "height" height]] ++ objects).

Definition orb_red : xml := detection "orb_red" "100" "100" "200" "200".

(** The scenario of the specification: one detection. *)
Definition one_orb : xml := annotation "board.png" "1000" "500" [orb_red].

(** A full 4 x 5 board. *)
Definition board20 : xml := annotation "board.png" "1000" "500" (repeat orb_red 20).

(** No detection at all. *)
Definition empty_board : xml := annotation "board.png" "1000" "500" [].

(** Twenty orbs and one detection of another class. *)
Definition board20_and_heart : xml :=
  annotation "board.png" "1000" "500"
    (repeat orb_red 20 ++ [detection "heart" "10" "10" "20" "20"]).

(** Nineteen orbs. *)
Definition board19 : xml := annotation "board.png" "1000" "500" (repeat orb_red 19).

(** Nineteen orbs and one detection of another class: twenty objects. *)
Definition board19_and_heart : xml :=
  annotation "board.png" "1000" "500"
    (repeat orb_red 19 ++ [detection "heart" "10" "10" "20" "20"]).

(** A full board whose record declares a size of 300 x 700, and one whose
    boxes are written with fractions. *)
Definition board20_thirds : xml := annotation "board.png" "300" "700" (repeat orb_red 20).

Definition board20_fractions : xml :=
  annotation "board.png" "1000" "500"
    (repeat (detection "orb_red" "100.5" "-0" "2e2" " 200.25 ") 20).

(** Twenty orbs whose box runs past the right edge of the image. *)
Definition board20_outside : xml :=
  annotation "board.png" "1000" "500" (repeat (detection "orb_red" "900" "100" "1200" "200") 20).

(** One orb whose box runs past the right edge of the image. *)
Definition outside_orb : xml :=
  annotation "board.png" "1000" "500" [detection "orb_red" "900" "100" "1200" "200"].

(** One orb whose box has no width. *)
Definition flat_orb : xml :=
  annotation "board.png" "1000" "500" [detection "orb_red" "100" "100" "100" "200"].

(** One orb whose box lies to the right of the image. *)
Definition far_orb : xml :=
  annotation "board.png" "1000" "500" [detection "orb_red" "1100" "100" "1200" "200"].

(** One orb whose box is a single point. *)
Definition point_orb : xml :=
  annotation "board.png" "1000" "500" [detection "orb_red" "100" "100" "100" "100"].

Definition data_of (doc : xml) : pyval :=
  match load_annotations doc with
  | inr d => d
  | inl _ => PNone
  end.

Definition items_of (v : pyval) : list (string * pyval) :=
  match v with
  | PDict d => d
  | _ => []
  end.

End Demo.

(** A stand-in for the file system, on which the orb manifest can be run:
    the store holds what the events have created, each directory made with
    its parents, each saved image and each opened manifest. *)
Module DemoStore.
Import Demo.

(** The directories above the path [acc ++ s]. *)
Fixpoint parents (acc s : string) : list string :=
  match s with
  | EmptyString => []
  | String c t =>
      (if Ascii.eqb c "/" then [acc] else []) ++ parents (acc ++ String c "") t
  end.

(** The paths an event creates, each with whether it is a directory. *)
Definition created {F : Type} (ev : event F image) : list (string * bool) :=
  match ev with
  | EvMakedirs p => map (fun q => (q, true)) (parents "" p ++ [p])
  | EvSave p _ | EvCsvOpen p => [(p, false)]
  | _ => []
  end.

Definition is_dir {F : Type} (history : list (event F image)) (p : string) : bool :=
  existsb (fun e => snd e && String.eqb (fst e) p) (flat_map created history).

(** The name of [q] within the directory [p], when [q] lies in it. *)
Definition name_in (p q : string) : option string :=
  if String.prefix (p ++ "/") q then
    let name := substring (String.length p + 1) (String.length q) q in
    if no_sep name && negb (String.eqb name "") then Some name else None
  else None.

Fixpoint distinct (seen l : list string) : list string :=
  match l with
  | [] => []
  | s :: l' =>
      if existsb (String.eqb s) seen then distinct seen l'
      else s :: distinct (s :: seen) l'
  end.

Definition list_dir {F : Type} (history : list (event F image)) (p : string)
    : res (list string) :=
  if is_dir history p then
    OK (distinct []
          (flat_map (fun e => match name_in p (fst e) with
                              | Some name => [name]
                              | None => []
                              end)
             (flat_map created history)))
  else raise (FileNotFoundError p).

Definition open_write {F : Type} (history : list (event F image)) (p : string)
    : res unit :=
  match rev (parents "" p) with
  | [] => OK tt
  | dir :: _ => if is_dir history dir then OK tt else raise (FileNotFoundError p)
  end.

#[global] Instance file_store (F : Type) : Store F image := {
  open_w := open_write;
  listdir := list_dir;
  isdir := is_dir
}.

(** Two orbs of different colours. *)
Definition two_orbs : xml :=
  annotation "board.png" "1000" "500"
    [orb_red; detection "orb_blue" "300" "100" "400" "200"].

(** An orb, and an orb whose box is not a number. *)
Definition orb_and_bad_box : xml :=
  annotation "board.png" "1000" "500"
    [orb_red; detection "orb_blue" "left" "100" "400" "200"].

(** An orb, and a detection that has no name. *)
Definition orb_and_unnamed : xml :=
  annotation "board.png" "1000" "500"
    [orb_red;
     node "object" [node "bndbox" [leaf "xmin" "1"; leaf "ymin" "1";
                                   leaf "xmax" "2"; leaf "ymax" "2"]]].

(** A full board whose record declares no size, and one that declares a
    width of zero. *)
Definition board20_unsized : xml :=
  node "annotation" (leaf "filename" "board.png" :: repeat orb_red 20).

Definition board20_flat : xml := annotation "board.png" "0" "500" (repeat orb_red 20).

(** A record of a file that is not an image of a format the script takes,
    and a record that names its file by an absolute path. *)
Definition gif_record : xml := annotation "photo.gif" "1000" "500" [orb_red].

Definition absolute_record : xml := annotation "/data/board.png" "1000" "500" [orb_red].

(** What [tf.gfile.Glob] finds in the annotations directory. *)
Definition glob (files : list (string * xml)) (pattern : string) : list (string * xml) :=
  if String.eqb pattern "annotations/*.xml" then files else [].

End DemoStore.


(** * Properties *)

Example parse_int_samples :
  map parse_int ["100"; " -42 "; "+7"; "1_000"; "1__0"; "_1"; "1_"; ""; "12a"; "0012"]
  = [Some 100; Some (-42); Some 7; Some 1000; None; None; None; None; None; Some 12].
Proof. reflexivity. Qed.

Example string_samples :
  (is_substring "orb" "orb_red", is_substring "orb" "red", is_substring "orb" "absorb",
   path_join "images" "a.png", path_join "images/" "a.png", path_join "images" "/a.png",
   path_join "" "a.png", basename "out/orbs_in_screens", basename "out/",
   str_replace "out/" "" "out/corrected_images/k.png", str_replace "aa" "b" "aaaaa")
  = (true, false, true, "images/a.png", "images/a.png", "/a.png", "a.png",
     "orbs_in_screens", "", "corrected_images/k.png", "bba").
Proof. reflexivity. Qed.

(* ================================================================= *)
(** ** Dictionaries *)

Section DictFacts.
Context {V : Type}.
Implicit Types (k : string) (v : V) (d : list (string * V)).

Lemma get_set_same k v d : Dict.get k (Dict.set k v d) = Some v.
Proof.
  induction d as [|[k' v'] d IH]; simpl.
  - now rewrite String.eqb_refl.
  - destruct (String.eqb k k') eqn:E; simpl.
    + now rewrite String.eqb_refl.
    + now rewrite E.
Qed.

Lemma get_set_other k k' v d :
  k' <> k -> Dict.get k' (Dict.set k v d) = Dict.get k' d.
Proof.
  intros Hne. induction d as [|[k0 v0] d IH]; simpl.
  - destruct (String.eqb k' k) eqn:E; [apply String.eqb_eq in E; congruence | reflexivity].
  - destruct (String.eqb k k0) eqn:E; simpl.
    + apply String.eqb_eq in E; subst k0.
      destruct (String.eqb k' k) eqn:E'; [apply String.eqb_eq in E'; congruence | reflexivity].
    + destruct (String.eqb k' k0); [reflexivity | exact IH].
Qed.

Lemma get_set k k' v d :
  Dict.get k' (Dict.set k v d) = if String.eqb k' k then Some v else Dict.get k' d.
Proof.
  destruct (String.eqb k' k) eqn:E.
  - apply String.eqb_eq in E; subst. apply get_set_same.
  - apply String.eqb_neq in E. now apply get_set_other.
Qed.
End DictFacts.

(* ================================================================= *)
(** ** The parser *)

Lemma xml_ind' (P : xml -> Prop) :
  (forall tag text children, Forall P children -> P (Element tag text children)) ->
  forall x, P x.
Proof.
  intros H. fix IH 1. intros [tag text children]. apply H.
  induction children as [|c cs IHcs]; constructor; [apply IH | exact IHcs].
Qed.

Lemma total_value x : total x -> contribution x = OK (node_value x).
Proof. intros [v Hv]. unfold node_value. now rewrite Hv. Qed.

Lemma store_child_get r t v :
  obj_ok r ->
  exists r', store_child r t v = OK r' /\ obj_ok r' /\
    forall k, Dict.get k r' =
      if String.eqb k t
      then if String.eqb t "object" then Some (PList (obj_list r ++ [v])) else Some v
      else Dict.get k r.
Proof.
  intros Hr. unfold store_child.
  destruct (String.eqb t "object") eqn:Et; simpl.
  - apply String.eqb_eq in Et; subst t.
    unfold obj_ok, obj_list, Dict.mem in *.
    destruct (Dict.get "object" r) as [[| |d|l]|] eqn:Eg; try contradiction; simpl.
    + rewrite Eg. eexists; split; [reflexivity|]. split.
      * now rewrite get_set_same.
      * intros k. now rewrite get_set.
    + rewrite get_set_same. eexists; split; [reflexivity|]. split.
      * now rewrite get_set_same.
      * intros k. rewrite !get_set. now destruct (String.eqb k "object").
  - eexists; split; [reflexivity|]. split.
    + unfold obj_ok in *. rewrite get_set, String.eqb_sym, Et. exact Hr.
    + intros k. now rewrite get_set.
Qed.

Lemma parse_children_raise e cs : parse_children (raise e) cs = raise e.
Proof. induction cs as [|c cs IH]; [reflexivity | exact IH]. Qed.

Lemma parse_children_step r c cs :
  total c ->
  parse_children (OK r) (c :: cs)
  = parse_children (store_child r (xml_tag c) (node_value c)) cs.
Proof.
  intros Hc. apply total_value in Hc. unfold contribution in Hc.
  unfold parse_children; simpl. f_equal.
  unfold add_child.
  destruct (recursive_parse_xml_to_dict c) as [e|cr]; simpl in *; [discriminate|].
  now rewrite Hc.
Qed.

Lemma find_app_last {A} (f : A -> bool) l a :
  find f (l ++ [a]) =
  match find f l with
  | Some x => Some x
  | None => if f a then Some a else None
  end.
Proof.
  induction l as [|b l IH]; simpl; [reflexivity|].
  destruct (f b); [reflexivity | exact IH].
Qed.

Lemma parse_children_spec cs :
  Forall total cs ->
  forall r0, obj_ok r0 ->
  exists r,
    parse_children (OK r0) cs = OK r /\ obj_ok r /\
    (forall t, t <> "object" ->
       Dict.get t r = match last_tagged t cs with
                      | Some c => Some (node_value c)
                      | None => Dict.get t r0
                      end) /\
    Dict.get "object" r =
      match filter (has_tag "object") cs with
      | [] => Dict.get "object" r0
      | objs => Some (PList (obj_list r0 ++ map node_value objs))
      end.
Proof.
  induction 1 as [|c cs Hc Hcs IH]; intros r0 Hr0.
  - exists r0. repeat split; auto.
  - rewrite (parse_children_step _ _ _ Hc).
    destruct (store_child_get r0 (xml_tag c) (node_value c) Hr0) as (r1 & E1 & Hr1 & G1).
    rewrite E1.
    destruct (IH r1 Hr1) as (r & E & Hr & Gt & Go).
    exists r. split; [exact E|]. split; [exact Hr|]. split.
    + intros t Ht. rewrite (Gt t Ht). unfold last_tagged. simpl rev.
      rewrite find_app_last.
      destruct (find (has_tag t) (rev cs)); [reflexivity|].
      rewrite G1. unfold has_tag. rewrite (String.eqb_sym t).
      destruct (String.eqb (xml_tag c) t) eqn:Et; [|reflexivity].
      apply String.eqb_eq in Et. subst t.
      apply String.eqb_neq in Ht. now rewrite Ht.
    + rewrite Go. simpl filter. unfold has_tag at 2.
      assert (Hl : obj_list r1 =
                   if String.eqb (xml_tag c) "object"
                   then obj_list r0 ++ [node_value c] else obj_list r0).
      { unfold obj_list at 1. rewrite G1, (String.eqb_sym "object").
        now destruct (String.eqb (xml_tag c) "object"). }
      rewrite Hl, G1, (String.eqb_sym "object").
      destruct (String.eqb (xml_tag c) "object"); [|reflexivity].
      destruct (filter (has_tag "object") cs); simpl; [reflexivity|].
      now rewrite <- app_assoc.
Qed.

Lemma contribution_total x : total x.
Proof.
  induction x as [tag text children IH] using xml_ind'.
  unfold total, contribution.
  destruct children as [|c cs].
  - simpl. rewrite String.eqb_refl. eauto.
  - destruct (parse_children_spec (c :: cs) IH [] I) as (r & E & _).
    change (recursive_parse_xml_to_dict (Element tag text (c :: cs)))
      with (result <- parse_children (OK []) (c :: cs) ;;
            OK (PDict [(tag, PDict result)]))%res.
    rewrite E. simpl. rewrite String.eqb_refl. eauto.
Qed.

Lemma map_res_contribution l :
  map_res contribution l = OK (map node_value l).
Proof.
  induction l as [|c l IH]; simpl; [reflexivity|].
  now rewrite (total_value c (contribution_total c)), IH.
Qed.

(** C1. A leaf node parses to [{tag: text}]. An internal node parses to
    [{tag: result}] where, for every tag other than ['object'], [result]
    holds the contribution of the last child carrying that tag (a later
    sibling overwrites an earlier one) and nothing when no child carries it;
    and where ['object'] holds the list of the contributions of the children
    tagged ['object'], in document order (absent when there is none). *)
Theorem parse_leaf_and_internal (tag : string) (text : option string) (children : list xml) :
  match children with
  | [] =>
      recursive_parse_xml_to_dict (Element tag text children)
      = OK (PDict [(tag, text_value text)])
  | _ :: _ =>
      exists result objs,
        recursive_parse_xml_to_dict (Element tag text children)
        = OK (PDict [(tag, PDict result)]) /\
        (forall t, t <> "object" ->
           option_map contribution (last_tagged t children)
           = option_map OK (Dict.get t result)) /\
        map_res contribution (filter (has_tag "object") children) = OK objs /\
        Dict.get "object" result =
          match objs with
          | [] => None
          | _ :: _ => Some (PList objs)
          end
  end.
Proof.
  destruct children as [|c cs]; [reflexivity|].
  assert (Hall : Forall total (c :: cs))
    by (apply Forall_forall; intros; apply contribution_total).
  destruct (parse_children_spec (c :: cs) Hall [] I) as (r & E & _ & Gt & Go).
  exists r, (map node_value (filter (has_tag "object") (c :: cs))).
  split; [|split; [|split]].
  - change (recursive_parse_xml_to_dict (Element tag text (c :: cs)))
      with (result <- parse_children (OK []) (c :: cs) ;;
            OK (PDict [(tag, PDict result)]))%res.
    now rewrite E.
  - intros t Ht. rewrite (Gt t Ht).
    destruct (last_tagged t (c :: cs)) as [x|]; simpl; [|reflexivity].
    now rewrite (total_value x (contribution_total x)).
  - apply map_res_contribution.
  - rewrite Go. now destruct (filter (has_tag "object") (c :: cs)).
Qed.

(* ================================================================= *)
(** ** Computations with a trace *)

Section MonadFacts.
Context {E : Type}.

Lemma bind_lift_OK {A B} (a : A) (k : A -> M E B) : bind (lift (OK a)) k = k a.
Proof. unfold bind, lift, OK. now destruct (k a). Qed.

Lemma bind_lift_raise {A B} (e : exn) (k : A -> M E B) :
  bind (lift (raise e)) k = (raise e, []).
Proof. reflexivity. Qed.

Lemma bind_ret {A B} (a : A) (k : A -> M E B) : bind (ret a) k = k a.
Proof. apply bind_lift_OK. Qed.

Lemma bind_emit {B} (ev : E) (k : unit -> M E B) :
  bind (emit ev) k = (fst (k tt), ev :: snd (k tt)).
Proof. unfold bind, emit, OK. now destruct (k tt). Qed.

Lemma bind_run {A B} (m : M E A) (k : A -> M E B) a t :
  m = (OK a, t) -> bind m k = (fst (k a), t ++ snd (k a)).
Proof. intros ->. unfold bind, OK. now destruct (k a). Qed.

Lemma bind_fail {A B} (m : M E A) (k : A -> M E B) e t :
  m = (raise e, t) -> bind m k = (raise e, t).
Proof. now intros ->. Qed.

Lemma for_each_emit {A} (f : A -> E) (l : list A) :
  for_each l (fun a => emit (f a)) = (OK tt, map f l).
Proof.
  induction l as [|a l IH]; [reflexivity|].
  cbn [for_each]. now rewrite bind_emit, IH.
Qed.

Lemma bind_assoc {A B D} (m : M E A) (f : A -> M E B) (g : B -> M E D) :
  bind (bind m f) g = bind m (fun a => bind (f a) g).
Proof.
  destruct m as [[e|a] t]; [reflexivity|]. unfold bind.
  destruct (f a) as [[e|b] t1]; [reflexivity|].
  destruct (g b) as [r t2]. now rewrite app_assoc.
Qed.

Lemma bind_ret_r (m : M E unit) : bind m (fun _ => ret tt) = m.
Proof. destruct m as [[e|[]] t]; [reflexivity|]. unfold bind, ret, OK. now rewrite app_nil_r. Qed.

Lemma for_each_app {A} (l1 l2 : list A) (body : A -> M E unit) :
  for_each (l1 ++ l2) body = bind (for_each l1 body) (fun _ => for_each l2 body).
Proof.
  induction l1 as [|a l1 IH]; cbn [app for_each].
  - now rewrite bind_ret.
  - now rewrite IH, bind_assoc.
Qed.
End MonadFacts.

(** One step of a computation at the head of the goal. *)
Ltac mrun :=
  repeat (cbv beta;
          first [rewrite bind_emit | rewrite bind_ret
                | rewrite bind_lift_OK | rewrite bind_lift_raise]).

(* ================================================================= *)
(** ** Literals *)

Section Literals.

Lemma digit_chars c d :
  digit_of c = Some d ->
  is_digit c = true /\ Ascii.eqb c "_" = false /\ 0 <= d <= 9 /\
  Ascii.eqb c "-" = false /\ Ascii.eqb c "+" = false /\
  Ascii.eqb c "." = false /\ lower c = c /\
  Ascii.eqb c "i" = false /\ Ascii.eqb c "n" = false.
Proof.
  intros H. unfold is_digit. rewrite H. unfold digit_of in H.
  destruct c as [[] [] [] [] [] [] [] []]; cbn in H; try discriminate;
    injection H as <-; repeat split; (reflexivity || lia).
Qed.

Lemma parse_digits_nonneg s : forall acc prev z,
  parse_digits acc prev s = Some z -> 0 <= acc -> 0 <= z.
Proof.
  induction s as [|c s IH]; intros acc prev z; cbn [parse_digits].
  - destruct prev; [now intros [= <-] | discriminate].
  - destruct (digit_of c) as [d|] eqn:Ed.
    + intros H Ha. apply (IH _ _ _ H). pose proof (digit_chars c d Ed). lia.
    + destruct (Ascii.eqb c "_" && prev); [|discriminate].
      intros H Ha. exact (IH _ _ _ H Ha).
Qed.

(** The digits that [int] reads, with their underscores, are the digits
    that [float] reads once the underscores are dropped. *)
Lemma parse_digits_drop s :
  (forall acc z count pu,
     parse_digits acc false s = Some z ->
     exists c u,
       is_digit c = true /\
       drop_underscores false pu s = Some (String c u) /\
       read_digits acc count (String c u)
       = (z, (count + String.length (String c u))%nat, "")) /\
  (forall acc z count,
     parse_digits acc true s = Some z ->
     exists u,
       drop_underscores true false s = Some u /\
       read_digits acc count u = (z, (count + String.length u)%nat, "")).
Proof.
  induction s as [|c s [IHf IHt]]; split.
  - discriminate.
  - intros acc z count [= <-]. exists "". cbn. now rewrite Nat.add_0_r.
  - intros acc z count pu. cbn [parse_digits].
    destruct (digit_of c) as [d|] eqn:Ed; [|rewrite andb_false_r; discriminate].
    intros H. destruct (IHt _ _ (Datatypes.S count) H) as (u & Hu & Hr).
    destruct (digit_chars c d Ed) as (Hd & Hn & _).
    exists c, u. split; [exact Hd|]. split.
    + cbn [drop_underscores]. rewrite Hn, Hd, andb_false_r, Hu. reflexivity.
    + cbn [read_digits String.length]. rewrite Ed, Hr. f_equal. f_equal. lia.
  - intros acc z count. cbn [parse_digits].
    destruct (digit_of c) as [d|] eqn:Ed.
    + intros H. destruct (IHt _ _ (Datatypes.S count) H) as (u & Hu & Hr).
      destruct (digit_chars c d Ed) as (Hd & Hn & _).
      exists (String c u). split.
      * cbn [drop_underscores]. rewrite Hn, Hd, Hu. reflexivity.
      * cbn [read_digits String.length]. rewrite Ed, Hr. f_equal. f_equal. lia.
    + destruct (Ascii.eqb c "_") eqn:Eu; cbn [andb]; [|discriminate].
      intros H. destruct (IHf _ _ count true H) as (c' & u & Hd & Hu & Hr).
      exists (String c' u). split; [|exact Hr].
      cbn [drop_underscores]. now rewrite Eu.
Qed.

(** A text that begins with a digit and is all digits denotes its value. *)
Lemma parse_float_digits neg c u m :
  is_digit c = true ->
  read_digits 0 0 (String c u) = (m, String.length (String c u), "") ->
  (let '(neg', body) := read_sign (String c u) in
   let word := lowercase body in
   if String.eqb word "inf" || String.eqb word "infinity" then Some (LitSpecial neg' false)
   else if String.eqb word "nan" then Some (LitSpecial neg' true)
   else option_map (fun me => LitDecimal neg' (fst me) (snd me)) (parse_decimal body))
  = Some (LitDecimal false m 0) /\
  (let word := lowercase (String c u) in
   if String.eqb word "inf" || String.eqb word "infinity" then Some (LitSpecial neg false)
   else if String.eqb word "nan" then Some (LitSpecial neg true)
   else option_map (fun me => LitDecimal neg (fst me) (snd me)) (parse_decimal (String c u)))
  = Some (LitDecimal neg m 0).
Proof.
  intros Hd Hr. unfold is_digit in Hd.
  destruct (digit_of c) as [d|] eqn:Ed; [|discriminate].
  destruct (digit_chars c d Ed) as (_ & _ & _ & Hm & Hp & _ & Hl & Hi & Hn).
  assert (Hsign : read_sign (String c u) = (false, String c u)).
  { unfold read_sign. destruct c as [[] [] [] [] [] [] [] []]; try reflexivity;
      discriminate. }
  assert (Hword : forall w, lowercase (String c u) = w ->
            String.eqb w "inf" = false /\ String.eqb w "infinity" = false /\
            String.eqb w "nan" = false).
  { intros w <-. cbn [lowercase]. rewrite Hl. cbn [String.eqb]. now rewrite Hi, Hn. }
  destruct (Hword _ eq_refl) as (W1 & W2 & W3).
  assert (Hdec : parse_decimal (String c u) = Some (m, 0)).
  { unfold parse_decimal. rewrite Hr. cbn [String.length Nat.add Nat.eqb]. reflexivity. }
  rewrite Hsign. cbv zeta. cbv beta iota. rewrite W1, W2, W3, Hdec. now split.
Qed.

Lemma parse_int_float s z :
  parse_int s = Some z ->
  exists (neg : bool) (m : Z),
    0 <= m /\ z = (if neg then - m else m) /\
    parse_float s = Some (LitDecimal neg m 0).
Proof.
  unfold parse_int, parse_float. set (core := rstrip (lstrip s)). clearbody core.
  assert (Hdigits : forall t m, parse_digits 0 false t = Some m ->
            0 <= m /\
            exists c u, is_digit c = true /\
              drop_underscores false false t = Some (String c u) /\
              read_digits 0 0 (String c u) = (m, String.length (String c u), "")).
  { intros t m H. split; [apply (parse_digits_nonneg _ _ _ _ H); lia|].
    destruct (proj1 (parse_digits_drop t) 0 m O false H) as (c & u & Hd & Hu & Hr).
    exists c, u. auto. }
  assert (Hplain : forall m, parse_digits 0 false core = Some m ->
            exists (neg : bool) (m' : Z), 0 <= m' /\ m = (if neg then - m' else m') /\
              match drop_underscores false false core with
              | None => None
              | Some t =>
                  let '(neg, body) := read_sign t in
                  let word := lowercase body in
                  if String.eqb word "inf" || String.eqb word "infinity"
                  then Some (LitSpecial neg false)
                  else if String.eqb word "nan" then Some (LitSpecial neg true)
                  else option_map (fun me => LitDecimal neg (fst me) (snd me))
                         (parse_decimal body)
              end = Some (LitDecimal neg m' 0)).
  { intros m H. destruct (Hdigits _ _ H) as (Hm & c & u & Hd & Hu & Hr).
    exists false, m. split; [exact Hm|]. split; [reflexivity|].
    rewrite Hu. exact (proj1 (parse_float_digits false c u m Hd Hr)). }
  assert (Hsigned : forall (sign : ascii) (neg : bool) t m,
            core = String sign t ->
            (sign = "-"%char /\ neg = true) \/ (sign = "+"%char /\ neg = false) ->
            parse_digits 0 false t = Some m ->
            match drop_underscores false false core with
            | None => None
            | Some t =>
                let '(neg, body) := read_sign t in
                let word := lowercase body in
                if String.eqb word "inf" || String.eqb word "infinity"
                then Some (LitSpecial neg false)
                else if String.eqb word "nan" then Some (LitSpecial neg true)
                else option_map (fun me => LitDecimal neg (fst me) (snd me))
                       (parse_decimal body)
            end = Some (LitDecimal neg m 0) /\ 0 <= m).
  { intros sign neg t m -> Hsign H.
    destruct (Hdigits _ _ H) as (Hm & c & u & Hd & Hu & Hr).
    split; [|exact Hm].
    destruct Hsign as [[-> ->] | [-> ->]].
    - change (drop_underscores false false (String "-" t))
        with (option_map (String "-"%char) (drop_underscores false false t)).
      rewrite Hu. cbn [option_map read_sign].
      exact (proj2 (parse_float_digits _ c u m Hd Hr)).
    - change (drop_underscores false false (String "+" t))
        with (option_map (String "+"%char) (drop_underscores false false t)).
      rewrite Hu. cbn [option_map read_sign].
      exact (proj2 (parse_float_digits _ c u m Hd Hr)). }
  destruct core as [|c t] eqn:Ecore.
  - discriminate.
  - destruct (Ascii.eqb c "-") eqn:Em; [apply Ascii.eqb_eq in Em; subst c|].
    + destruct (parse_digits 0 false t) as [m|] eqn:Hp; [|discriminate].
      intros [= <-].
      destruct (Hsigned "-"%char true t m eq_refl (or_introl (conj eq_refl eq_refl)) Hp)
        as [H Hm].
      exists true, m. auto.
    + destruct (Ascii.eqb c "+") eqn:Ep; [apply Ascii.eqb_eq in Ep; subst c|].
      * intros Hp.
        destruct (Hsigned "+"%char false t z eq_refl (or_intror (conj eq_refl eq_refl)) Hp)
          as [H Hm].
        exists false, z. auto.
      * intros H.
        assert (Hp : parse_digits 0 false (String c t) = Some z).
        { destruct c as [[] [] [] [] [] [] [] []]; try exact H; discriminate. }
        exact (Hplain z Hp).
Qed.

End Literals.

(* ================================================================= *)
(** ** Records without detections *)

Section Properties.
Context {F : Type} {PF : PyFloat F} {Image : Type} {C : Codec F Image}.

#[local] Abbreviation Ev := (event F Image).

Lemma load_image_filename data image_dir image :
  load_image data image_dir = OK image ->
  exists name, getitem data "filename" = OK (PStr name).
Proof.
  unfold load_image.
  destruct (getitem data "filename") as [e|v]; simpl; [discriminate|].
  destruct v; simpl; try discriminate. eauto.
Qed.

Lemma load_image_needs_object data image_dir :
  (exists e, getitem data "object" = raise e) ->
  (exists e, load_image data image_dir = raise e) /\
  (forall name, getitem data "filename" = OK (PStr name) ->
     load_image data image_dir
     = raise (ValueError ("no objects found in " ++ path_join image_dir name))).
Proof.
  intros [e He]. unfold load_image.
  destruct data as [|s|d|l]; simpl in *; try (split; [eauto | discriminate]).
  assert (Hmem : Dict.mem "object" d = false).
  { unfold Dict.mem. destruct (Dict.get "object" d); [discriminate | reflexivity]. }
  split.
  - destruct (Dict.get "filename" d) as [v|]; simpl; [|eauto].
    destruct v; simpl; eauto. rewrite Hmem. simpl. eauto.
  - intros name Hn. destruct (Dict.get "filename" d) as [v|]; [|discriminate].
    injection Hn as ->. simpl. now rewrite Hmem.
Qed.

Lemma parse_annotation text children :
  exists data,
    load_annotations (Element "annotation" text children) = OK data /\
    (filter (has_tag "object") children = [] ->
     exists e, getitem data "object" = raise e).
Proof.
  destruct children as [|c cs].
  - exists (text_value text). split; [reflexivity|].
    intros _. destruct text; simpl; eauto.
  - assert (Hall : Forall total (c :: cs))
      by (apply Forall_forall; intros; apply contribution_total).
    destruct (parse_children_spec (c :: cs) Hall [] I) as (r & E & _ & _ & Go).
    exists (PDict r). split.
    + unfold load_annotations.
      change (recursive_parse_xml_to_dict (Element "annotation" text (c :: cs)))
        with (result <- parse_children (OK []) (c :: cs) ;;
              OK (PDict [("annotation", PDict result)]))%res.
      now rewrite E.
    + intros Hno. rewrite Hno in Go. simpl in *. rewrite Go. eauto.
Qed.

(** C2, as the code has it. A well-formed annotation document without any
    ['object'] element parses, but the record has no ['object'] entry at
    all (not an empty sequence), and [load_image] rejects it: both
    pipelines raise before any effect, with [ValueError('no objects found
    in ...')] once the record names its file. *)
Theorem record_without_objects_is_rejected
    (text : option string) (children : list xml) (image_dir output_dir : string) :
  filter (has_tag "object") children = [] ->
  exists data,
    load_annotations (Element "annotation" text children) = OK data /\
    (exists e, getitem data "object" = raise e) /\
    (exists e, load_image data image_dir = raise e) /\
    (forall name, getitem data "filename" = OK (PStr name) ->
       load_image data image_dir
       = raise (ValueError ("no objects found in " ++ path_join image_dir name))) /\
    (exists e, process_orbs data image_dir output_dir = (raise e, [])) /\
    (exists e, process_images data image_dir output_dir = (raise e, [])).
Proof.
  intros Hno.
  destruct (parse_annotation text children) as (data & Hload & Hobj).
  specialize (Hobj Hno).
  destruct (load_image_needs_object data image_dir Hobj) as [[e He] Hmsg].
  exists data. repeat split; auto.
  - eauto.
  - exists e. unfold process_orbs. now rewrite He.
  - exists e. unfold process_images. now rewrite He.
Qed.

(* =============================================================== *)
(** ** The validation of the number of orbs *)

Lemma expected_orb_count_spec n :
  expected_orb_count n = true <-> n = 20 \/ n = 30 \/ n = 42.
Proof.
  unfold expected_orb_count. simpl. rewrite !orb_true_iff, !Z.eqb_eq.
  intuition discriminate.
Qed.

Lemma process_images_skip data image_dir output_dir image orbs name :
  load_image data image_dir = OK image ->
  extract_orb_annotations data = OK orbs ->
  getitem data "filename" = OK name ->
  expected_orb_count (Z.of_nat (List.length orbs)) = false ->
  process_images data image_dir output_dir
  = (OK [], [EvSkip (Z.of_nat (List.length orbs)) name]).
Proof.
  intros Hi Ho Hn Hc. unfold process_images.
  rewrite Hi, bind_lift_OK, Ho, bind_lift_OK, Hc. simpl negb. cbv iota.
  rewrite Hn, bind_lift_OK. cbv beta. rewrite bind_emit. reflexivity.
Qed.

(** C5, as the code has it. For a record whose image is loaded (which
    takes a record with an ['object'] entry), [process_images] returns
    rows only when the number of orb detections, those whose name contains
    ['orb'], is 20, 30 or 42. For any other number it raises nothing,
    returns no row and only prints the notice; and the loop of
    [do_screen_processing] then writes no CSV line for that record and goes
    on with the next one. *)
Theorem unexpected_count_skips_record
    (data : pyval) (image_dir output_dir : string) (image : Image) (orbs : list pyval) :
  load_image data image_dir = OK image ->
  extract_orb_annotations data = OK orbs ->
  let orb_count := Z.of_nat (List.length orbs) in
  (forall rows trace,
     process_images data image_dir output_dir = (OK rows, trace) ->
     rows <> [] -> orb_count = 20 \/ orb_count = 30 \/ orb_count = 42) /\
  (orb_count <> 20 -> orb_count <> 30 -> orb_count <> 42 ->
   exists filename,
     process_images data image_dir output_dir
     = (OK [], [EvSkip orb_count filename]) /\
     forall name root rest idx total bucket,
       load_annotations root = OK data ->
       let step := screen_step image_dir output_dir bucket total in
       for_each_from idx ((name, root) :: rest) step
       = (fst (for_each_from (idx + 1) rest step),
          [EvPrint name]
          ++ (if idx mod 100 =? 0 then [EvLog idx total] else [])
          ++ [EvSkip orb_count filename]
          ++ snd (for_each_from (idx + 1) rest step))).
Proof.
  intros Hi Ho orb_count.
  destruct (load_image_filename _ _ _ Hi) as [fname Hn].
  split.
  - intros rows trace Hrun Hrows.
    apply expected_orb_count_spec.
    destruct (expected_orb_count orb_count) eqn:Hc; [reflexivity|].
    rewrite (process_images_skip _ _ _ _ _ _ Hi Ho Hn Hc) in Hrun.
    injection Hrun as <- _. congruence.
  - intros H20 H30 H42.
    assert (Hc : expected_orb_count orb_count = false).
    { destruct (expected_orb_count orb_count) eqn:Hc; [|reflexivity].
      apply expected_orb_count_spec in Hc. tauto. }
    exists (PStr fname). split.
    + exact (process_images_skip _ _ _ _ _ _ Hi Ho Hn Hc).
    + intros name root rest idx total bucket Hroot step.
      cbn [for_each_from].
      assert (Hstep : step idx (name, root)
                      = (OK tt, [EvPrint name]
                                ++ (if idx mod 100 =? 0 then [EvLog idx total] else [])
                                ++ [EvSkip orb_count (PStr fname)])).
      { unfold step, screen_step. cbn [fst snd].
        rewrite bind_emit.
        destruct (idx mod 100 =? 0); mrun;
          rewrite Hroot; mrun;
          rewrite (process_images_skip _ _ _ _ _ _ Hi Ho Hn Hc); reflexivity. }
      rewrite (bind_run _ _ _ _ Hstep).
      now rewrite <- !app_assoc.
Qed.

(* =============================================================== *)
(** ** Reading a detection *)

Lemma exact_in_range n : Z.abs n < 2 ^ 53 -> float_range n = true.
Proof.
  intros H. unfold float_range. apply Z.ltb_lt.
  assert (Hlimit : 2 ^ 53 < float_limit) by reflexivity. lia.
Qed.

Lemma py_float_of_int_range n : float_range n = true -> py_float_of_int n = OK (of_int n).
Proof. intros H. unfold py_float_of_int. now rewrite H. Qed.

Lemma py_float_of_int_overflow n :
  float_range n = false -> py_float_of_int n = raise OverflowError.
Proof. intros H. unfold py_float_of_int. now rewrite H. Qed.

(** A text that [int] reads is read by [float] as the same number, with
    the sign of the text when the number is zero. *)
Lemma py_int_float v z :
  py_int v = OK z ->
  exists (neg : bool) (m : Z),
    0 <= m /\ z = (if neg then - m else m) /\ py_float v = OK (of_decimal neg m 0).
Proof.
  destruct v; simpl; try discriminate.
  destruct (parse_int s) as [z'|] eqn:Hp; [|discriminate]. intros [= <-].
  destruct (parse_int_float s z' Hp) as (neg & m & Hm & Hz & Hf).
  exists neg, m. now rewrite Hf.
Qed.

Lemma bndbox_ints_inv obj xmin ymin xmax ymax :
  bndbox_ints obj = OK (xmin, ymin, xmax, ymax) ->
  exists bb v1 v2 v3 v4,
    getitem obj "bndbox" = OK bb /\
    getitem bb "xmin" = OK v1 /\ py_int v1 = OK xmin /\
    getitem bb "ymin" = OK v2 /\ py_int v2 = OK ymin /\
    getitem bb "xmax" = OK v3 /\ py_int v3 = OK xmax /\
    getitem bb "ymax" = OK v4 /\ py_int v4 = OK ymax.
Proof.
  unfold bndbox_ints.
  destruct (getitem obj "bndbox") as [|bb] eqn:Hbb; simpl; [discriminate|].
  destruct (getitem bb "xmin") as [|v1] eqn:G1; simpl; [discriminate|].
  destruct (py_int v1) as [|a] eqn:I1; simpl; [discriminate|].
  destruct (getitem bb "xmax") as [|v3] eqn:G3; simpl; [discriminate|].
  destruct (py_int v3) as [|c] eqn:I3; simpl; [discriminate|].
  destruct (getitem bb "ymin") as [|v2] eqn:G2; simpl; [discriminate|].
  destruct (py_int v2) as [|b] eqn:I2; simpl; [discriminate|].
  destruct (getitem bb "ymax") as [|v4] eqn:G4; simpl; [discriminate|].
  destruct (py_int v4) as [|d] eqn:I4; simpl; [discriminate|].
  intros [= <- <- <- <-]. exists bb, v1, v2, v3, v4. repeat split; assumption.
Qed.

Lemma bndbox_floats_inv obj xmin ymin xmax ymax :
  bndbox_floats obj = OK (xmin, ymin, xmax, ymax) ->
  exists bb v1 v2 v3 v4,
    getitem obj "bndbox" = OK bb /\
    getitem bb "xmin" = OK v1 /\ py_float v1 = OK xmin /\
    getitem bb "ymin" = OK v2 /\ py_float v2 = OK ymin /\
    getitem bb "xmax" = OK v3 /\ py_float v3 = OK xmax /\
    getitem bb "ymax" = OK v4 /\ py_float v4 = OK ymax.
Proof.
  unfold bndbox_floats.
  destruct (getitem obj "bndbox") as [|bb] eqn:Hbb; simpl; [discriminate|].
  destruct (getitem bb "xmin") as [|v1] eqn:G1; simpl; [discriminate|].
  destruct (py_float v1) as [|a] eqn:I1; simpl; [discriminate|].
  destruct (getitem bb "ymin") as [|v2] eqn:G2; simpl; [discriminate|].
  destruct (py_float v2) as [|b] eqn:I2; simpl; [discriminate|].
  destruct (getitem bb "xmax") as [|v3] eqn:G3; simpl; [discriminate|].
  destruct (py_float v3) as [|c] eqn:I3; simpl; [discriminate|].
  destruct (getitem bb "ymax") as [|v4] eqn:G4; simpl; [discriminate|].
  destruct (py_float v4) as [|d] eqn:I4; simpl; [discriminate|].
  intros [= <- <- <- <-]. exists bb, v1, v2, v3, v4. repeat split; assumption.
Qed.

Lemma py_div_int_run (x : F) dim :
  dim <> 0 -> float_range dim = true -> py_div_int x dim = OK (fdiv x (of_int dim)).
Proof.
  intros Hd Hr. unfold py_div_int. rewrite (py_float_of_int_range _ Hr).
  cbn [rbind OK]. apply Z.eqb_neq in Hd. now rewrite Hd.
Qed.

Lemma bndbox_coord_run obj bb key v x dim :
  getitem obj "bndbox" = OK bb -> getitem bb key = OK v -> py_float v = OK x ->
  dim <> 0 -> float_range dim = true ->
  bndbox_coord obj key dim = OK (fdiv x (of_int dim)).
Proof.
  intros Hb Hk Hv Hd Hr. unfold bndbox_coord. rewrite Hb. simpl. rewrite Hk. simpl.
  rewrite Hv. simpl. now apply py_div_int_run.
Qed.

Lemma scene_row_of_run path width height obj b :
  bndbox_floats obj = OK b ->
  width <> 0 -> height <> 0 -> float_range width = true -> float_range height = true ->
  scene_row_of path width height obj = OK (normalized_row path width height b).
Proof.
  destruct b as [[[xmin ymin] xmax] ymax]. intros Hb Hw Hh Rw Rh.
  destruct (bndbox_floats_inv _ _ _ _ _ Hb)
    as (bb & v1 & v2 & v3 & v4 & Hbb & G1 & I1 & G2 & I2 & G3 & I3 & G4 & I4).
  unfold scene_row_of.
  rewrite (bndbox_coord_run _ _ _ _ _ _ Hbb G1 I1 Hw Rw).
  rewrite (bndbox_coord_run _ _ _ _ _ _ Hbb G2 I2 Hh Rh).
  rewrite (bndbox_coord_run _ _ _ _ _ _ Hbb G3 I3 Hw Rw).
  rewrite (bndbox_coord_run _ _ _ _ _ _ Hbb G4 I4 Hh Rh).
  reflexivity.
Qed.

Lemma scene_rows_run path width height orbs boxes :
  Forall2 (fun obj b => bndbox_floats obj = OK b) orbs boxes ->
  width <> 0 -> height <> 0 -> float_range width = true -> float_range height = true ->
  map_res (scene_row_of path width height) orbs
  = OK (map (normalized_row path width height) boxes).
Proof.
  intros Hall Hw Hh Rw Rh. induction Hall as [|obj b orbs boxes Hb _ IH]; [reflexivity|].
  simpl. now rewrite (scene_row_of_run _ _ _ _ _ Hb Hw Hh Rw Rh), IH.
Qed.

Lemma map_res_length {A B} (f : A -> res B) l l' :
  map_res f l = OK l' -> List.length l' = List.length l.
Proof.
  revert l'. induction l as [|a l IH]; simpl; intros l'.
  - now intros [= <-].
  - destruct (f a) as [|b]; simpl; [discriminate|].
    destruct (map_res f l) as [|bs]; simpl; [discriminate|].
    intros [= <-]. simpl. now rewrite (IH bs).
Qed.

(* =============================================================== *)
(** ** The scene pipeline on an accepted record *)

(** The resizing step of [process_images]. *)
Lemma resize_step (image : Image) (new_size : option (Z * Z)) :
  match new_size with
  | Some size => (emit (EvResize size) ;; lift (image_resize image size))%M
  | None => ret image
  end
  = (scene_image image new_size, resize_trace (F := F) (Image := Image) new_size).
Proof. destruct new_size; [now rewrite bind_emit | reflexivity]. Qed.

(** [process_images] from the count validation on. *)
Lemma process_images_accepted data image_dir output_dir image orbs new_size :
  load_image data image_dir = OK image ->
  extract_orb_annotations data = OK orbs ->
  expected_orb_count (Z.of_nat (List.length orbs)) = true ->
  scaled_size (image_size image) = OK new_size ->
  process_images data image_dir output_dir
  = match scene_image image new_size with
    | inl e => (raise e, resize_trace new_size)
    | inr img =>
        ((size <- declared_size data ;;
          map_res (scene_row_of (scene_path output_dir img) (fst size) (snd size)) orbs)%res,
         scene_trace img output_dir new_size)
    end.
Proof.
  intros Hi Ho Hc Hs. unfold process_images.
  rewrite Hi, bind_lift_OK, Ho, bind_lift_OK, Hc. simpl negb. cbv iota.
  rewrite Hs, bind_lift_OK, resize_step.
  destruct (scene_image image new_size) as [e|img]; [reflexivity|].
  rewrite (bind_run _ _ _ _ eq_refl). unfold scene_trace.
  destruct (declared_size data) as [e|[width height]]; mrun; cbn [fst snd]; mrun;
    cbn [fst snd]; mrun; reflexivity.
Qed.

Lemma process_images_run data image_dir output_dir image orbs new_size img width height :
  load_image data image_dir = OK image ->
  extract_orb_annotations data = OK orbs ->
  expected_orb_count (Z.of_nat (List.length orbs)) = true ->
  scaled_size (image_size image) = OK new_size ->
  scene_image image new_size = OK img ->
  declared_size data = OK (width, height) ->
  process_images data image_dir output_dir
  = (map_res (scene_row_of (scene_path output_dir img) width height) orbs,
     scene_trace img output_dir new_size).
Proof.
  intros Hi Ho Hc Hs Himg Hd.
  now rewrite (process_images_accepted _ _ _ _ _ _ Hi Ho Hc Hs), Himg, Hd.
Qed.

Lemma process_images_inv data image_dir output_dir rows trace :
  process_images data image_dir output_dir = (OK rows, trace) ->
  exists image orbs,
    load_image data image_dir = OK image /\
    extract_orb_annotations data = OK orbs /\
    ((expected_orb_count (Z.of_nat (List.length orbs)) = false /\ rows = []) \/
     (expected_orb_count (Z.of_nat (List.length orbs)) = true /\
      exists new_size img width height,
        scaled_size (image_size image) = OK new_size /\
        scene_image image new_size = OK img /\
        declared_size data = OK (width, height) /\
        trace = scene_trace img output_dir new_size /\
        map_res (scene_row_of (scene_path output_dir img) width height) orbs = OK rows)).
Proof.
  intros Hrun.
  destruct (load_image data image_dir) as [e|image] eqn:Hi.
  { unfold process_images in Hrun. rewrite Hi in Hrun. discriminate. }
  destruct (extract_orb_annotations data) as [e|orbs] eqn:Ho.
  { unfold process_images in Hrun. rewrite Hi, bind_lift_OK, Ho in Hrun. discriminate. }
  exists image, orbs. do 2 (split; [reflexivity|]).
  destruct (load_image_filename _ _ _ Hi) as [fname Hn].
  destruct (expected_orb_count (Z.of_nat (List.length orbs))) eqn:Hc.
  - right. split; [reflexivity|].
    destruct (scaled_size (image_size image)) as [e|new_size] eqn:Hs.
    { unfold process_images in Hrun.
      rewrite Hi, bind_lift_OK, Ho, bind_lift_OK, Hc in Hrun. simpl negb in Hrun.
      cbv iota in Hrun. rewrite Hs in Hrun. discriminate. }
    rewrite (process_images_accepted _ _ _ _ _ _ Hi Ho Hc Hs) in Hrun.
    destruct (scene_image image new_size) as [e|img] eqn:Himg; [discriminate|].
    destruct (declared_size data) as [e|[width height]] eqn:Hd; [discriminate|].
    cbn [rbind OK fst snd] in Hrun. injection Hrun as Hmap <-.
    exists new_size, img, width, height. auto.
  - left. split; [reflexivity|].
    rewrite (process_images_skip _ _ _ _ _ _ Hi Ho Hn Hc) in Hrun.
    now injection Hrun as <- _.
Qed.

Lemma csv_row_of_normalized screen_output_path bucket path width height b :
  csv_row_of screen_output_path bucket (basename screen_output_path)
    (normalized_row path width height b)
  = normalized_csv_row (gcs_path screen_output_path bucket path) width height b.
Proof. now destruct b as [[[xmin ymin] xmax] ymax]. Qed.

(** One turn of the loop of [do_screen_processing] on a record that
    [process_images] takes to its end. *)
Lemma screen_step_run image_dir out bucket total idx name root data rows t :
  load_annotations root = OK data ->
  process_images data image_dir out = (OK rows, t) ->
  screen_step image_dir out bucket total idx (name, root)
  = (OK tt,
     [EvPrint name] ++ (if idx mod 100 =? 0 then [EvLog idx total] else [])
     ++ t ++ map (fun item => EvCsvRow (csv_row_of out bucket (basename out) item)) rows).
Proof.
  intros Hroot Hrun. unfold screen_step. cbn [fst snd].
  rewrite bind_emit.
  destruct (idx mod 100 =? 0); mrun; rewrite Hroot; mrun;
    rewrite (bind_run _ _ _ _ Hrun), for_each_emit; reflexivity.
Qed.

(** C6, as the code has it. For a record whose image is loaded, whose
    number of orb detections (those whose name contains ['orb']) is 20, 30
    or 42, whose scene image the codec returns, whose declared width and
    height are integers other than zero within the range of a double, and
    whose orb detections have boxes that [float] reads: [process_images]
    returns exactly one row per orb detection, in the order of the
    annotation, marked ['UNASSIGNED'], labelled ['orb'] whatever the
    detection's name, with the box divided by the width and height declared
    in the record; and the turn of the loop of [do_screen_processing] for
    the record writes, after the scene image, one CSV line per row, in the
    same order: eleven columns, the coordinates rounded to four decimals,
    the four polygon columns empty. *)
Theorem accepted_record_yields_one_row_per_orb
    (image_dir output_dir bucket name : string) (root : xml) (total idx : Z)
    (data : pyval) (image img : Image)
    (orbs : list pyval) (new_size : option (Z * Z)) (width height : Z)
    (boxes : list (F * F * F * F)) :
  load_annotations root = OK data ->
  load_image data image_dir = OK image ->
  extract_orb_annotations data = OK orbs ->
  expected_orb_count (Z.of_nat (List.length orbs)) = true ->
  scaled_size (image_size image) = OK new_size ->
  scene_image image new_size = OK img ->
  declared_size data = OK (width, height) ->
  width <> 0 -> height <> 0 ->
  float_range width = true -> float_range height = true ->
  Forall2 (fun obj b => bndbox_floats obj = OK b) orbs boxes ->
  let path := scene_path output_dir img in
  let rows := map (normalized_row path width height) boxes in
  process_images data image_dir output_dir
  = (OK rows, scene_trace img output_dir new_size) /\
  List.length rows = List.length orbs /\
  screen_step image_dir output_dir bucket total idx (name, root)
  = (OK tt,
     [EvPrint name] ++ (if idx mod 100 =? 0 then [EvLog idx total] else [])
     ++ scene_trace img output_dir new_size
     ++ map (fun b => EvCsvRow
                        (normalized_csv_row (gcs_path output_dir bucket path)
                           width height b)) boxes).
Proof.
  intros Hroot Hi Ho Hc Hs Himg Hd Hw Hh Rw Rh Hall path rows.
  assert (Hrun : process_images data image_dir output_dir
                 = (OK rows, scene_trace img output_dir new_size)).
  { rewrite (process_images_run _ _ _ _ _ _ _ _ _ Hi Ho Hc Hs Himg Hd).
    now rewrite (scene_rows_run _ _ _ _ _ Hall Hw Hh Rw Rh). }
  split; [exact Hrun|]. split.
  - unfold rows. rewrite length_map. symmetry. exact (Forall2_length Hall).
  - rewrite (screen_step_run _ _ _ _ _ _ _ _ _ _ Hroot Hrun).
    unfold rows. rewrite map_map. do 4 f_equal.
    apply map_ext. intros b. now rewrite csv_row_of_normalized.
Qed.

(* =============================================================== *)
(** ** Only the detections named as orbs count *)

Lemma has_orb_name_named x : named x -> has_orb_name x = OK (orb_named x).
Proof. intros [s Hs]. unfold has_orb_name, orb_named. now rewrite Hs. Qed.

Lemma filter_res_named l :
  Forall named l -> filter_res has_orb_name l = OK (filter orb_named l).
Proof.
  induction 1 as [|x l Hx _ IH]; [reflexivity|].
  simpl. rewrite (has_orb_name_named x Hx), IH. simpl.
  now destruct (orb_named x).
Qed.

Lemma filter_idem {A} (f : A -> bool) l : filter f (filter f l) = filter f l.
Proof.
  induction l as [|a l IH]; [reflexivity|]. simpl.
  destruct (f a) eqn:E; simpl; [rewrite E|]; now rewrite IH.
Qed.

Lemma Forall_filter {A} (P : A -> Prop) (f : A -> bool) l :
  Forall P l -> Forall P (filter f l).
Proof.
  induction 1 as [|a l Ha _ IH]; simpl; [constructor|].
  destruct (f a); [constructor; assumption | assumption].
Qed.

Lemma process_images_ext data data' image_dir output_dir :
  load_image data image_dir = load_image data' image_dir ->
  extract_orb_annotations data = extract_orb_annotations data' ->
  getitem data "filename" = getitem data' "filename" ->
  declared_size data = declared_size data' ->
  process_images data image_dir output_dir = process_images data' image_dir output_dir.
Proof. intros H1 H2 H3 H4. unfold process_images. now rewrite H1, H2, H3, H4. Qed.

(** C9. In scene mode a record whose detections have textual names is
    read through the detections whose name contains ['orb'] only: they
    are what [extract_orb_annotations] keeps, in order; the number that is
    validated is their number; the rows returned are theirs, one each; and
    taking every other detection out of the record changes neither the
    result nor the effects of [process_images]. *)
Theorem scene_mode_reads_orb_named_detections_only
    (d : list (string * pyval)) (objs : list pyval) (image_dir output_dir : string) :
  Dict.get "object" d = Some (PList objs) ->
  Forall named objs ->
  let orbs := filter orb_named objs in
  extract_orb_annotations (PDict d) = OK orbs /\
  process_images (PDict d) image_dir output_dir
  = process_images (PDict (Dict.set "object" (PList orbs) d)) image_dir output_dir /\
  forall rows trace,
    process_images (PDict d) image_dir output_dir = (OK rows, trace) ->
    rows <> [] ->
    expected_orb_count (Z.of_nat (List.length orbs)) = true /\
    List.length rows = List.length orbs /\
    exists path width height,
      map_res (scene_row_of path width height) orbs = OK rows.
Proof.
  intros Hget Hnamed orbs.
  assert (Hext : extract_orb_annotations (PDict d) = OK orbs).
  { unfold extract_orb_annotations. simpl. rewrite Hget. simpl.
    now apply filter_res_named. }
  split; [exact Hext|]. split.
  - assert (Hother : forall k, k <> "object" ->
              getitem (PDict (Dict.set "object" (PList orbs) d)) k = getitem (PDict d) k).
    { intros k Hk. simpl. now rewrite get_set_other. }
    apply process_images_ext.
    + unfold load_image. rewrite Hother by discriminate.
      simpl py_in. unfold Dict.mem. now rewrite get_set_same, Hget.
    + rewrite Hext. unfold extract_orb_annotations. simpl.
      rewrite get_set_same. simpl.
      rewrite filter_res_named by (now apply Forall_filter).
      unfold orbs. now rewrite filter_idem.
    + now rewrite Hother by discriminate.
    + unfold declared_size. now rewrite Hother by discriminate.
  - intros rows trace Hrun Hrows.
    destruct (process_images_inv _ _ _ _ _ Hrun)
      as (image & orbs' & Hi & Ho & [[_ ->] | [Hc Hrest]]); [congruence|].
    rewrite Hext in Ho. injection Ho as <-.
    destruct Hrest as (new_size & img & width & height & _ & _ & _ & _ & Hmap).
    split; [exact Hc|]. split; [exact (map_res_length _ _ _ Hmap)|]. eauto.
Qed.

(* =============================================================== *)
(** ** The orb pipeline *)

Lemma crops_of_app (t1 t2 : list Ev) : crops_of (t1 ++ t2) = crops_of t1 ++ crops_of t2.
Proof.
  induction t1 as [|ev t1 IH]; [reflexivity|].
  destruct ev; cbn [app crops_of]; now rewrite IH.
Qed.

Lemma saved_paths_app (t1 t2 : list Ev) :
  saved_paths (t1 ++ t2) = saved_paths t1 ++ saved_paths t2.
Proof.
  induction t1 as [|ev t1 IH]; [reflexivity|].
  destruct ev; cbn [app saved_paths]; now rewrite IH.
Qed.

(** What one call of [save_orb] does, from what the codec answers. *)
Lemma save_orb_run image output_dir name b :
  save_orb image output_dir (PStr name) b
  = match orb_image image b with
    | inr orb_img => (OK tt, save_orb_trace orb_img output_dir name b)
    | inl e =>
        (raise e,
         EvCrop b :: match image_crop image b with
                     | inr _ => [EvResize (ORB_SIZE, ORB_SIZE)]
                     | inl _ => []
                     end)
    end.
Proof.
  unfold save_orb, orb_image. rewrite bind_emit.
  destruct (image_crop image b) as [e|cropped]; [reflexivity|].
  cbn [rbind]. rewrite bind_lift_OK, bind_emit.
  destruct (image_resize cropped (ORB_SIZE, ORB_SIZE)) as [e|orb_img]; [reflexivity|].
  mrun. cbn [fst snd py_path_join]. mrun. reflexivity.
Qed.

Lemma save_orb_ok image output_dir name b orb_img :
  orb_image image b = OK orb_img ->
  save_orb image output_dir (PStr name) b
  = (OK tt, save_orb_trace orb_img output_dir name b).
Proof. intros H. now rewrite save_orb_run, H. Qed.

Lemma save_orb_refused image output_dir name b e :
  orb_image image b = raise e ->
  exists t,
    save_orb image output_dir (PStr name) b = (raise e, EvCrop b :: t) /\
    crops_of t = [] /\ saved_paths t = [].
Proof.
  intros H. rewrite save_orb_run, H. eexists. split; [reflexivity|].
  now destruct (image_crop image b).
Qed.

(** Every file that [save_orb] writes is named by the directory of the
    class and the bytes of the image. *)
Lemma save_orb_saves image output_dir name b p img :
  In (EvSave p img) (snd (save_orb image output_dir (PStr name) b)) ->
  p = content_path (path_join output_dir name) (image_tobytes img).
Proof.
  rewrite save_orb_run.
  destruct (orb_image image b) as [e|orb_img]; cbn [snd save_orb_trace In].
  - destruct (image_crop image b); cbn [In];
      intros H; repeat (destruct H as [H|H]; try discriminate); contradiction.
  - intros H. repeat (destruct H as [H|H]; try discriminate); try contradiction.
    now injection H as <- <-.
Qed.

(** Lines 85 to 90 raise [OverflowError] when an operand is beyond the
    range of a double, and compute the expanded box otherwise. *)
Lemma expand_box_cases width height xmin ymin xmax ymax :
  expand_box width height xmin ymin xmax ymax
  = if box_in_range (xmin, ymin, xmax, ymax)
    then OK (expanded_box width height xmin ymin xmax ymax)
    else raise OverflowError.
Proof.
  unfold expand_box, box_in_range, expanded_box, py_float_of_int.
  destruct (float_range (xmax - xmin)); [|reflexivity].
  destruct (float_range (ymax - ymin)); [|reflexivity].
  destruct (float_range xmin); [|reflexivity].
  destruct (float_range xmax); [|reflexivity].
  destruct (float_range ymin); [|reflexivity].
  destruct (float_range ymax); reflexivity.
Qed.

Lemma expand_box_in_range width height xmin ymin xmax ymax :
  box_in_range (xmin, ymin, xmax, ymax) = true ->
  expand_box width height xmin ymin xmax ymax
  = OK (expanded_box width height xmin ymin xmax ymax).
Proof. intros H. now rewrite expand_box_cases, H. Qed.

Lemma exact_box_in_range xmin ymin xmax ymax :
  0 <= xmin <= xmax -> xmax < 2 ^ 53 -> 0 <= ymin <= ymax -> ymax < 2 ^ 53 ->
  box_in_range (xmin, ymin, xmax, ymax) = true.
Proof.
  intros Hx Hxm Hy Hym. unfold box_in_range.
  rewrite !exact_in_range by lia. reflexivity.
Qed.

(** The body of the loop of [process_orbs] is two calls of [save_orb]. *)
Lemma process_orb_run image output_dir obj name box :
  getitem obj "name" = OK (PStr name) ->
  bndbox_ints obj = OK box ->
  box_in_range box = true ->
  process_orb image output_dir obj
  = for_each (orb_boxes (image_size image) (name, box)) (save_job image output_dir).
Proof.
  destruct box as [[[xmin ymin] xmax] ymax]. intros Hn Hb Hr. unfold process_orb.
  destruct (image_size image) as [image_width image_height].
  rewrite Hn, bind_lift_OK, Hb, bind_lift_OK. cbv beta iota.
  rewrite (expand_box_in_range _ _ _ _ _ _ Hr), bind_lift_OK.
  cbn [orb_boxes for_each fst snd]. unfold save_job. cbn [fst snd].
  now rewrite bind_ret_r.
Qed.

Lemma for_each_process_orb image output_dir orbs jobs :
  Forall2 (fun obj job =>
             getitem obj "name" = OK (PStr (fst job)) /\
             bndbox_ints obj = OK (snd job) /\ box_in_range (snd job) = true)
          orbs jobs ->
  for_each orbs (process_orb image output_dir)
  = for_each (flat_map (orb_boxes (image_size image)) jobs) (save_job image output_dir).
Proof.
  induction 1 as [|obj [name box] orbs jobs (Hn & Hb & Hr) _ IH]; [reflexivity|].
  cbn [for_each flat_map fst snd] in *.
  now rewrite for_each_app, (process_orb_run _ _ _ _ _ Hn Hb Hr), IH.
Qed.

(** A run of [save_orb] over a list of boxes asks for the crops in order,
    without leaving one out, up to the first that the codec refuses. *)
Lemma save_jobs_prefix image output_dir (jobs : list (string * box F)) :
  exists rest,
    map snd jobs = crops_of (snd (for_each jobs (save_job image output_dir))) ++ rest.
Proof.
  induction jobs as [|[name b] jobs [rest IH]]; [now exists []|].
  cbn [for_each map snd]. unfold save_job at 1. cbn [fst snd].
  rewrite save_orb_run. destruct (orb_image image b) as [e|orb_img].
  - exists (map snd jobs). rewrite (bind_fail _ _ _ _ eq_refl). cbn [snd crops_of].
    now destruct (image_crop image b).
  - exists rest. rewrite (bind_run _ _ _ _ eq_refl). cbn [snd].
    rewrite crops_of_app. cbn [save_orb_trace crops_of app]. now rewrite IH at 1.
Qed.

Lemma save_jobs_accepted image output_dir (jobs : list (string * box F)) :
  (forall nb, In nb jobs -> exists img, orb_image image (snd nb) = OK img) ->
  let run := for_each jobs (save_job image output_dir) in
  fst run = OK tt /\ crops_of (snd run) = map snd jobs /\
  List.length (saved_paths (snd run)) = List.length jobs.
Proof.
  induction jobs as [|[name b] jobs IH]; intros Hall; [now repeat split|].
  destruct (Hall (name, b) (or_introl eq_refl)) as [img Himg]. cbn [snd] in Himg.
  destruct IH as (I1 & I2 & I3); [intros nb Hin; apply Hall; now right|].
  cbv zeta in *. cbn [for_each]. unfold save_job at 1 3 5. cbn [fst snd].
  rewrite (bind_run _ _ _ _ (save_orb_ok _ _ _ _ _ Himg)). cbn [fst snd].
  rewrite crops_of_app, saved_paths_app, length_app.
  cbn [save_orb_trace crops_of saved_paths app List.length map snd].
  now rewrite I1, I2, I3.
Qed.

Lemma save_jobs_refused image output_dir (jobs : list (string * box F)) e :
  let run := for_each jobs (save_job image output_dir) in
  fst run = raise e ->
  exists done nb rest,
    jobs = done ++ nb :: rest /\
    (forall nb', In nb' done -> exists img, orb_image image (snd nb') = OK img) /\
    orb_image image (snd nb) = raise e /\
    crops_of (snd run) = map snd done ++ [snd nb] /\
    List.length (saved_paths (snd run)) = List.length done.
Proof.
  induction jobs as [|[name b] jobs IH]; cbv zeta in *; [discriminate|].
  cbn [for_each]. unfold save_job at 1 3 5. cbn [fst snd].
  destruct (orb_image image b) as [e'|img] eqn:Himg.
  - destruct (save_orb_refused _ output_dir name _ _ Himg) as (t & Hrun & Hc & Hs).
    rewrite (bind_fail _ _ _ _ Hrun). cbn [fst snd]. intros [= <-].
    exists [], (name, b), jobs. repeat split; try assumption.
    + intros nb' [].
    + cbn [crops_of map app snd]. now rewrite Hc.
    + cbn [saved_paths]. now rewrite Hs.
  - rewrite (bind_run _ _ _ _ (save_orb_ok _ _ _ _ _ Himg)). cbn [fst snd].
    intros Hfail. destruct (IH Hfail) as (done & nb & rest & -> & Hdone & Hnb & Hc & Hs).
    exists ((name, b) :: done), nb, rest. repeat split; try assumption.
    + intros nb' [<- | Hin]; [cbn [snd]; eauto | now apply Hdone].
    + rewrite crops_of_app. cbn [save_orb_trace crops_of app map snd]. now rewrite Hc.
    + rewrite saved_paths_app, length_app.
      cbn [save_orb_trace saved_paths List.length]. now rewrite Hs.
Qed.

(** C8, as the code has it. [process_orbs] has no test on the extent of a
    box. For a record whose image is loaded and whose orb detections have
    a textual name and an integer box (within the range of a double), it
    hands the boxes to the codec in order, the annotated box and then the
    expanded box of each detection as computed, and leaves none out: the
    crops asked for are a first part of that list. When the codec returns
    an image for every box, whatever its extent, every box is cropped and
    written and nothing is raised. When [process_orbs] raises, the
    exception is the one that the codec raised at the first box it
    refused; the boxes before it are written, the boxes after it are not
    asked for. *)
Theorem process_orbs_crops_every_box
    (data : pyval) (image_dir output_dir : string) (image : Image)
    (orbs : list pyval) (jobs : list (string * (Z * Z * Z * Z))) :
  load_image data image_dir = OK image ->
  extract_orb_annotations data = OK orbs ->
  Forall2 (fun obj job =>
             getitem obj "name" = OK (PStr (fst job)) /\
             bndbox_ints obj = OK (snd job) /\ box_in_range (snd job) = true)
          orbs jobs ->
  let boxes := map snd (flat_map (orb_boxes (image_size image)) jobs) in
  let run := process_orbs data image_dir output_dir in
  (exists rest, boxes = crops_of (snd run) ++ rest) /\
  ((forall b, In b boxes -> exists img, orb_image image b = OK img) ->
   fst run = OK tt /\ crops_of (snd run) = boxes /\
   List.length (saved_paths (snd run)) = List.length boxes) /\
  (forall e, fst run = raise e ->
   exists done b rest,
     boxes = done ++ b :: rest /\
     (forall b', In b' done -> exists img, orb_image image b' = OK img) /\
     orb_image image b = raise e /\
     crops_of (snd run) = done ++ [b] /\
     List.length (saved_paths (snd run)) = List.length done).
Proof.
  intros Hi Ho Hall boxes run.
  assert (Hrun : run = for_each (flat_map (orb_boxes (image_size image)) jobs)
                         (save_job image output_dir)).
  { unfold run, process_orbs. rewrite Hi, bind_lift_OK, Ho, bind_lift_OK.
    now apply for_each_process_orb. }
  rewrite Hrun. unfold boxes. clear. set (l := flat_map _ jobs). clearbody l.
  split; [apply save_jobs_prefix|]. split.
  - intros Hok.
    destruct (save_jobs_accepted image output_dir l) as (H1 & H2 & H3).
    { intros nb Hin. apply Hok. now apply in_map. }
    now rewrite length_map.
  - intros e Hfail.
    destruct (save_jobs_refused image output_dir l e Hfail)
      as (done & nb & rest & -> & Hdone & Hnb & Hc & Hs).
    exists (map snd done), (snd nb), (map snd rest). repeat split.
    + now rewrite map_app.
    + intros b' Hin. apply in_map_iff in Hin as (nb' & <- & Hin). now apply Hdone.
    + exact Hnb.
    + exact Hc.
    + now rewrite length_map.
Qed.

(* =============================================================== *)
(** ** Where the written files go *)

Lemma process_images_saves data image_dir output_dir p img :
  In (EvSave p img) (snd (process_images data image_dir output_dir)) ->
  p = content_path (path_join output_dir "corrected_images") (image_tobytes img).
Proof.
  destruct (load_image data image_dir) as [e|image] eqn:Hi.
  { unfold process_images. rewrite Hi. intros []. }
  destruct (extract_orb_annotations data) as [e|orbs] eqn:Ho.
  { unfold process_images. rewrite Hi, bind_lift_OK, Ho. intros []. }
  destruct (load_image_filename _ _ _ Hi) as [fname Hn].
  destruct (expected_orb_count (Z.of_nat (List.length orbs))) eqn:Hc.
  - destruct (scaled_size (image_size image)) as [e|new_size] eqn:Hs.
    { unfold process_images. rewrite Hi, bind_lift_OK, Ho, bind_lift_OK, Hc.
      simpl negb. cbv iota. rewrite Hs. intros []. }
    rewrite (process_images_accepted _ _ _ _ _ _ Hi Ho Hc Hs).
    destruct (scene_image image new_size) as [e|scene]; cbn [snd].
    + destruct new_size; cbn [resize_trace In]; intros H;
        repeat (destruct H as [H|H]; try discriminate); contradiction.
    + unfold scene_trace. intros H. apply in_app_or in H as [H|H].
      * destruct new_size; cbn [resize_trace In] in H;
          repeat (destruct H as [H|H]; try discriminate); contradiction.
      * repeat (destruct H as [H|H]; try discriminate); try contradiction.
        now injection H as <- <-.
  - rewrite (process_images_skip _ _ _ _ _ _ Hi Ho Hn Hc). cbn [snd In].
    intros [H|[]]. discriminate.
Qed.

(** C10. The path of every written image is computed from the directory
    it goes to, the class label and the bytes of the resampled image
    alone: every file that [save_orb] writes goes to
    [output_dir/label/md5(bytes).png], and when the codec returns the
    resampled crop that file is the only one it writes; [process_images]
    writes to [output_dir/corrected_images/md5(bytes).png]. Hence two crops
    whose resampled bytes are equal go to the same path, whatever the
    images and the boxes they come from (one run or several), and both
    crops of one detection are written to a single path when their bytes
    coincide. *)
Theorem written_path_is_content_addressed :
  (forall image output_dir name b p img,
     In (EvSave p img) (snd (save_orb image output_dir (PStr name) b)) ->
     p = content_path (path_join output_dir name) (image_tobytes img)) /\
  (forall image output_dir name b orb_img,
     orb_image image b = OK orb_img ->
     saved_paths (snd (save_orb image output_dir (PStr name) b))
     = [content_path (path_join output_dir name) (image_tobytes orb_img)]) /\
  (forall image1 image2 output_dir name b1 b2 img1 img2,
     orb_image image1 b1 = OK img1 ->
     orb_image image2 b2 = OK img2 ->
     image_tobytes img1 = image_tobytes img2 ->
     saved_paths (snd (save_orb image1 output_dir (PStr name) b1))
     = saved_paths (snd (save_orb image2 output_dir (PStr name) b2))) /\
  (forall image output_dir obj name xmin ymin xmax ymax expanded img1 img2,
     getitem obj "name" = OK (PStr name) ->
     bndbox_ints obj = OK (xmin, ymin, xmax, ymax) ->
     expand_box (fst (image_size image)) (snd (image_size image)) xmin ymin xmax ymax
     = OK expanded ->
     orb_image image (tight_box xmin ymin xmax ymax) = OK img1 ->
     orb_image image expanded = OK img2 ->
     image_tobytes img1 = image_tobytes img2 ->
     exists p, saved_paths (snd (process_orb image output_dir obj)) = [p; p]) /\
  (forall data image_dir output_dir p img,
     In (EvSave p img) (snd (process_images data image_dir output_dir)) ->
     p = content_path (path_join output_dir "corrected_images") (image_tobytes img)).
Proof.
  split; [|split; [|split; [|split]]].
  - apply save_orb_saves.
  - intros image output_dir name b orb_img H. now rewrite (save_orb_ok _ _ _ _ _ H).
  - intros image1 image2 output_dir name b1 b2 img1 img2 H1 H2 Hbytes.
    rewrite (save_orb_ok _ _ _ _ _ H1), (save_orb_ok _ _ _ _ _ H2).
    cbn [snd save_orb_trace saved_paths]. now rewrite Hbytes.
  - intros image output_dir obj name xmin ymin xmax ymax expanded img1 img2
      Hn Hb He H1 H2 Hbytes.
    unfold process_orb. destruct (image_size image) as [w h]. cbn [fst snd] in He.
    rewrite Hn, bind_lift_OK, Hb, bind_lift_OK. cbv beta iota.
    rewrite He, bind_lift_OK, (bind_run _ _ _ _ (save_orb_ok _ _ _ _ _ H1)).
    rewrite (save_orb_ok _ _ _ _ _ H2).
    cbn [snd save_orb_trace saved_paths app]. rewrite Hbytes. eauto.
  - apply process_images_saves.
Qed.

(* =============================================================== *)
(** ** Geometry, for an arithmetic with monotone rounding *)

Section Geometry.
Context {laws : PyFloatOrder F}.

Lemma exact_int_range a b : 0 <= a <= b -> b < 2 ^ 53 -> exact_int a.
Proof. unfold exact_int. lia. Qed.

Lemma fleb_int a b : 0 <= a <= b -> b < 2 ^ 53 -> fleb (of_int a) (of_int b) = true.
Proof. intros. apply fleb_of_int; unfold exact_int; lia. Qed.

Lemma py_max0_nonneg v : fleb (of_int 0) (py_max0 v) = true.
Proof.
  unfold py_max0. destruct (fltb (of_int 0) v) eqn:E.
  - now apply fltb_fleb.
  - apply fleb_int; [lia | reflexivity].
Qed.

Lemma py_max0_le v a :
  0 <= a < 2 ^ 53 -> fleb v (of_int a) = true -> fleb (py_max0 v) (of_int a) = true.
Proof.
  intros Ha Hv. unfold py_max0. destruct (fltb (of_int 0) v); [exact Hv|].
  apply fleb_int; lia.
Qed.

Lemma py_min_le a v : 0 <= a < 2 ^ 53 -> fleb (py_min a v) (of_int a) = true.
Proof.
  intros Ha. unfold py_min. destruct (fltb v (of_int a)) eqn:E.
  - now apply fltb_fleb.
  - apply fleb_int; lia.
Qed.

Lemma py_min_ge a v b :
  0 <= b <= a -> a < 2 ^ 53 ->
  fleb (of_int b) v = true -> fleb (of_int b) (py_min a v) = true.
Proof.
  intros Hb Ha Hv. unfold py_min. destruct (fltb v (of_int a)); [exact Hv|].
  apply fleb_int; lia.
Qed.

(** Along one axis: the expanded interval contains the annotated one and
    stays within [[0, dim]]. *)
Lemma expanded_axis lo hi dim :
  0 <= lo <= hi -> hi <= dim -> dim < 2 ^ 53 ->
  let offset := fmul ORB_EXPANSION_PCT (of_int (hi - lo)) in
  let lo' := py_max0 (fsub (of_int lo) offset) in
  let hi' := py_min dim (fadd (of_int hi) offset) in
  fleb lo' (of_int lo) = true /\ fleb (of_int hi) hi' = true /\
  between 0 dim lo' = true /\ between 0 dim hi' = true.
Proof.
  intros Hlo Hhi Hdim offset lo' hi'.
  assert (Hoff : fleb (of_int 0) offset = true).
  { apply tenth_mul_nonneg. unfold exact_int. lia. }
  assert (H1 : fleb lo' (of_int lo) = true).
  { apply py_max0_le; [lia|]. apply fsub_le; [|exact Hoff]. unfold exact_int. lia. }
  assert (H2 : fleb (of_int hi) hi' = true).
  { apply py_min_ge; [lia | lia |]. apply fadd_ge; [|exact Hoff]. unfold exact_int. lia. }
  split; [exact H1|]. split; [exact H2|]. unfold between.
  rewrite (py_max0_nonneg _ : fleb (of_int 0) lo' = true).
  rewrite (py_min_le dim _ ltac:(lia) : fleb hi' (of_int dim) = true).
  rewrite (fleb_trans _ _ _ H1 (fleb_int lo dim ltac:(lia) Hdim)).
  rewrite (fleb_trans _ _ _ (fleb_int 0 hi ltac:(lia) ltac:(lia)) H2).
  now split.
Qed.

Lemma tight_box_within width height xmin ymin xmax ymax :
  0 <= xmin <= xmax -> xmax <= width -> width < 2 ^ 53 ->
  0 <= ymin <= ymax -> ymax <= height -> height < 2 ^ 53 ->
  box_within width height (tight_box xmin ymin xmax ymax) = true.
Proof.
  intros. unfold box_within, between, tight_box. cbn [bxmin bymin bxmax bymax].
  rewrite !fleb_int by lia. reflexivity.
Qed.

Lemma save_orb_crops image output_dir name b :
  crops_of (snd (save_orb image output_dir (PStr name) b)) = [b].
Proof.
  rewrite save_orb_run. destruct (orb_image image b); [|reflexivity].
  cbn [snd crops_of]. now destruct (image_crop image b).
Qed.

(** C3, as the code has it. For an orb detection whose box is well
    formed and lies within the image ([0 <= xmin <= xmax <= width] and
    [0 <= ymin <= ymax <= height], dimensions below [2^53]), the orb
    pipeline crops the annotated box and, once the codec has returned
    that crop and it is saved, the expanded box; the expanded one contains
    the annotated one and both lie within [[0, width] x [0, height]]. (The
    annotated box is cropped as it is, never clamped.) The arithmetic is
    any that has monotone rounding, in particular binary64. *)
Theorem expanded_crop_contains_tight_crop
    (image : Image) (output_dir : string) (obj : pyval) (name : string)
    (width height xmin ymin xmax ymax : Z) :
  image_size image = (width, height) ->
  width < 2 ^ 53 -> height < 2 ^ 53 ->
  getitem obj "name" = OK (PStr name) ->
  bndbox_ints obj = OK (xmin, ymin, xmax, ymax) ->
  0 <= xmin <= xmax -> xmax <= width ->
  0 <= ymin <= ymax -> ymax <= height ->
  exists tight expanded,
    tight = tight_box xmin ymin xmax ymax /\
    expand_box width height xmin ymin xmax ymax = OK expanded /\
    crops_of (snd (process_orb image output_dir obj))
    = tight :: (if succeeded (save_orb image output_dir (PStr name) tight)
                then [expanded] else []) /\
    box_contains expanded tight = true /\
    box_within width height tight = true /\
    box_within width height expanded = true.
Proof.
  intros Hsize Hw Hh Hn Hb Hx Hxw Hy Hyh.
  exists (tight_box xmin ymin xmax ymax),
         (expanded_box width height xmin ymin xmax ymax).
  assert (Hr : box_in_range (xmin, ymin, xmax, ymax) = true)
    by (apply exact_box_in_range; lia).
  split; [reflexivity|]. split; [now apply expand_box_in_range|]. split.
  { rewrite (process_orb_run _ _ _ _ _ Hn Hb Hr), Hsize.
    cbn [orb_boxes for_each fst snd]. unfold save_job. cbn [fst snd].
    rewrite bind_ret_r. unfold succeeded.
    pose proof (save_orb_crops image output_dir name (tight_box xmin ymin xmax ymax))
      as Hc.
    destruct (save_orb image output_dir (PStr name) (tight_box xmin ymin xmax ymax))
      as [[e|[]] t]; cbn [fst snd] in *.
    - rewrite (bind_fail _ _ _ _ eq_refl). cbn [snd]. now rewrite Hc.
    - rewrite (bind_run _ _ _ _ eq_refl). cbn [snd].
      now rewrite crops_of_app, Hc, save_orb_crops. }
  destruct (expanded_axis xmin xmax width Hx Hxw Hw) as (X1 & X2 & X3 & X4).
  destruct (expanded_axis ymin ymax height Hy Hyh Hh) as (Y1 & Y2 & Y3 & Y4).
  cbv zeta in X1, X2, X3, X4, Y1, Y2, Y3, Y4.
  split; [|split].
  - unfold box_contains, expanded_box, tight_box. cbn [bxmin bymin bxmax bymax].
    now rewrite X1, X2, Y1, Y2.
  - apply tight_box_within; assumption.
  - unfold box_within, expanded_box. cbn [bxmin bymin bxmax bymax].
    now rewrite X3, X4, Y3, Y4.
Qed.

(** A coordinate that [int] reads within [[0, dim]], read by [float] and
    divided by [dim], lies in [[0, 1]]. *)
Lemma int_coordinate v z dim :
  py_int v = OK z -> 0 <= z <= dim -> 0 < dim < 2 ^ 53 ->
  exists x, py_float v = OK x /\ between 0 1 (fdiv x (of_int dim)) = true.
Proof.
  intros Hv Hz Hd. destruct (py_int_float v z Hv) as (neg & m & Hm & Ez & Hf).
  assert (Ed : exact_int dim) by (unfold exact_int; lia).
  exists (of_decimal neg m 0). split; [exact Hf|]. unfold between. destruct neg.
  - assert (m = 0) by lia. subst m.
    destruct (neg_zero_unit dim (proj1 Hd) Ed) as [A B]. now rewrite A, B.
  - subst z. rewrite (of_decimal_nat m Hm).
    destruct (fdiv_unit m dim Hz (proj1 Hd) Ed) as [A B]. now rewrite A, B.
Qed.

(** C7, as the code has it. For positive declared dimensions below
    [2^53] and a detection whose box lies within them
    ([0 <= xmin, xmax <= width] and [0 <= ymin, ymax <= height]), the four
    coordinates of the row lie in [[0, 1]]. (Nothing clamps a box that runs
    past the declared size.) The arithmetic is any that has monotone
    rounding, in particular binary64. *)
Theorem normalized_box_in_unit_square
    (path : string) (width height : Z) (obj : pyval) (xmin ymin xmax ymax : Z) :
  bndbox_ints obj = OK (xmin, ymin, xmax, ymax) ->
  0 < width < 2 ^ 53 -> 0 < height < 2 ^ 53 ->
  0 <= xmin <= width -> 0 <= xmax <= width ->
  0 <= ymin <= height -> 0 <= ymax <= height ->
  exists row,
    scene_row_of path width height obj = OK row /\
    row_in_unit_square row = true.
Proof.
  intros Hb Hw Hh Hx1 Hx2 Hy1 Hy2.
  destruct (bndbox_ints_inv _ _ _ _ _ Hb)
    as (bb & v1 & v2 & v3 & v4 & Hbb & G1 & I1 & G2 & I2 & G3 & I3 & G4 & I4).
  destruct (int_coordinate v1 xmin width I1 Hx1 Hw) as (x1 & F1 & B1).
  destruct (int_coordinate v2 ymin height I2 Hy1 Hh) as (y1 & F2 & B2).
  destruct (int_coordinate v3 xmax width I3 Hx2 Hw) as (x2 & F3 & B3).
  destruct (int_coordinate v4 ymax height I4 Hy2 Hh) as (y2 & F4 & B4).
  assert (Rw : float_range width = true) by (apply exact_in_range; lia).
  assert (Rh : float_range height = true) by (apply exact_in_range; lia).
  assert (Nw : width <> 0) by lia. assert (Nh : height <> 0) by lia.
  eexists. split.
  - unfold scene_row_of.
    rewrite (bndbox_coord_run _ _ _ _ _ _ Hbb G1 F1 Nw Rw).
    rewrite (bndbox_coord_run _ _ _ _ _ _ Hbb G2 F2 Nh Rh).
    rewrite (bndbox_coord_run _ _ _ _ _ _ Hbb G3 F3 Nw Rw).
    rewrite (bndbox_coord_run _ _ _ _ _ _ Hbb G4 F4 Nh Rh).
    reflexivity.
  - unfold row_in_unit_square. cbn [row_xmin row_ymin row_xmax row_ymax].
    now rewrite B1, B2, B3, B4.
Qed.

End Geometry.

End Properties.

(* ================================================================= *)
(** ** Exact arithmetic has monotone rounding *)

Module ExactFacts.
Import Exact.

Lemma leb_le x y : Qle_bool x y = true <-> (x <= y)%Q.
Proof. apply Qle_bool_iff. Qed.

Lemma inject_nonneg z : 0 <= z -> (0 <= inject_Z z)%Q.
Proof. intros Hz. change 0%Q with (inject_Z 0). now rewrite <- Zle_Qle. Qed.

#[global] Instance exact_order : PyFloatOrder Q.
Proof.
  constructor; cbn [of_int of_decimal fadd fsub fmul fdiv fltb fleb tenth exact].
  - intros m _. unfold of_dec. change (0 <=? 0) with true. cbv iota.
    now rewrite Z.pow_0_r, Z.mul_1_r.
  - intros b Hb _. change (of_dec true 0 0) with (inject_Z 0).
    assert (Hb' : (0 < inject_Z b)%Q)
      by (change 0%Q with (inject_Z 0); now rewrite <- Zlt_Qlt).
    split; apply leb_le; rewrite Qred_correct.
    + apply Qle_shift_div_l; [exact Hb'|]. rewrite Qmult_0_l. now apply inject_nonneg.
    + apply Qle_shift_div_r; [exact Hb'|]. rewrite Qmult_1_l. rewrite <- Zle_Qle. lia.
  - intros a b _ _ Hab. apply leb_le. now rewrite <- Zle_Qle.
  - intros x y H. apply negb_true_iff in H. apply leb_le.
    destruct (Qlt_le_dec x y) as [Hlt|Hle]; [now apply Qlt_le_weak|].
    apply leb_le in Hle. congruence.
  - intros x y z Hxy Hyz. apply leb_le in Hxy, Hyz. apply leb_le.
    now apply Qle_trans with y.
  - intros d [Hd _]. apply leb_le. rewrite Qred_correct.
    apply Qmult_le_0_compat; [discriminate|]. now apply inject_nonneg.
  - intros a o _ Ho. apply leb_le in Ho. apply leb_le. rewrite Qred_correct.
    change (inject_Z 0) with 0%Q in Ho. lra.
  - intros a o _ Ho. apply leb_le in Ho. apply leb_le. rewrite Qred_correct.
    change (inject_Z 0) with 0%Q in Ho. lra.
  - intros a b [Ha Hab] Hb _.
    assert (Hb' : (0 < inject_Z b)%Q)
      by (change 0%Q with (inject_Z 0); now rewrite <- Zlt_Qlt).
    split; apply leb_le; rewrite Qred_correct.
    + apply Qle_shift_div_l; [exact Hb'|]. rewrite Qmult_0_l. now apply inject_nonneg.
    + apply Qle_shift_div_r; [exact Hb'|]. rewrite Qmult_1_l. now rewrite <- Zle_Qle.
Qed.

End ExactFacts.

(* ================================================================= *)
(** ** Binary64 has monotone rounding *)

(** The rounding of [SpecFloat]: what [binary_round_aux] returns, the order
    of canonical floats, and from them the order facts about the sum, the
    difference, the product and the quotient that the geometry uses. *)
Module RoundingFacts.
Import Rounding.

(** *** Digits *)

Lemma digits2_size p : digits2_pos p = Pos.size p.
Proof. induction p; simpl; congruence. Qed.

Lemma dig_bounds p : 2 ^ (dig p - 1) <= Z.pos p < 2 ^ dig p.
Proof.
  unfold dig. rewrite digits2_size. split.
  - pose proof (Pos.size_le p) as H.
    assert (H' : Z.pos (2 ^ Pos.size p) <= Z.pos p~0) by exact H.
    rewrite Pos2Z.inj_pow, Pos2Z.inj_xO in H'.
    assert (E : 2 ^ Z.pos (Pos.size p) = 2 * 2 ^ (Z.pos (Pos.size p) - 1)).
    { rewrite <- Z.pow_succ_r by lia. f_equal. lia. }
    change (Z.pos 2) with 2 in H'. lia.
  - pose proof (Pos.size_gt p) as H.
    assert (H' : Z.pos p < Z.pos (2 ^ Pos.size p)) by exact H.
    now rewrite Pos2Z.inj_pow in H'.
Qed.

Lemma dig_pos p : 1 <= dig p.
Proof. unfold dig. lia. Qed.

Lemma dig_unique p d : 2 ^ (d - 1) <= Z.pos p < 2 ^ d -> dig p = d.
Proof.
  intros [Hl Hu]. pose proof (dig_bounds p) as [Hl' Hu']. pose proof (dig_pos p).
  assert (Hd : 0 <= d).
  { destruct (Z.lt_ge_cases d 0) as [Hn|]; [|assumption].
    rewrite (Z.pow_neg_r 2 d Hn) in Hu. lia. }
  destruct (Z.lt_trichotomy (dig p) d) as [Hlt|[Heq|Hgt]]; [|exact Heq|].
  - assert (2 ^ dig p <= 2 ^ (d - 1)) by (apply Z.pow_le_mono_r; lia). lia.
  - assert (2 ^ d <= 2 ^ (dig p - 1)) by (apply Z.pow_le_mono_r; lia). lia.
Qed.

(** *** Shifting right *)

Lemma iter_pos_nat {A} (f : A -> A) p x :
  iter_pos f p x = Nat.iter (Pos.to_nat p) f x.
Proof.
  revert x. induction p as [p IH|p IH|]; intros x; cbn [iter_pos].
  - rewrite !IH. rewrite Pos2Nat.inj_xI.
    replace (S (2 * Pos.to_nat p))%nat with (Pos.to_nat p + (Pos.to_nat p + 1))%nat by lia.
    rewrite !Nat.iter_add. simpl. reflexivity.
  - rewrite !IH. rewrite Pos2Nat.inj_xO.
    replace (2 * Pos.to_nat p)%nat with (Pos.to_nat p + Pos.to_nat p)%nat by lia.
    now rewrite Nat.iter_add.
  - reflexivity.
Qed.

Lemma div2_xI p : Z.pos p~1 / 2 = Z.pos p.
Proof. symmetry. apply (Z.div_unique_pos _ _ _ 1); lia. Qed.

Lemma div2_xO p : Z.pos p~0 / 2 = Z.pos p.
Proof. symmetry. apply (Z.div_unique_pos _ _ _ 0); lia. Qed.

Lemma mod2_xO p : Z.pos p~0 mod 2 = 0.
Proof. symmetry. apply (Z.mod_unique_pos _ _ (Z.pos p)); lia. Qed.

Lemma shr_1_spec m r s :
  0 <= m ->
  shr_m (shr_1 (Build_shr_record m r s)) = m / 2 /\
  (m mod 2 = 0 -> r = false -> s = false ->
   exact_rec (shr_1 (Build_shr_record m r s)) = true).
Proof.
  intros Hm. destruct m as [|p|p]; [| |lia].
  - unfold exact_rec. cbn [shr_1 shr_m shr_r shr_s]. split; [reflexivity|].
    now intros _ -> ->.
  - destruct p as [p|p|]; unfold exact_rec; cbn [shr_1 shr_m shr_r shr_s].
    + split; [now rewrite div2_xI|]. intros Hev. exfalso.
      rewrite Pos2Z.inj_xI in Hev.
      rewrite Z.add_comm, Z.mul_comm, Z.mod_add in Hev by lia. discriminate.
    + split; [now rewrite div2_xO|]. now intros _ -> ->.
    + split; [reflexivity | discriminate].
Qed.

Lemma shr_m_nonneg_1 rec : 0 <= shr_m rec -> 0 <= shr_m (shr_1 rec).
Proof.
  destruct rec as [m r s]. intros Hm. cbn [shr_m] in Hm.
  destruct (shr_1_spec m r s Hm) as [E _]. rewrite E. apply Z.div_pos; lia.
Qed.

Lemma mod_pow2_succ m k :
  0 <= k -> m mod (2 * 2 ^ k) = 0 -> m mod 2 ^ k = 0 /\ (m / 2 ^ k) mod 2 = 0.
Proof.
  intros Hk H. assert (0 < 2 ^ k) by (apply Z.pow_pos_nonneg; lia).
  rewrite (Z.mul_comm 2), Z.rem_mul_r in H by lia.
  pose proof (Z.mod_pos_bound m (2 ^ k) ltac:(lia)).
  pose proof (Z.mod_pos_bound (m / 2 ^ k) 2 ltac:(lia)). nia.
Qed.

Lemma iter_shr_spec k m r s :
  0 <= m ->
  let rec := Nat.iter k shr_1 (Build_shr_record m r s) in
  shr_m rec = m / 2 ^ Z.of_nat k /\
  (m mod 2 ^ Z.of_nat k = 0 -> r = false -> s = false -> exact_rec rec = true).
Proof.
  intros Hm. induction k as [|k IH].
  - simpl. split; [now rewrite Z.div_1_r|]. now intros _ -> ->.
  - cbv zeta in *. rewrite Nat2Z.inj_succ, Z.pow_succ_r by lia.
    simpl Nat.iter. destruct IH as [IHm IHe].
    destruct (Nat.iter k shr_1 (Build_shr_record m r s)) as [mk rk sk] eqn:E.
    cbn [shr_m] in IHm. subst mk.
    assert (Hk : 0 <= m / 2 ^ Z.of_nat k) by (apply Z.div_pos; lia).
    destruct (shr_1_spec _ rk sk Hk) as [E1 E2].
    split.
    + rewrite E1. rewrite Z.div_div by lia. f_equal. lia.
    + intros Hmod Hr Hs.
      destruct (mod_pow2_succ m (Z.of_nat k) ltac:(lia) Hmod) as [Hlow Hev].
      specialize (IHe Hlow Hr Hs). unfold exact_rec in IHe. cbn [shr_r shr_s] in IHe.
      apply andb_prop in IHe. destruct IHe as [Hrk Hsk].
      apply negb_true_iff in Hrk, Hsk. now apply E2.
Qed.

(** *** The rounding step of binary64 *)

Lemma fexp64_eq e : fexp64 e = Z.max (e - 53) (-1074).
Proof. reflexivity. Qed.

Lemma shr_spec m r s e n :
  0 <= m -> 0 <= n ->
  snd (shr (Build_shr_record m r s) e n) = e + n /\
  shr_m (fst (shr (Build_shr_record m r s) e n)) = m / 2 ^ n /\
  (m mod 2 ^ n = 0 -> r = false -> s = false ->
   exact_rec (fst (shr (Build_shr_record m r s) e n)) = true).
Proof.
  intros Hm Hn.
  destruct n as [|p|p]; [| |lia].
  - cbn [shr fst snd shr_m]. rewrite Z.add_0_r, Z.pow_0_r, Z.div_1_r.
    repeat split; auto. now intros _ -> ->.
  - cbn [shr fst snd]. rewrite iter_pos_nat.
    pose proof (iter_shr_spec (Pos.to_nat p) m r s Hm) as H. cbv zeta in H.
    rewrite positive_nat_Z in H. destruct H as [H1 H2]. auto.
Qed.

Lemma shr_noop rec e n : n <= 0 -> shr rec e n = (rec, e).
Proof. destruct n; [reflexivity | lia | reflexivity]. Qed.

Lemma exact_of_loc m l : exact_rec (shr_record_of_loc m l) = true <-> l = loc_Exact.
Proof. destruct l as [|[| |]]; unfold exact_rec; simpl; split; congruence. Qed.

Lemma loc_of_exact rec : loc_of_shr_record rec = loc_Exact <-> exact_rec rec = true.
Proof. destruct rec as [m [|] [|]]; unfold exact_rec; simpl; split; congruence. Qed.

Lemma shr_m_of_loc m l : shr_m (shr_record_of_loc m l) = m.
Proof. now destruct l as [|[| |]]. Qed.

Lemma rne_cases m l :
  (round_nearest_even m l = m \/ (round_nearest_even m l = m + 1 /\ l <> loc_Exact)).
Proof.
  destruct l as [|[| |]]; simpl; auto.
  - destruct (Z.even m); [auto | right; split; [reflexivity | discriminate]].
  - right; split; [reflexivity | discriminate].
Qed.

Lemma Zdig_pos p : Zdig (Z.pos p) = dig p.
Proof. reflexivity. Qed.

Lemma pow2_pos k : 0 < 2 ^ k \/ k < 0.
Proof. destruct (Z.lt_ge_cases k 0); [now right | left; now apply Z.pow_pos_nonneg]. Qed.

Lemma pow2_gt0 k : 0 <= k -> 0 < 2 ^ k.
Proof. intros. now apply Z.pow_pos_nonneg. Qed.

Lemma pow2_add a b : 0 <= a -> 0 <= b -> 2 ^ (a + b) = 2 ^ a * 2 ^ b.
Proof. intros. now apply Z.pow_add_r. Qed.

Lemma pow2_le a b : a <= b -> 0 <= a -> 2 ^ a <= 2 ^ b.
Proof. intros. apply Z.pow_le_mono_r; lia. Qed.

Lemma first_step mx ex lx :
  0 <= mx -> 0 <= fexp64 (Zdig mx + ex) - ex ->
  exists m2 e',
    rounded mx ex lx m2 e' /\
    forall s, binary_round_aux prec emax s mx ex lx =
      let '(mrs, e'') := shr_fexp prec emax m2 e' loc_Exact in
      pack s (shr_m mrs) e''.
Proof.
  intros Hm Hn.
  set (n := fexp64 (Zdig mx + ex) - ex) in *.
  set (rec0 := shr_record_of_loc mx lx).
  assert (Hrec0 : rec0 = Build_shr_record (shr_m rec0) (shr_r rec0) (shr_s rec0))
    by now destruct rec0.
  assert (Hm0 : shr_m rec0 = mx) by apply shr_m_of_loc.
  pose proof (shr_spec (shr_m rec0) (shr_r rec0) (shr_s rec0) ex n) as Hs.
  rewrite <- Hrec0, Hm0 in Hs. destruct (Hs Hm Hn) as (He & Hsm & Hex).
  destruct (shr rec0 ex n) as [rec1 e1] eqn:Eshr. cbn [fst snd] in *.
  exists (round_nearest_even (shr_m rec1) (loc_of_shr_record rec1)), e1.
  split.
  - constructor.
    + lia.
    + unfold n in He. lia.
    + replace (e1 - ex) with n by lia. rewrite <- Hsm.
      destruct (rne_cases (shr_m rec1) (loc_of_shr_record rec1)) as [E|[E Hl]];
        [now left | right].
      split; [exact E|]. intros [Hmod Hlx]. apply Hl. apply loc_of_exact.
      apply Hex; [exact Hmod | |]; subst lx; reflexivity.
  - intros s. unfold binary_round_aux.
    change (shr_fexp prec emax mx ex lx) with (shr rec0 ex n). rewrite Eshr. reflexivity.
Qed.

Lemma canon_iff p e : canon p e <-> dig p <= 53 /\ -1074 <= e /\ (dig p = 53 \/ e = -1074).
Proof. unfold canon. rewrite fexp64_eq. pose proof (dig_pos p). lia. Qed.

Lemma valid_finite s p e :
  SpecFloat.valid_binary prec emax (S754_finite s p e) = true <-> canon p e /\ e <= 971.
Proof.
  unfold SpecFloat.valid_binary, bounded, canonical_mantissa, canon, fexp64.
  rewrite andb_true_iff, Z.eqb_eq, Z.leb_le. reflexivity.
Qed.

Lemma div_pow2_lt mx d n :
  0 <= mx < 2 ^ d -> 0 <= n -> d <= n + 53 -> mx / 2 ^ n < 2 ^ 53.
Proof.
  intros [H0 Hd] Hn Hdn.
  assert (0 < 2 ^ n) by now apply Z.pow_pos_nonneg.
  apply Z.div_lt_upper_bound; [lia|].
  rewrite <- Z.pow_add_r by lia.
  assert (2 ^ d <= 2 ^ (n + 53)); [|lia].
  destruct (Z.lt_ge_cases d 0) as [Hneg|Hpos].
  - rewrite (Z.pow_neg_r 2 d Hneg) in Hd. lia.
  - apply Z.pow_le_mono_r; lia.
Qed.

Lemma div_pow2_ge mx d :
  2 ^ (d - 1) <= mx -> 53 <= d -> 2 ^ 52 <= mx / 2 ^ (d - 53).
Proof.
  intros Hd Hn.
  assert (0 < 2 ^ (d - 53)) by (apply Z.pow_pos_nonneg; lia).
  apply Z.div_le_lower_bound; [lia|].
  rewrite <- Z.pow_add_r by lia. replace (d - 53 + 52) with (d - 1) by lia. exact Hd.
Qed.

Lemma round_desc mx ex lx :
  0 < mx -> 0 <= fexp64 (Zdig mx + ex) - ex ->
  exists m2 e' m3 e3,
    described mx ex lx m2 e' m3 e3 /\
    forall s, binary_round_aux prec emax s mx ex lx = pack s m3 e3.
Proof.
  intros Hmx Hn.
  destruct (first_step mx ex lx ltac:(lia) Hn) as (m2 & e' & Hr & Hbra).
  destruct Hr as [Hn' He' Hcases].
  destruct mx as [|px|px]; try lia.
  rewrite Zdig_pos in He'. rewrite fexp64_eq in He'.
  pose proof (dig_bounds px) as [Dl Du]. pose proof (dig_pos px) as Dp.
  set (n := e' - ex) in *.
  assert (H2n : 0 < 2 ^ n) by now apply Z.pow_pos_nonneg.
  assert (Hup : Z.pos px / 2 ^ n < 2 ^ 53).
  { apply (div_pow2_lt _ (dig px)); lia. }
  assert (Hm' : 0 <= Z.pos px / 2 ^ n) by (apply Z.div_pos; lia).
  assert (Hnorm : -1074 < e' -> 2 ^ 52 <= Z.pos px / 2 ^ n).
  { intros Hgt. assert (En : n = dig px - 53) by lia. rewrite En.
    apply div_pow2_ge; lia. }
  assert (Hm2 : 0 <= m2 <= 2 ^ 53) by (destruct Hcases as [->|[-> _]]; lia).
  assert (Hm2n : -1074 < e' -> 2 ^ 52 <= m2).
  { intros Hgt. specialize (Hnorm Hgt). destruct Hcases as [->|[-> _]]; lia. }
  destruct (Z.eq_dec m2 (2 ^ 53)) as [E53|N53].
  - (* the mantissa carried into a 54th bit *)
    exists m2, e', (2 ^ 52), (e' + 1). split.
    + constructor; try assumption; try lia.
      * constructor; assumption || (rewrite Zdig_pos, fexp64_eq; lia).
      * rewrite E53.
        replace (e' + 1 + 1074) with (1 + (e' + 1074)) by lia.
        rewrite Z.pow_add_r by lia. change (2 ^ 53) with (2 ^ 52 * 2 ^ 1). lia.
      * intros p Hp. apply canon_iff.
        assert (Dq : dig p = 53).
        { apply dig_unique. rewrite <- Hp. simpl. lia. }
        lia.
    + intros s. rewrite Hbra. unfold shr_fexp.
      rewrite E53. change (Zdigits2 (2 ^ 53)) with 54.
      fold (fexp64 (54 + e')). rewrite fexp64_eq.
      replace (Z.max (54 + e' - 53) (-1074) - e') with 1 by lia.
      reflexivity.
  - exists m2, e', m2, e'. split.
    + constructor; try assumption; try lia.
      * constructor; assumption || (rewrite Zdig_pos, fexp64_eq; lia).
      * intros p Hp. apply canon_iff.
        pose proof (dig_bounds p) as [Pl Pu]. pose proof (dig_pos p).
        assert (Dle : dig p <= 53).
        { destruct (Z.le_gt_cases (dig p) 53) as [|Hgt]; [assumption|].
          assert (2 ^ 53 <= 2 ^ (dig p - 1)) by (apply Z.pow_le_mono_r; lia). lia. }
        split; [exact Dle|]. split; [lia|].
        destruct (Z.eq_dec e' (-1074)) as [|Hne]; [now right | left].
        assert (2 ^ 52 <= Z.pos p) by (rewrite <- Hp; apply Hm2n; lia).
        destruct (Z.eq_dec (dig p) 53) as [|Hd]; [assumption|].
        assert (2 ^ dig p <= 2 ^ 52) by (apply Z.pow_le_mono_r; lia). lia.
    + intros s. rewrite Hbra. unfold shr_fexp.
      fold (fexp64 (Zdigits2 m2 + e')).
      assert (Hnoop : fexp64 (Zdigits2 m2 + e') - e' <= 0).
      { rewrite fexp64_eq. destruct m2 as [|p|p]; [simpl; lia| |lia].
        change (Zdigits2 (Z.pos p)) with (dig p).
        pose proof (dig_bounds p) as [Pl Pu]. pose proof (dig_pos p).
        assert (Dle : dig p <= 53).
        { destruct (Z.le_gt_cases (dig p) 53) as [|Hgt]; [assumption|].
          assert (2 ^ 53 <= 2 ^ (dig p - 1)) by (apply Z.pow_le_mono_r; lia). lia. }
        lia. }
      rewrite (shr_noop _ _ _ Hnoop). reflexivity.
Qed.

(** *** Order of canonical floats *)

Lemma leb_finite_pos m1 e1 m2 e2 :
  SFleb (S754_finite false m1 e1) (S754_finite false m2 e2) = true <->
  e1 < e2 \/ (e1 = e2 /\ (m1 <= m2)%positive).
Proof.
  unfold SFleb, SFcompare. fold (Pos.compare m1 m2).
  destruct (Z.compare_spec e1 e2) as [E|E|E].
  - destruct (Pos.compare_spec m1 m2) as [H|H|H]; split; intros; try lia; try discriminate;
      try reflexivity.
  - split; [lia | reflexivity].
  - split; [discriminate | lia].
Qed.

Lemma canon_lt53 p e : canon p e -> Z.pos p < 2 ^ 53.
Proof.
  intros H. apply canon_iff in H. pose proof (dig_bounds p) as [_ Hu].
  assert (2 ^ dig p <= 2 ^ 53) by (apply Z.pow_le_mono_r; lia). lia.
Qed.

Lemma canon_normal p e : canon p e -> -1074 < e -> 2 ^ 52 <= Z.pos p.
Proof.
  intros H Hn. apply canon_iff in H. pose proof (dig_bounds p) as [Hl _].
  assert (E : dig p = 53) by lia. now rewrite E in Hl.
Qed.

Lemma value_order p1 e1 p2 e2 :
  canon p1 e1 -> canon p2 e2 ->
  Z.pos p1 * 2 ^ (e1 + 1074) <= Z.pos p2 * 2 ^ (e2 + 1074) ->
  e1 < e2 \/ (e1 = e2 /\ (p1 <= p2)%positive).
Proof.
  intros C1 C2 Hv.
  pose proof (proj1 (canon_iff _ _) C1) as (_ & L1 & _).
  pose proof (proj1 (canon_iff _ _) C2) as (_ & L2 & _).
  destruct (Z.lt_trichotomy e1 e2) as [Hlt|[Heq|Hgt]]; [now left | right | exfalso].
  - split; [exact Heq|]. subst e2.
    assert (0 < 2 ^ (e1 + 1074)) by (apply Z.pow_pos_nonneg; lia).
    change (Z.pos p1 <= Z.pos p2). nia.
  - pose proof (canon_normal _ _ C1 ltac:(lia)) as N1.
    pose proof (canon_lt53 _ _ C2) as U2.
    assert (0 < 2 ^ (e2 + 1074)) by (apply Z.pow_pos_nonneg; lia).
    assert (Hp : 2 ^ (e1 + 1074) = 2 ^ (e1 - e2) * 2 ^ (e2 + 1074)).
    { rewrite <- Z.pow_add_r by lia. f_equal. lia. }
    assert (2 ^ 1 <= 2 ^ (e1 - e2)) by (apply Z.pow_le_mono_r; lia).
    change (2 ^ 1) with 2 in *. change (2 ^ 53) with (2 * 2 ^ 52) in U2.
    rewrite Hp in Hv. nia.
Qed.

Lemma inexact_pos l : l <> loc_Exact -> inexact l = 1.
Proof. destruct l; [congruence | reflexivity]. Qed.

Lemma inexact_range l : 0 <= inexact l <= 1.
Proof. destruct l; simpl; lia. Qed.

Lemma below_core mx m' r N P i T :
  0 < N -> 0 < P -> mx = N * m' + r -> 0 <= r < N -> 0 <= i ->
  (mx + i) * P <= T ->
  m' * (N * P) <= T /\ (r <> 0 \/ i = 1 -> m' * (N * P) < T).
Proof. intros. split; [nia|]. intros [|]; nia. Qed.

Lemma above_core mx m' r N P T :
  0 < N -> 0 < P -> mx = N * m' + r -> 0 <= r < N ->
  T <= mx * P ->
  T < (m' + 1) * (N * P) /\ (r = 0 -> T <= m' * (N * P)).
Proof. intros. split; [nia|]. intros ->. nia. Qed.

Lemma multiple_up m' k Q : 0 < Q -> m' * Q < k * Q -> (m' + 1) * Q <= k * Q.
Proof. intros. assert (m' < k) by nia. nia. Qed.

Lemma multiple_down m' k Q : 0 < Q -> k * Q < (m' + 1) * Q -> k * Q <= m' * Q.
Proof. intros. assert (k < m' + 1) by nia. nia. Qed.

Lemma binade_below c m' pt A X :
  0 < c -> 0 < X -> 2 <= A -> c <= m' -> pt < 2 * c -> pt * X <= m' * (A * X).
Proof.
  intros. assert (pt * X <= 2 * c * X) by nia.
  assert (2 * c * X <= m' * A * X); [|lia].
  assert (2 * c <= m' * A) by nia. nia.
Qed.

Lemma split_pow e' ex : -1074 <= ex <= e' ->
  2 ^ (e' + 1074) = 2 ^ (e' - ex) * 2 ^ (ex + 1074).
Proof. intros. rewrite <- Z.pow_add_r by lia. f_equal. lia. Qed.

(** The rounded value stays below a canonical float that bounds the exact
    value from above. *)
Lemma round_below mx ex lx m2 e' m3 e3 pt et :
  0 < mx -> -1074 <= ex ->
  described mx ex lx m2 e' m3 e3 ->
  canon pt et ->
  (mx + inexact lx) * 2 ^ (ex + 1074) <= Z.pos pt * 2 ^ (et + 1074) ->
  m2 * 2 ^ (e' + 1074) <= Z.pos pt * 2 ^ (et + 1074).
Proof.
  intros Hmx Hex [[Hn He Hcases] Hlow Hup Hnorm Hm3 Hval Hcan] Ct Hle.
  pose proof (split_pow e' ex ltac:(lia)) as HQ.
  assert (HP : 0 < 2 ^ (ex + 1074)) by (apply Z.pow_pos_nonneg; lia).
  assert (HN : 0 < 2 ^ (e' - ex)) by (apply Z.pow_pos_nonneg; lia).
  pose proof (Z.div_mod mx (2 ^ (e' - ex)) ltac:(lia)) as Hdm.
  pose proof (Z.mod_pos_bound mx (2 ^ (e' - ex)) HN) as Hr.
  pose proof (inexact_range lx) as Hi.
  destruct (below_core _ _ _ _ _ _ _ HN HP Hdm Hr (proj1 Hi) Hle) as [Hweak Hstrict].
  rewrite HQ.
  destruct Hcases as [->|[-> Hinex]]; [exact Hweak|].
  assert (Hs : mx / 2 ^ (e' - ex) * (2 ^ (e' - ex) * 2 ^ (ex + 1074))
               < Z.pos pt * 2 ^ (et + 1074)).
  { apply Hstrict. destruct (Z.eq_dec (mx mod 2 ^ (e' - ex)) 0) as [Hr0|Hr0];
      [right | now left].
    apply inexact_pos. intros Hl. apply Hinex. now split. }
  pose proof (proj1 (canon_iff _ _) Ct) as (_ & Lt & _).
  rewrite <- HQ in *.
  destruct (Z.le_gt_cases e' et) as [Hge|Hlt].
  - assert (HT : Z.pos pt * 2 ^ (et + 1074)
                 = Z.pos pt * 2 ^ (et - e') * 2 ^ (e' + 1074)).
    { rewrite <- Z.mul_assoc, <- Z.pow_add_r by lia. do 2 f_equal. lia. }
    rewrite HT in *. apply multiple_up; [apply Z.pow_pos_nonneg; lia | exact Hs].
  - exfalso.
    pose proof (Hnorm ltac:(lia)) as Hm'.
    pose proof (canon_lt53 _ _ Ct) as Ut.
    assert (HX : 0 < 2 ^ (et + 1074)) by (apply Z.pow_pos_nonneg; lia).
    assert (Hp : 2 ^ (e' + 1074) = 2 ^ (e' - et) * 2 ^ (et + 1074)).
    { rewrite <- Z.pow_add_r by lia. f_equal. lia. }
    assert (HA : 2 <= 2 ^ (e' - et)).
    { change 2 with (2 ^ 1) at 1. apply Z.pow_le_mono_r; lia. }
    rewrite Hp in Hs.
    pose proof (binade_below (2 ^ 52) _ (Z.pos pt) _ _ eq_refl HX HA Hm' Ut). lia.
Qed.

(** The rounded value stays above a canonical float that bounds the exact
    value from below. *)
Lemma round_above mx ex lx m2 e' m3 e3 pt et :
  0 < mx -> -1074 <= ex ->
  described mx ex lx m2 e' m3 e3 ->
  canon pt et ->
  Z.pos pt * 2 ^ (et + 1074) <= mx * 2 ^ (ex + 1074) ->
  Z.pos pt * 2 ^ (et + 1074) <= m2 * 2 ^ (e' + 1074).
Proof.
  intros Hmx Hex [[Hn He Hcases] Hlow Hup Hnorm Hm3 Hval Hcan] Ct Hle.
  pose proof (split_pow e' ex ltac:(lia)) as HQ.
  assert (HP : 0 < 2 ^ (ex + 1074)) by (apply Z.pow_pos_nonneg; lia).
  assert (HN : 0 < 2 ^ (e' - ex)) by (apply Z.pow_pos_nonneg; lia).
  assert (HQ0 : 0 < 2 ^ (e' + 1074)) by (apply Z.pow_pos_nonneg; lia).
  pose proof (Z.div_mod mx (2 ^ (e' - ex)) ltac:(lia)) as Hdm.
  pose proof (Z.mod_pos_bound mx (2 ^ (e' - ex)) HN) as Hr.
  destruct (above_core _ _ _ _ _ _ HN HP Hdm Hr Hle) as [Hlt' _].
  rewrite <- HQ in Hlt'.
  enough (Hm' : Z.pos pt * 2 ^ (et + 1074) <= mx / 2 ^ (e' - ex) * 2 ^ (e' + 1074)).
  { destruct Hcases as [->|[-> _]]; [exact Hm'|].
    rewrite Z.mul_add_distr_r. lia. }
  pose proof (proj1 (canon_iff _ _) Ct) as (_ & Lt & _).
  destruct (Z.le_gt_cases e' et) as [Hge|Hlt].
  - assert (HT : Z.pos pt * 2 ^ (et + 1074)
                 = Z.pos pt * 2 ^ (et - e') * 2 ^ (e' + 1074)).
    { rewrite <- Z.mul_assoc, <- Z.pow_add_r by lia. do 2 f_equal. lia. }
    rewrite HT in *. apply multiple_down; [exact HQ0 | exact Hlt'].
  - pose proof (Hnorm ltac:(lia)) as Hn52.
    pose proof (canon_lt53 _ _ Ct) as Ut.
    assert (HX : 0 < 2 ^ (et + 1074)) by (apply Z.pow_pos_nonneg; lia).
    assert (Hp : 2 ^ (e' + 1074) = 2 ^ (e' - et) * 2 ^ (et + 1074)).
    { rewrite <- Z.pow_add_r by lia. f_equal. lia. }
    assert (HA : 2 <= 2 ^ (e' - et)).
    { change 2 with (2 ^ 1) at 1. apply Z.pow_le_mono_r; lia. }
    rewrite Hp.
    exact (binade_below (2 ^ 52) _ (Z.pos pt) _ _ eq_refl HX HA Hn52 Ut).
Qed.

(** *** Rounding an exact value *)

Lemma iter_xO p d : Z.pos (Pos.iter xO p d) = Z.pos p * 2 ^ Z.pos d.
Proof.
  induction d as [|d IH] using Pos.peano_ind.
  - simpl. lia.
  - rewrite Pos.iter_succ, Pos2Z.inj_xO, IH, Pos2Z.inj_succ, Z.pow_succ_r by lia. lia.
Qed.

Lemma dig_shift p k : 0 <= k -> forall q, Z.pos q = Z.pos p * 2 ^ k -> dig q = dig p + k.
Proof.
  intros Hk q Hq. apply dig_unique. pose proof (dig_bounds p) as [Hl Hu].
  pose proof (dig_pos p). rewrite Hq.
  assert (0 < 2 ^ k) by now apply Z.pow_pos_nonneg.
  replace (dig p + k - 1) with (dig p - 1 + k) by lia.
  rewrite !Z.pow_add_r by lia. nia.
Qed.

Lemma shl_align_spec mx ex ex' :
  let '(mz, ez) := shl_align mx ex ex' in
  ez = Z.min ex ex' /\ Z.pos mz = Z.pos mx * 2 ^ (ex - ez).
Proof.
  unfold shl_align. destruct (ex' - ex) as [|d|d] eqn:E.
  - split; [lia|]. replace (ex - ex) with 0 by lia. lia.
  - split; [lia|]. replace (ex - ex) with 0 by lia. lia.
  - split; [lia|]. rewrite iter_xO. do 2 f_equal. lia.
Qed.

Lemma binary_round_aux_of s p e :
  exists mz ez,
    binary_round prec emax s p e = binary_round_aux prec emax s (Z.pos mz) ez loc_Exact /\
    ez <= e /\ (-1074 <= e -> -1074 <= ez) /\
    Z.pos mz = Z.pos p * 2 ^ (e - ez) /\
    0 <= fexp64 (Zdig (Z.pos mz) + ez) - ez.
Proof.
  unfold binary_round.
  change (fexp prec emax (Z.pos (digits2_pos p) + e)) with (fexp64 (dig p + e)).
  pose proof (shl_align_spec p e (fexp64 (dig p + e))) as H.
  destruct (shl_align p e (fexp64 (dig p + e))) as [mz ez]. destruct H as [Hez Hmz].
  exists mz, ez. split; [reflexivity|].
  assert (HF : -1074 <= fexp64 (dig p + e)) by (rewrite fexp64_eq; lia).
  split; [lia|]. split; [lia|]. split; [exact Hmz|].
  rewrite Zdig_pos, (dig_shift p (e - ez) ltac:(lia) mz Hmz).
  replace (dig p + (e - ez) + ez) with (dig p + e) by lia. lia.
Qed.

Lemma value_shift p e mz ez :
  -1074 <= ez -> ez <= e -> Z.pos mz = Z.pos p * 2 ^ (e - ez) ->
  Z.pos mz * 2 ^ (ez + 1074) = Z.pos p * 2 ^ (e + 1074).
Proof.
  intros H1 H2 ->. rewrite <- Z.mul_assoc, <- Z.pow_add_r by lia. do 2 f_equal. lia.
Qed.

Lemma pack_zero_le s pt et : SFleb (pack false 0 s) (S754_finite false pt et) = true.
Proof. reflexivity. Qed.

(** Rounding an exact value that a canonical float bounds from above. *)
Lemma bra_le mx ex lx pt et :
  0 < mx -> -1074 <= ex -> 0 <= fexp64 (Zdig mx + ex) - ex ->
  canon pt et -> et <= 971 ->
  (mx + inexact lx) * 2 ^ (ex + 1074) <= Z.pos pt * 2 ^ (et + 1074) ->
  SFleb (binary_round_aux prec emax false mx ex lx) (S754_finite false pt et) = true.
Proof.
  intros Hmx Hex Hn Ct Het Hle.
  destruct (round_desc mx ex lx Hmx Hn) as (m2 & e' & m3 & e3 & Hd & Hbra).
  rewrite Hbra.
  pose proof (round_below _ _ _ _ _ _ _ _ _ Hmx Hex Hd Ct Hle) as Hb.
  destruct Hd as [_ _ _ _ Hm3 Hval Hcan]. rewrite <- Hval in Hb.
  destruct m3 as [|p3|p3]; [reflexivity| |lia].
  specialize (Hcan p3 eq_refl).
  pose proof (value_order _ _ _ _ Hcan Ct Hb) as Ho.
  unfold pack. replace (e3 <=? 971) with true by (symmetry; apply Z.leb_le; lia).
  now apply leb_finite_pos.
Qed.

(** Rounding an exact value that a canonical float bounds from below. *)
Lemma bra_ge mx ex lx pt et :
  0 < mx -> -1074 <= ex -> 0 <= fexp64 (Zdig mx + ex) - ex ->
  canon pt et ->
  Z.pos pt * 2 ^ (et + 1074) <= mx * 2 ^ (ex + 1074) ->
  SFleb (S754_finite false pt et) (binary_round_aux prec emax false mx ex lx) = true.
Proof.
  intros Hmx Hex Hn Ct Hle.
  destruct (round_desc mx ex lx Hmx Hn) as (m2 & e' & m3 & e3 & Hd & Hbra).
  rewrite Hbra.
  pose proof (round_above _ _ _ _ _ _ _ _ _ Hmx Hex Hd Ct Hle) as Hb.
  destruct Hd as [_ Hlow _ _ Hm3 Hval Hcan]. rewrite <- Hval in Hb.
  pose proof (proj1 (canon_iff _ _) Ct) as (_ & Lt & _).
  assert (0 < 2 ^ (et + 1074)) by (apply Z.pow_pos_nonneg; lia).
  destruct m3 as [|p3|p3]; [lia| |lia].
  specialize (Hcan p3 eq_refl).
  pose proof (value_order _ _ _ _ Ct Hcan Hb) as Ho.
  unfold pack. destruct (e3 <=? 971); [|reflexivity].
  now apply leb_finite_pos.
Qed.

Lemma binary_round_le p e pt et :
  -1074 <= e -> canon pt et -> et <= 971 ->
  Z.pos p * 2 ^ (e + 1074) <= Z.pos pt * 2 ^ (et + 1074) ->
  SFleb (binary_round prec emax false p e) (S754_finite false pt et) = true.
Proof.
  intros He Ct Het Hle.
  destruct (binary_round_aux_of false p e) as (mz & ez & -> & Hez & Hlow & Hmz & Hn).
  apply bra_le; try assumption; try lia; auto.
  simpl inexact. rewrite Z.add_0_r.
  now rewrite (value_shift p e mz ez (Hlow He) Hez Hmz).
Qed.

Lemma binary_round_ge p e pt et :
  -1074 <= e -> canon pt et ->
  Z.pos pt * 2 ^ (et + 1074) <= Z.pos p * 2 ^ (e + 1074) ->
  SFleb (S754_finite false pt et) (binary_round prec emax false p e) = true.
Proof.
  intros He Ct Hle.
  destruct (binary_round_aux_of false p e) as (mz & ez & -> & Hez & Hlow & Hmz & Hn).
  apply bra_ge; try assumption; try lia; auto.
  now rewrite (value_shift p e mz ez (Hlow He) Hez Hmz).
Qed.

(** *** Signs *)

Lemma iter_shr_nonneg k rec : 0 <= shr_m rec -> 0 <= shr_m (Nat.iter k shr_1 rec).
Proof.
  intros H. induction k as [|k IH]; [exact H|]. simpl. now apply shr_m_nonneg_1.
Qed.

Lemma shr_nonneg rec e n : 0 <= shr_m rec -> 0 <= shr_m (fst (shr rec e n)).
Proof.
  intros H. destruct n as [|p|p]; try exact H.
  cbn [shr fst]. rewrite iter_pos_nat. now apply iter_shr_nonneg.
Qed.

Lemma rne_nonneg m l : 0 <= m -> 0 <= round_nearest_even m l.
Proof. intros H. destruct (rne_cases m l) as [->|[-> _]]; lia. Qed.

Lemma pack_signed s m e : 0 <= m -> signed s (pack s m e).
Proof.
  intros H. destruct m as [|p|p]; [reflexivity| |lia].
  unfold pack. now destruct (e <=? 971).
Qed.

Lemma bra_signed s mx ex lx : 0 <= mx -> signed s (binary_round_aux prec emax s mx ex lx).
Proof.
  intros Hmx. unfold binary_round_aux, shr_fexp.
  set (n1 := fexp prec emax (Zdigits2 mx + ex) - ex).
  pose proof (shr_nonneg (shr_record_of_loc mx lx) ex n1) as H1.
  rewrite shr_m_of_loc in H1. specialize (H1 Hmx).
  destruct (shr (shr_record_of_loc mx lx) ex n1) as [rec1 e1]. cbn [fst] in H1.
  set (m2 := round_nearest_even (shr_m rec1) (loc_of_shr_record rec1)).
  assert (Hm2 : 0 <= m2) by now apply rne_nonneg.
  set (n2 := fexp prec emax (Zdigits2 m2 + e1) - e1).
  pose proof (shr_nonneg (shr_record_of_loc m2 loc_Exact) e1 n2) as H2.
  rewrite shr_m_of_loc in H2. specialize (H2 Hm2).
  destruct (shr (shr_record_of_loc m2 loc_Exact) e1 n2) as [rec2 e2]. cbn [fst] in H2.
  now apply (pack_signed s).
Qed.

Lemma binary_round_signed s p e : signed s (binary_round prec emax s p e).
Proof.
  unfold binary_round. destruct (shl_align p e _) as [mz ez].
  apply bra_signed. lia.
Qed.

Lemma signed_pos_ge_zero x s : signed false x -> SFleb (S754_zero s) x = true.
Proof. destruct x as [s'|s'| |s' m e]; simpl; try contradiction; now intros ->. Qed.

Lemma signed_neg_le_finite x p e : signed true x -> SFleb x (S754_finite false p e) = true.
Proof. destruct x as [s'|s'| |s' m e']; simpl; try contradiction; now intros ->. Qed.

Lemma signed_neg_le_zero x s : signed true x -> SFleb x (S754_zero s) = true.
Proof. destruct x as [s'|s'| |s' m e']; simpl; try contradiction; now intros ->. Qed.

(** *** Integers below [2^53] *)

Lemma leb_refl_finite p e : SFleb (S754_finite false p e) (S754_finite false p e) = true.
Proof. apply leb_finite_pos. right. split; [reflexivity | lia]. Qed.

Lemma norm_pos p :
  Z.pos p < 2 ^ 53 ->
  exists pt et,
    norm (Z.pos p) = S754_finite false pt et /\
    canon pt et /\ -52 <= et <= 0 /\ dig pt = 53 /\
    Z.pos pt = Z.pos p * 2 ^ (- et).
Proof.
  intros Hp. pose proof (dig_bounds p) as [Dl Du]. pose proof (dig_pos p) as Dp.
  assert (Dle : dig p <= 53).
  { destruct (Z.le_gt_cases (dig p) 53) as [|Hgt]; [assumption|].
    assert (2 ^ 53 <= 2 ^ (dig p - 1)) by (apply Z.pow_le_mono_r; lia). lia. }
  set (et := dig p - 53).
  assert (Hpos : 0 < Z.pos p * 2 ^ (- et)).
  { assert (0 < 2 ^ (- et)) by (apply Z.pow_pos_nonneg; lia). lia. }
  set (pt := Z.to_pos (Z.pos p * 2 ^ (- et))).
  assert (Hpt : Z.pos pt = Z.pos p * 2 ^ (- et)) by (unfold pt; rewrite Z2Pos.id; lia).
  assert (Dpt : dig pt = 53).
  { rewrite (dig_shift p (- et) ltac:(lia) pt Hpt). lia. }
  assert (Ct : canon pt et) by (apply canon_iff; lia).
  assert (Hv : Z.pos pt * 2 ^ (et + 1074) = Z.pos p * 2 ^ (0 + 1074)).
  { rewrite Hpt, <- Z.mul_assoc, <- Z.pow_add_r by lia. do 2 f_equal. lia. }
  exists pt, et. split; [|repeat split; try assumption; lia].
  unfold norm, binary_normalize.
  pose proof (binary_round_le p 0 pt et ltac:(lia) Ct ltac:(lia) ltac:(lia)) as Hle.
  pose proof (binary_round_ge p 0 pt et ltac:(lia) Ct ltac:(lia)) as Hge.
  pose proof (binary_round_signed false p 0) as Hs.
  destruct (binary_round prec emax false p 0) as [s|s| |s m e]; simpl in Hs;
    try contradiction; subst; try discriminate.
  apply leb_finite_pos in Hle, Hge.
  assert (e = et) by lia. subst e.
  assert (m = pt) by lia. now subst m.
Qed.

Lemma norm_nonneg_finite z : 0 <= z < 2 ^ 53 -> nonneg_finite (norm z).
Proof.
  intros [H0 Hu]. destruct z as [|p|p]; [now left | right | lia].
  destruct (norm_pos p Hu) as (pt & et & E & Ct & Het & _).
  exists pt, et. repeat split; try assumption; lia.
Qed.

Lemma norm_valid z : 0 <= z < 2 ^ 53 -> SpecFloat.valid_binary prec emax (norm z) = true.
Proof.
  intros Hz. destruct (norm_nonneg_finite z Hz) as [->|(p & e & -> & Cp & He)];
    [reflexivity|]. now apply valid_finite.
Qed.

Lemma norm_value p pt et :
  norm (Z.pos p) = S754_finite false pt et -> Z.pos p < 2 ^ 53 ->
  -52 <= et <= 0 /\ dig pt = 53 /\ Z.pos pt = Z.pos p * 2 ^ (- et) /\ canon pt et.
Proof.
  intros E Hp. destruct (norm_pos p Hp) as (pt' & et' & E' & Ct & Het & Dt & Hv).
  rewrite E in E'. injection E' as -> ->. auto.
Qed.

Lemma norm_le a b : 0 <= a <= b -> b < 2 ^ 53 -> SFleb (norm a) (norm b) = true.
Proof.
  intros [Ha Hab] Hb.
  destruct a as [|pa|pa]; [| |lia].
  - apply signed_pos_ge_zero.
    destruct (norm_nonneg_finite b ltac:(lia)) as [->|(p & e & -> & _)]; reflexivity.
  - destruct b as [|pb|pb]; try lia.
    destruct (norm_pos pb Hb) as (pt & et & E & Ct & Het & Dt & Hv). rewrite E.
    unfold norm, binary_normalize.
    apply binary_round_le; try assumption; try lia.
    rewrite Hv, <- Z.mul_assoc, <- Z.pow_add_r by lia.
    replace (- et + (et + 1074)) with (0 + 1074) by lia.
    assert (0 < 2 ^ (0 + 1074)) by (apply Z.pow_pos_nonneg; lia). nia.
Qed.

(** *** Subtraction and addition *)

Lemma nonneg_cases o :
  SpecFloat.valid_binary prec emax o = true ->
  SFleb (S754_zero false) o = true ->
  (exists s, o = S754_zero s) \/ o = S754_infinity false \/
  (exists p e, o = S754_finite false p e /\ canon p e /\ e <= 971).
Proof.
  intros Hv Hle. destruct o as [s|s| |s p e]; simpl in Hle; try discriminate.
  - left. eauto.
  - right. left. destruct s; [discriminate | reflexivity].
  - right. right. destruct s; [discriminate|].
    exists p, e. split; [reflexivity|]. exact (proj1 (valid_finite _ _ _) Hv).
Qed.

Lemma aligned mx ex ez :
  ez <= ex -> -1074 <= ez ->
  Z.pos (fst (shl_align mx ex ez)) * 2 ^ (ez + 1074) = Z.pos mx * 2 ^ (ex + 1074).
Proof.
  intros H1 H2. pose proof (shl_align_spec mx ex ez) as H.
  destruct (shl_align mx ex ez) as [mz ez']. destruct H as [He Hm]. cbn [fst].
  replace ez' with ez in Hm by lia.
  apply (value_shift mx ex mz ez H2 H1 Hm).
Qed.

Lemma SFsub_le x o :
  nonneg_finite x ->
  SpecFloat.valid_binary prec emax o = true -> SFleb (S754_zero false) o = true ->
  SFleb (SFsub prec emax x o) x = true.
Proof.
  intros Hx Hv Ho.
  destruct (nonneg_cases o Hv Ho) as [[s ->]|[->|(q & eo & -> & Cq & Heo)]];
    destruct Hx as [->|(p & e & -> & Cp & He)].
  - now destruct s.
  - cbn [SFsub]. apply leb_refl_finite.
  - reflexivity.
  - reflexivity.
  - reflexivity.
  - cbn [SFsub cond_Zopp].
    pose proof (proj1 (canon_iff _ _) Cp) as (_ & Lp & _).
    pose proof (proj1 (canon_iff _ _) Cq) as (_ & Lq & _).
    set (ez := Z.min e eo).
    pose proof (aligned p e ez ltac:(lia) ltac:(lia)) as Ha.
    pose proof (aligned q eo ez ltac:(lia) ltac:(lia)) as Hb.
    set (Ma := Z.pos (fst (shl_align p e ez))) in *.
    set (Mo := Z.pos (fst (shl_align q eo ez))) in *.
    assert (HMo : 0 < Mo) by (unfold Mo; lia).
    unfold binary_normalize. destruct (Ma - Mo) as [|d|d] eqn:Ed.
    + reflexivity.
    + apply binary_round_le; [lia | assumption | lia |].
      rewrite <- Ha. assert (0 < 2 ^ (ez + 1074)) by (apply Z.pow_pos_nonneg; lia). nia.
    + apply signed_neg_le_finite, binary_round_signed.
Qed.

Lemma SFadd_ge x o :
  nonneg_finite x ->
  SpecFloat.valid_binary prec emax o = true -> SFleb (S754_zero false) o = true ->
  SFleb x (SFadd prec emax x o) = true.
Proof.
  intros Hx Hv Ho.
  destruct (nonneg_cases o Hv Ho) as [[s ->]|[->|(q & eo & -> & Cq & Heo)]];
    destruct Hx as [->|(p & e & -> & Cp & He)].
  - now destruct s.
  - cbn [SFadd]. apply leb_refl_finite.
  - reflexivity.
  - reflexivity.
  - reflexivity.
  - cbn [SFadd cond_Zopp].
    pose proof (proj1 (canon_iff _ _) Cp) as (_ & Lp & _).
    pose proof (proj1 (canon_iff _ _) Cq) as (_ & Lq & _).
    set (ez := Z.min e eo).
    pose proof (aligned p e ez ltac:(lia) ltac:(lia)) as Ha.
    pose proof (aligned q eo ez ltac:(lia) ltac:(lia)) as Hb.
    set (Ma := Z.pos (fst (shl_align p e ez))) in *.
    set (Mo := Z.pos (fst (shl_align q eo ez))) in *.
    assert (HMa : 0 < Ma) by (unfold Ma; lia).
    assert (HMo : 0 < Mo) by (unfold Mo; lia).
    unfold binary_normalize. destruct (Ma + Mo) as [|d|d] eqn:Ed; try lia.
    apply binary_round_ge; [lia | assumption |].
    rewrite <- Ha. assert (0 < 2 ^ (ez + 1074)) by (apply Z.pow_pos_nonneg; lia). nia.
Qed.

(** *** Multiplication and division *)

Lemma SFmul_nonneg p e y :
  nonneg_finite y ->
  SFleb (S754_zero false) (SFmul prec emax (S754_finite false p e) y) = true.
Proof.
  intros [->|(q & eq & -> & _)]; [reflexivity|].
  cbn [SFmul xorb]. apply signed_pos_ge_zero, bra_signed. lia.
Qed.

Lemma new_location_exact nb : new_location nb 0 = loc_Exact.
Proof. unfold new_location. now destruct (Z.even nb). Qed.

Lemma inexact_new_location nb r : inexact (new_location nb r) <= (if r =? 0 then 0 else 1).
Proof.
  destruct (Z.eqb_spec r 0) as [->|Hr].
  - now rewrite new_location_exact.
  - apply inexact_range.
Qed.

Lemma norm_one : norm 1 = S754_finite false (2 ^ 52) (-52).
Proof. reflexivity. Qed.

Lemma SFdiv_core_norm pa ea pb eb :
  dig pa = 53 -> dig pb = 53 -> -52 <= ea <= 0 -> -52 <= eb <= 0 ->
  SFdiv_core_binary prec emax (Z.pos pa) ea (Z.pos pb) eb
  = ((Z.pos pa * 2 ^ 53) / Z.pos pb, ea - eb - 53,
     new_location (Z.pos pb) ((Z.pos pa * 2 ^ 53) mod Z.pos pb)).
Proof.
  intros Da Db Hea Heb. unfold SFdiv_core_binary.
  change (Zdigits2 (Z.pos pa)) with (dig pa). change (Zdigits2 (Z.pos pb)) with (dig pb).
  rewrite Da, Db.
  change (fexp prec emax (53 + ea - (53 + eb))) with (fexp64 (53 + ea - (53 + eb))).
  rewrite fexp64_eq.
  replace (Z.min (Z.max (53 + ea - (53 + eb) - 53) (-1074)) (ea - eb))
    with (ea - eb - 53) by lia.
  replace (ea - eb - (ea - eb - 53)) with 53 by lia.
  change (Z.shiftl (Z.pos pa) 53) with (Z.shiftl (Z.pos pa) 53).
  rewrite Z.shiftl_mul_pow2 by lia.
  unfold Z.div, Z.modulo.
  now destruct (Z.div_eucl (Z.pos pa * 2 ^ 53) (Z.pos pb)).
Qed.

Lemma SFdiv_unit a b :
  0 <= a <= b -> 0 < b < 2 ^ 53 ->
  SFleb (S754_zero false) (SFdiv prec emax (norm a) (norm b)) = true /\
  SFleb (SFdiv prec emax (norm a) (norm b)) (norm 1) = true.
Proof.
  intros [Ha Hab] [Hb0 Hb].
  destruct b as [|pb|pb]; try lia.
  destruct (norm_pos pb Hb) as (qb & eb & Eb & Cb & Heb & Db & Vb). rewrite Eb.
  destruct a as [|pa|pa]; [split; reflexivity| |lia].
  destruct (norm_pos pa ltac:(lia)) as (qa & ea & Ea & Ca & Hea & Da & Va). rewrite Ea.
  cbn [SFdiv xorb]. rewrite (SFdiv_core_norm qa ea qb eb Da Db Hea Heb).
  set (M := Z.pos qa * 2 ^ 53). set (q := M / Z.pos qb). set (r := M mod Z.pos qb).
  pose proof (Z.div_mod M (Z.pos qb) ltac:(lia)) as Hdm. fold q r in Hdm.
  pose proof (Z.mod_pos_bound M (Z.pos qb) ltac:(lia)) as Hr. fold r in Hr.
  pose proof (dig_bounds qa) as [Al Au]. pose proof (dig_bounds qb) as [Bl Bu].
  rewrite Da in Al, Au. rewrite Db in Bl, Bu. change (53 - 1) with 52 in *.
  assert (Hq : 2 ^ 52 <= q).
  { unfold q. apply Z.div_le_lower_bound; [lia|]. unfold M.
    assert (0 < 2 ^ 52) by reflexivity. nia. }
  assert (Hq0 : 0 < q) by (assert (0 < 2 ^ 52) by reflexivity; lia).
  split.
  - apply signed_pos_ge_zero, bra_signed. lia.
  - rewrite norm_one.
    destruct q as [|pq|pq] eqn:Eq; try lia.
    assert (Dq : 53 <= dig pq).
    { destruct (Z.le_gt_cases 53 (dig pq)) as [|Hlt]; [assumption|].
      pose proof (dig_bounds pq) as [_ Qu].
      assert (2 ^ dig pq <= 2 ^ 52) by (apply Z.pow_le_mono_r; pose proof (dig_pos pq); lia).
      lia. }
    apply bra_le.
    + lia.
    + lia.
    + rewrite Zdig_pos, fexp64_eq. lia.
    + apply canon_iff. change (dig (2 ^ 52)) with 53. lia.
    + lia.
    + (* the quotient is at most one *)
      set (w := 53 + eb - ea).
      assert (Hw : 0 < 2 ^ w) by (apply Z.pow_pos_nonneg; lia).
      assert (Hmain : M <= Z.pos qb * 2 ^ w).
      { unfold M. rewrite Va, Vb, <- !Z.mul_assoc, <- !Z.pow_add_r by lia.
        replace (- eb + w) with (- ea + 53) by lia.
        assert (0 < 2 ^ (- ea + 53)) by (apply Z.pow_pos_nonneg; lia). nia. }
      assert (Hqd : Z.pos pq + inexact (new_location (Z.pos qb) r) <= 2 ^ w).
      { pose proof (inexact_new_location (Z.pos qb) r) as Hi.
        pose proof (inexact_range (new_location (Z.pos qb) r)) as Hi'.
        destruct (Z.eqb_spec r 0) as [Hr0|Hr0]; nia. }
      change (Z.pos (2 ^ 52) * 2 ^ (-52 + 1074)) with (2 ^ 1074).
      replace (2 ^ 1074) with (2 ^ w * 2 ^ (ea - eb - 53 + 1074)).
      * apply Z.mul_le_mono_nonneg_r; [apply Z.pow_nonneg; lia | exact Hqd].
      * rewrite <- Z.pow_add_r by lia. f_equal. lia.
Qed.

(** *** The order of binary64 *)

Lemma leb_finite_iff s1 m1 e1 s2 m2 e2 :
  SFleb (S754_finite s1 m1 e1) (S754_finite s2 m2 e2) = true <->
  match s1, s2 with
  | true, false => True
  | false, true => False
  | false, false => e1 < e2 \/ (e1 = e2 /\ (m1 <= m2)%positive)
  | true, true => e2 < e1 \/ (e1 = e2 /\ (m2 <= m1)%positive)
  end.
Proof.
  destruct s1, s2.
  - unfold SFleb, SFcompare. fold (Pos.compare m1 m2).
    destruct (Z.compare_spec e1 e2) as [E|E|E].
    + rewrite (Pos.compare_antisym m2 m1).
      destruct (Pos.compare_spec m2 m1) as [H|H|H]; simpl; split; intros;
        try lia; try discriminate; try reflexivity.
    + split; [discriminate | lia].
    + split; [lia | reflexivity].
  - split; [trivial | reflexivity].
  - split; [discriminate | contradiction].
  - apply leb_finite_pos.
Qed.

Lemma SFleb_trans x y z : SFleb x y = true -> SFleb y z = true -> SFleb x z = true.
Proof.
  intros Hxy Hyz.
  destruct x as [sx|sx| |sx mx ex]; destruct y as [sy|sy| |sy my ey];
    destruct z as [sz|sz| |sz mz ez];
    try discriminate;
    repeat match goal with
           | H : SFleb (S754_finite _ _ _) (S754_finite _ _ _) = true |- _ =>
               apply leb_finite_iff in H
           end;
    try apply leb_finite_iff;
    repeat match goal with s : bool |- _ => destruct s end;
    simpl in *; try discriminate; try reflexivity; try contradiction; try exact I; lia.
Qed.

Lemma SFltb_leb x y : SFltb x y = true -> SFleb x y = true.
Proof. unfold SFltb, SFleb. now destruct (SFcompare x y) as [[| |]|]. Qed.


End RoundingFacts.

(** The primitive floats compute what [SpecFloat] specifies. *)
Module Binary64Facts.
Import Rounding RoundingFacts.

Lemma prim_of_Z z : exact_int z -> Prim2SF (Binary64.of_Z z) = norm z.
Proof.
  intros Hz. unfold Binary64.of_Z. apply Prim2SF_SF2Prim. now apply norm_valid.
Qed.

Lemma prim_tenth : exists p e, Prim2SF (tenth (F := float)) = S754_finite false p e.
Proof. eexists _, _. vm_compute. reflexivity. Qed.

#[global] Instance binary64_order : PyFloatOrder float.
Proof.
  constructor; cbn [of_int of_decimal fadd fsub fmul fdiv fltb fleb Binary64.binary64].
  - intros m _. unfold Binary64.of_dec, Binary64.of_Z. change (0 <=? 0) with true.
    cbv iota. now rewrite Z.pow_0_r, Z.mul_1_r.
  - intros b Hb Eb.
    rewrite !leb_spec, div_spec, !prim_of_Z by (assumption || (unfold exact_int; lia)).
    change (Prim2SF (Binary64.of_dec true 0 0)) with (S754_zero true).
    destruct b as [|p|p]; try lia.
    destruct (norm_pos p (proj2 Eb)) as (pt & et & -> & _).
    split; reflexivity.
  - intros a b Ha Hb Hab. rewrite leb_spec, !prim_of_Z by assumption.
    apply norm_le; unfold exact_int in *; lia.
  - intros x y. rewrite ltb_spec, leb_spec. apply SFltb_leb.
  - intros x y z. rewrite !leb_spec. apply SFleb_trans.
  - intros d Hd. destruct prim_tenth as (p & e & E).
    rewrite leb_spec, mul_spec, E, !prim_of_Z by (assumption || (unfold exact_int; lia)).
    change (norm 0) with (S754_zero false).
    apply SFmul_nonneg. now apply norm_nonneg_finite.
  - intros a o Ha Ho. rewrite leb_spec in Ho. rewrite leb_spec, sub_spec.
    rewrite !prim_of_Z in * by (assumption || (unfold exact_int; lia)).
    apply SFsub_le; [now apply norm_nonneg_finite | apply Prim2SF_valid | exact Ho].
  - intros a o Ha Ho. rewrite leb_spec in Ho. rewrite leb_spec, add_spec.
    rewrite !prim_of_Z in * by (assumption || (unfold exact_int; lia)).
    apply SFadd_ge; [now apply norm_nonneg_finite | apply Prim2SF_valid | exact Ho].
  - intros a b Hab Hb Eb. rewrite !leb_spec, div_spec.
    rewrite !prim_of_Z by (assumption || (unfold exact_int in *; lia)).
    change (norm 0) with (S754_zero false).
    apply SFdiv_unit; unfold exact_int in *; lia.
Qed.

End Binary64Facts.

(* ================================================================= *)
(** ** The size of the scene image *)

Module ScaledSize.
Import Exact.

Lemma trunc_floor q : (0 <= q)%Q -> Z.quot (Qnum q) (Z.pos (Qden q)) = Qfloor q.
Proof.
  destruct q as [n d]. unfold Qle. simpl. intros Hn.
  apply Z.quot_div_nonneg; lia.
Qed.

Lemma scale_exact (x m : Z) :
  0 <= x -> 1024 < m ->
  trunc (fmul (of_int x)
           (fsub (of_int 1) (fdiv (fsub (of_int m) MAX_IMG_DIM) (of_int m))))
  = Some (x * 1024 / m).
Proof.
  intros Hx Hm. unfold MAX_IMG_DIM.
  cbn [of_int fsub fdiv fmul trunc exact].
  set (s := Qred (inject_Z 1 - Qred (Qred (inject_Z m - inject_Z 1024) / inject_Z m))).
  assert (Hm0 : ~ (inject_Z m == 0)%Q).
  { change 0%Q with (inject_Z 0). rewrite inject_Z_injective. lia. }
  assert (Hs : (inject_Z x * s == (x * 1024) # Z.to_pos m)%Q).
  { unfold s. rewrite !Qred_correct. rewrite (Qmake_Qdiv (x * 1024)).
    rewrite Z2Pos.id by lia. rewrite inject_Z_mult.
    change (inject_Z 1) with 1%Q. change (inject_Z 1024) with 1024%Q.
    field. exact Hm0. }
  assert (Hpos : (0 <= Qred (inject_Z x * s))%Q).
  { rewrite Qred_correct, Hs. unfold Qle. simpl. lia. }
  rewrite (trunc_floor _ Hpos). f_equal.
  rewrite Qred_correct, Hs. simpl. now rewrite Z2Pos.id by lia.
Qed.

(** In exact arithmetic, for a size that [float] converts, the size is
    the one the specification states: unchanged up to 1024, otherwise 1024
    along the longer axis and the other length times [1024 / max],
    truncated. *)
Lemma scaled_size_exact (w h : Z) :
  0 < w -> 0 < h -> float_range (Z.max w h) = true ->
  scaled_size (F := Q) (w, h)
  = OK (if Z.max w h <=? 1024 then None
        else Some (if h <? w then (1024, h * 1024 / w) else (w * 1024 / h, 1024))).
Proof.
  intros Hw Hh Hr. unfold scaled_size. cbn [fst snd].
  assert (Hside : forall x, 0 < x <= Z.max w h -> py_float_of_int (F := Q) x = OK (of_int x)).
  { intros x Hx. apply py_float_of_int_range. unfold float_range in *.
    apply Z.ltb_lt in Hr. apply Z.ltb_lt. lia. }
  rewrite (py_float_of_int_range _ Hr). cbn [rbind OK].
  assert (Hgt : fltb (F := Q) MAX_IMG_DIM (of_int (Z.max w h))
                = negb (Z.max w h <=? 1024)).
  { unfold MAX_IMG_DIM. cbn [fltb of_int exact]. f_equal.
    destruct (Z.max w h <=? 1024) eqn:E.
    - apply Qle_bool_iff. rewrite <- Zle_Qle. now apply Z.leb_le.
    - apply not_true_is_false. intros H. apply Qle_bool_iff in H.
      rewrite <- Zle_Qle in H. apply Z.leb_gt in E. lia. }
  rewrite Hgt. destruct (Z.max w h <=? 1024) eqn:E; [reflexivity|].
  apply Z.leb_gt in E. cbn [negb].
  assert (Hmax : trunc (F := Q) MAX_IMG_DIM = Some 1024) by reflexivity.
  destruct (h <? w) eqn:Ehw.
  - apply Z.ltb_lt in Ehw. rewrite (Hside h) by lia. rewrite Z.max_l in * by lia.
    cbn [rbind OK fst snd].
    unfold py_int_of_float. rewrite Hmax, (scale_exact h w) by lia. reflexivity.
  - apply Z.ltb_ge in Ehw. rewrite (Hside w) by lia. rewrite Z.max_r in * by lia.
    cbn [rbind OK fst snd].
    unfold py_int_of_float. rewrite Hmax, (scale_exact w h) by lia. reflexivity.
Qed.

(** C4. In binary64 arithmetic, as CPython computes, the two examples of
    the specification come out as stated, but [int(...)] cuts a product
    that rounding left just below an integer: a 1122 x 561 image is sized
    1024 x 511 where [561 * 1024 / 1122] is exactly 512, and a square
    1075 x 1075 image is sized 1023 x 1024. *)
Theorem scaled_size_binary64_falls_short :
  scaled_size (F := float) (2000, 1000) = OK (Some (1024, 512)) /\
  scaled_size (F := float) (800, 600) = OK None /\
  scaled_size (F := float) (1122, 561) = OK (Some (1024, 511)) /\
  scaled_size (F := Q) (1122, 561) = OK (Some (1024, 512)) /\
  scaled_size (F := float) (1075, 1075) = OK (Some (1023, 1024)) /\
  scaled_size (F := Q) (1075, 1075) = OK (Some (1024, 1024)).
Proof. repeat split; vm_compute; reflexivity. Qed.

End ScaledSize.

(* ================================================================= *)
(** ** Traces kept within a kind of event *)

Section TraceFacts.
Context {E : Type}.

(** A property of traces that is kept by running one computation after
    another is kept by [bind] and by the loops. *)
Lemma trace_bind {A B} (Q : list E -> Prop) (m : M E A) (k : A -> M E B) :
  additive Q -> Q (snd m) -> (forall a, Q (snd (k a))) -> Q (snd (bind m k)).
Proof.
  intros [_ Happ] Hm Hk. destruct m as [[e|a] t]; [exact Hm|].
  unfold bind. specialize (Hk a). destruct (k a) as [r t']. cbn [snd] in *.
  now apply Happ.
Qed.

Lemma trace_for_each {A} (Q : list E -> Prop) (l : list A) (body : A -> M E unit) :
  additive Q -> (forall a, Q (snd (body a))) -> Q (snd (for_each l body)).
Proof.
  intros HQ Hb. induction l as [|a l IH]; [exact (proj1 HQ)|].
  cbn [for_each]. apply trace_bind; [exact HQ | apply Hb | intros _; exact IH].
Qed.

Lemma trace_for_each_from {A} (Q : list E -> Prop) (l : list A)
    (body : Z -> A -> M E unit) idx :
  additive Q -> (forall i a, Q (snd (body i a))) -> Q (snd (for_each_from idx l body)).
Proof.
  intros HQ Hb. revert idx. induction l as [|a l IH]; intros idx; [exact (proj1 HQ)|].
  cbn [for_each_from]. apply trace_bind; [exact HQ | apply Hb | intros _; apply IH].
Qed.

Lemma additive_Forall (P : E -> Prop) : additive (Forall P).
Proof. split; [constructor | intros t1 t2 H1 H2; apply Forall_app; now split]. Qed.

(** Every event of a computation satisfies [P]. *)
Lemma all_bind {A B} (P : E -> Prop) (m : M E A) (k : A -> M E B) :
  Forall P (snd m) -> (forall a, Forall P (snd (k a))) -> Forall P (snd (bind m k)).
Proof. apply trace_bind, additive_Forall. Qed.

Lemma all_for_each {A} (P : E -> Prop) (l : list A) (body : A -> M E unit) :
  (forall a, Forall P (snd (body a))) -> Forall P (snd (for_each l body)).
Proof. apply trace_for_each, additive_Forall. Qed.

Lemma all_for_each_from {A} (P : E -> Prop) (l : list A) (body : Z -> A -> M E unit) idx :
  (forall i a, Forall P (snd (body i a))) -> Forall P (snd (for_each_from idx l body)).
Proof. apply trace_for_each_from, additive_Forall. Qed.

Lemma all_lift {A} (P : E -> Prop) (r : res A) : Forall P (snd (lift (E := E) r)).
Proof. constructor. Qed.

Lemma all_ret {A} (P : E -> Prop) (a : A) : Forall P (snd (ret (E := E) a)).
Proof. constructor. Qed.

Lemma all_emit (P : E -> Prop) (ev : E) : P ev -> Forall P (snd (emit ev)).
Proof. intros H. repeat constructor. exact H. Qed.

(** A loop that fails at some item: what the items before it did stays
    done, and the items after it are not reached. *)
Lemma for_each_fails {A} (body : A -> M E unit) before a after e t t' :
  for_each before body = (OK tt, t) ->
  body a = (raise e, t') ->
  for_each (before ++ a :: after) body = (raise e, t ++ t').
Proof.
  revert t. induction before as [|b before IH]; intros t Hb Ha.
  - injection Hb as <-. cbn [app for_each]. now rewrite (bind_fail _ _ _ _ Ha).
  - cbn [app for_each] in *.
    destruct (body b) as [[eb|[]] tb] eqn:Eb; [discriminate|].
    rewrite (bind_run _ _ _ _ eq_refl) in Hb.
    destruct (for_each before body) as [[e'|[]] t0] eqn:E0; [discriminate|].
    cbn [fst snd] in Hb. injection Hb as <-.
    rewrite (bind_run _ _ _ _ eq_refl), (IH t0 eq_refl Ha). cbn [fst snd].
    now rewrite app_assoc.
Qed.

Lemma for_each_from_fails {A} (body : Z -> A -> M E unit) before a after e t t' idx :
  for_each_from idx before body = (OK tt, t) ->
  body (idx + Z.of_nat (List.length before)) a = (raise e, t') ->
  for_each_from idx (before ++ a :: after) body = (raise e, t ++ t').
Proof.
  revert t idx. induction before as [|b before IH]; intros t idx Hb Ha.
  - injection Hb as <-. cbn [app for_each_from]. cbn [List.length] in Ha.
    replace (idx + Z.of_nat 0) with idx in Ha by lia.
    now rewrite (bind_fail _ _ _ _ Ha).
  - cbn [app for_each_from] in *.
    destruct (body idx b) as [[eb|[]] tb] eqn:Eb; [discriminate|].
    rewrite (bind_run _ _ _ _ eq_refl) in Hb.
    destruct (for_each_from (idx + 1) before body) as [[e'|[]] t0] eqn:E0; [discriminate|].
    cbn [fst snd] in Hb. injection Hb as <-.
    rewrite (bind_run _ _ _ _ eq_refl).
    rewrite (IH t0 (idx + 1) E0).
    + cbn [fst snd]. now rewrite app_assoc.
    + cbn [List.length] in Ha.
      now replace (idx + 1 + Z.of_nat (List.length before))
        with (idx + Z.of_nat (S (List.length before))) by lia.
Qed.

End TraceFacts.

(** The events of a computation built from [bind], [lift], [emit] and
    [ret]. *)
Ltac events :=
  repeat first [ apply all_lift | apply all_ret
               | apply all_emit; reflexivity
               | apply all_bind; [|intros ?] ].

(* ================================================================= *)
(** ** Reading the annotation file *)

Lemma parse_shape x :
  recursive_parse_xml_to_dict x = OK (PDict [(xml_tag x, node_value x)]).
Proof.
  destruct (contribution_total x) as [v Hv].
  unfold node_value. rewrite Hv. unfold contribution in Hv.
  destruct x as [tag text children]. cbn [xml_tag] in *.
  destruct children as [|c cs].
  - simpl in *. rewrite String.eqb_refl in Hv. now injection Hv as <-.
  - assert (Hall : Forall total (c :: cs))
      by (apply Forall_forall; intros; apply contribution_total).
    destruct (parse_children_spec (c :: cs) Hall [] I) as (r & E & _).
    change (recursive_parse_xml_to_dict (Element tag text (c :: cs)))
      with (result <- parse_children (OK []) (c :: cs) ;;
            OK (PDict [(tag, PDict result)]))%res in *.
    rewrite E in *. simpl in *. rewrite String.eqb_refl in Hv. now injection Hv as <-.
Qed.

(** X1. [load_annotations] returns the record of a document exactly when
    the root element is tagged ['annotation']; for any other root it raises
    [KeyError('annotation')], whatever the document holds. *)
Theorem load_annotations_needs_annotation_root
    (tag : string) (text : option string) (children : list xml) :
  load_annotations (Element tag text children)
  = if String.eqb tag "annotation"
    then OK (node_value (Element tag text children))
    else raise (KeyError "annotation").
Proof.
  unfold load_annotations. rewrite parse_shape. cbn [rbind OK xml_tag getitem Dict.get].
  rewrite (String.eqb_sym "annotation" tag).
  now destruct (String.eqb tag "annotation").
Qed.

Section MoreProperties.
Context {F : Type} {PF : PyFloat F} {Image : Type} {C : Codec F Image}.

#[local] Abbreviation Ev := (event F Image).

(* =============================================================== *)
(** ** Loading the image of a record *)

(** X2. [load_image] returns an image exactly when the record names its
    file by text, holds an ['object'] entry, the file at
    [os.path.join(image_dir, filename)] opens as that image, and its format
    is JPEG or PNG. *)
Theorem load_image_returns_checked_image
    (data : pyval) (image_dir : string) (image : Image) :
  load_image data image_dir = OK image <->
  exists name,
    getitem data "filename" = OK (PStr name) /\
    py_in "object" data = OK true /\
    image_open (path_join image_dir name) = OK image /\
    (image_format image = "JPEG" \/ image_format image = "PNG").
Proof.
  unfold load_image, OK, raise. split.
  - destruct (getitem data "filename") as [e|v] eqn:Hn; cbn [rbind OK raise]; [discriminate|].
    destruct v as [|name| |]; cbn [py_path_join rbind OK raise]; try discriminate.
    destruct (py_in "object" data) as [e|[|]] eqn:Ho; cbn [rbind negb OK raise];
      try discriminate.
    destruct (image_open (path_join image_dir name)) as [e|img] eqn:Hi;
      cbn [rbind OK raise]; [discriminate|].
    destruct (String.eqb (image_format img) "JPEG") eqn:EJ;
      destruct (String.eqb (image_format img) "PNG") eqn:EP;
      cbn [orb negb]; try discriminate;
      intros [= <-]; exists name; (do 3 (split; [reflexivity || assumption|]));
      apply String.eqb_eq in EJ || apply String.eqb_eq in EP; auto.
  - intros (name & -> & -> & Ho & Hf). cbn [py_path_join rbind negb OK raise].
    rewrite Ho. cbn [rbind OK raise].
    destruct Hf as [-> | ->]; reflexivity.
Qed.

(** X3. When the file of a record opens as an image of another format
    than JPEG and PNG, [load_image] raises
    [ValueError('Image format not JPEG/PNG')], and both pipelines raise it
    before any effect. *)
Theorem other_format_is_refused
    (data : pyval) (image_dir output_dir name : string) (image : Image) :
  getitem data "filename" = OK (PStr name) ->
  py_in "object" data = OK true ->
  image_open (path_join image_dir name) = OK image ->
  image_format image <> "JPEG" -> image_format image <> "PNG" ->
  load_image data image_dir = raise (ValueError "Image format not JPEG/PNG") /\
  process_orbs data image_dir output_dir
  = (raise (ValueError "Image format not JPEG/PNG"), []) /\
  process_images data image_dir output_dir
  = (raise (ValueError "Image format not JPEG/PNG"), []).
Proof.
  intros Hn Ho Hi HJ HP.
  assert (Hl : load_image data image_dir = raise (ValueError "Image format not JPEG/PNG")).
  { unfold load_image. rewrite Hn. cbn [py_path_join rbind OK raise]. rewrite Ho. cbn [rbind negb OK raise].
    rewrite Hi. cbn [rbind OK raise].
    apply String.eqb_neq in HJ, HP. now rewrite HJ, HP. }
  split; [exact Hl|].
  unfold process_orbs, process_images. now rewrite Hl.
Qed.

(** X4. A file name that is an absolute path is opened as it is: the
    image directory plays no part then. *)
Theorem absolute_filename_ignores_image_dir
    (data : pyval) (name dir1 dir2 : string) :
  getitem data "filename" = OK (PStr name) ->
  starts_with "/" name = true ->
  load_image data dir1 = load_image data dir2.
Proof.
  intros Hn Habs. unfold load_image. rewrite Hn. cbn [py_path_join rbind OK raise].
  unfold path_join. now rewrite Habs.
Qed.

(* =============================================================== *)
(** ** Detections that cannot be read *)

Lemma filter_res_fails {A} (keep : A -> res bool) before a after e :
  Forall (fun x => exists b, keep x = OK b) before ->
  keep a = raise e ->
  filter_res keep (before ++ a :: after) = raise e.
Proof.
  intros Hb Ha. induction Hb as [|x l [b Hx] _ IH]; cbn [app filter_res].
  - now rewrite Ha.
  - now rewrite Hx, IH.
Qed.

(** X5. The detections of a record are selected before anything is done
    with them: when some detection has no readable name (the first such
    one raising [e]), [extract_orb_annotations] raises [e], and both
    pipelines raise it without a crop, a directory or a file, also for the
    detections that come before it. *)
Theorem unnamed_detection_aborts_record
    (data : pyval) (image_dir output_dir : string) (image : Image)
    (before after : list pyval) (x : pyval) (e : exn) :
  load_image data image_dir = OK image ->
  getitem data "object" = OK (PList (before ++ x :: after)) ->
  Forall named before ->
  getitem x "name" = raise e ->
  extract_orb_annotations data = raise e /\
  process_orbs data image_dir output_dir = (raise e, []) /\
  process_images data image_dir output_dir = (raise e, []).
Proof.
  intros Hi Hobj Hnamed Hx.
  assert (He : extract_orb_annotations data = raise e).
  { unfold extract_orb_annotations. rewrite Hobj. cbn [rbind py_iter OK raise].
    apply filter_res_fails.
    - eapply Forall_impl; [|exact Hnamed].
      intros y Hy. rewrite (has_orb_name_named y Hy). eauto.
    - unfold has_orb_name. now rewrite Hx. }
  split; [exact He|].
  unfold process_orbs, process_images. now rewrite Hi, bind_lift_OK, He.
Qed.

(** X6. The orb pipeline is not atomic: when the box of an orb detection
    cannot be read (raising [e]) and the codec has returned an image for
    every box of the orb detections that come before it, [process_orbs]
    raises [e] after it has cropped and saved each of them, twice, and it
    does nothing for the detections that come after it. *)
Theorem unreadable_box_keeps_earlier_crops
    (data : pyval) (image_dir output_dir : string) (image : Image)
    (before after : list pyval) (jobs : list (string * (Z * Z * Z * Z)))
    (x : pyval) (name : string) (e : exn) :
  load_image data image_dir = OK image ->
  extract_orb_annotations data = OK (before ++ x :: after) ->
  Forall2 (fun obj job =>
             getitem obj "name" = OK (PStr (fst job)) /\
             bndbox_ints obj = OK (snd job) /\ box_in_range (snd job) = true)
          before jobs ->
  (forall b, In b (map snd (flat_map (orb_boxes (image_size image)) jobs)) ->
             exists img, orb_image image b = OK img) ->
  getitem x "name" = OK (PStr name) ->
  bndbox_ints x = raise e ->
  let boxes := map snd (flat_map (orb_boxes (image_size image)) jobs) in
  let run := process_orbs data image_dir output_dir in
  fst run = raise e /\ crops_of (snd run) = boxes /\
  List.length (saved_paths (snd run)) = (2 * List.length before)%nat.
Proof.
  intros Hi Ho Hall Hok Hn Hb boxes run.
  pose proof (for_each_process_orb image output_dir _ _ Hall) as Hbefore.
  destruct (save_jobs_accepted image output_dir
              (flat_map (orb_boxes (image_size image)) jobs)) as (H1 & H2 & H3).
  { intros nb Hin. apply Hok. now apply in_map. }
  rewrite <- Hbefore in H1, H2, H3.
  destruct (for_each before (process_orb image output_dir)) as [r t] eqn:Erun.
  cbn [fst snd] in H1, H2, H3. subst r.
  assert (Hrun : run = (raise e, t)).
  { unfold run, process_orbs. rewrite Hi, bind_lift_OK, Ho, bind_lift_OK.
    rewrite (for_each_fails _ before x after e t [] Erun).
    - now rewrite app_nil_r.
    - unfold process_orb. destruct (image_size image) as [w h].
      now rewrite Hn, bind_lift_OK, Hb. }
  rewrite Hrun. cbn [fst snd]. split; [reflexivity|]. split; [exact H2|].
  rewrite H3. clear -Hall.
  induction Hall as [|obj [nm [[[xmin ymin] xmax] ymax]] orbs jobs _ _ IH]; [reflexivity|].
  cbn [flat_map orb_boxes app List.length]. rewrite IH. lia.
Qed.

(* =============================================================== *)
(** ** What the orb pipeline never does *)

Lemma save_orb_events image output_dir class_text b :
  Forall (fun ev => orb_event ev = true) (snd (save_orb image output_dir class_text b)).
Proof. unfold save_orb. events. Qed.

Lemma process_orb_events image output_dir obj :
  Forall (fun ev => orb_event ev = true) (snd (process_orb image output_dir obj)).
Proof.
  unfold process_orb. destruct (image_size image) as [w h].
  apply all_bind; [apply all_lift | intros class_text].
  apply all_bind; [apply all_lift | intros [[[xmin ymin] xmax] ymax]].
  apply all_bind; [apply save_orb_events | intros _].
  apply all_bind; [apply all_lift | intros expanded; apply save_orb_events].
Qed.

Lemma process_orbs_events data image_dir output_dir :
  Forall (fun ev => orb_event ev = true) (snd (process_orbs data image_dir output_dir)).
Proof.
  unfold process_orbs.
  apply all_bind; [apply all_lift | intros image].
  apply all_bind; [apply all_lift | intros orbs].
  apply all_for_each. intros obj. apply process_orb_events.
Qed.

(** X7. Whatever the record, and whether it ends well or raises,
    [process_orbs] does nothing but crop, resize, make directories and save
    files: every resize it asks for is to 64 x 64, it prints nothing (no
    file name, no notice, no help text), and it writes no manifest line. *)
Theorem process_orbs_only_crops_and_saves
    (data : pyval) (image_dir output_dir : string) :
  let trace := snd (process_orbs data image_dir output_dir) in
  Forall (fun ev => orb_event ev = true) trace /\
  (forall size, In (EvResize size) trace -> size = (64, 64)) /\
  printed trace = [] /\ csv_rows trace = [] /\ stdout trace = [].
Proof.
  intros trace. pose proof (process_orbs_events data image_dir output_dir) as H.
  fold trace in H. split; [exact H|]. clearbody trace. split; [|split; [|split]].
  - intros [w h] Hin. rewrite Forall_forall in H. specialize (H _ Hin).
    cbn in H. apply andb_true_iff in H as [Hw Hh].
    apply Z.eqb_eq in Hw, Hh. unfold ORB_SIZE in *. now subst.
  - induction H as [|ev t Hev _ IH]; [reflexivity|].
    destruct ev; try discriminate; cbn [printed]; auto.
  - induction H as [|ev t Hev _ IH]; [reflexivity|].
    destruct ev; try discriminate; cbn [csv_rows]; auto.
  - induction H as [|ev t Hev _ IH]; [reflexivity|].
    destruct ev; try discriminate; cbn [stdout]; auto.
Qed.

(* =============================================================== *)
(** ** The scene image is written before the declared size is read *)

(** X8. [process_images] writes the scene image before it reads the
    declared size: for a record that passes the count validation, whose
    scene image the codec returns, but whose ['size'] entry cannot be read
    (raising [e]), it raises [e] after the image has been resized and
    saved, and returns no row. *)
Theorem unreadable_size_raises_after_save
    (data : pyval) (image_dir output_dir : string) (image img : Image)
    (orbs : list pyval) (new_size : option (Z * Z)) (e : exn) :
  load_image data image_dir = OK image ->
  extract_orb_annotations data = OK orbs ->
  expected_orb_count (Z.of_nat (List.length orbs)) = true ->
  scaled_size (image_size image) = OK new_size ->
  scene_image image new_size = OK img ->
  declared_size data = raise e ->
  process_images data image_dir output_dir
  = (raise e, scene_trace img output_dir new_size) /\
  saved_paths (snd (process_images data image_dir output_dir))
  = [scene_path output_dir img].
Proof.
  intros Hi Ho Hc Hs Himg Hd.
  rewrite (process_images_accepted _ _ _ _ _ _ Hi Ho Hc Hs), Himg, Hd.
  split; [reflexivity|]. cbn [snd]. now destruct new_size.
Qed.

(** X9. A declared width or height of zero is not checked: for a record
    that passes the count validation, whose scene image the codec returns
    and whose orb detections have boxes that [float] reads,
    [process_images] raises [ZeroDivisionError] at the first detection,
    after the scene image has been saved, when the declared width is zero,
    and when the declared height is zero and the width is within the range
    of a double (beyond it, the division by the width raises
    [OverflowError] first). *)
Theorem zero_declared_size_raises_after_save
    (data : pyval) (image_dir output_dir : string) (image img : Image)
    (orbs : list pyval) (new_size : option (Z * Z)) (width height : Z)
    (boxes : list (F * F * F * F)) :
  load_image data image_dir = OK image ->
  extract_orb_annotations data = OK orbs ->
  expected_orb_count (Z.of_nat (List.length orbs)) = true ->
  scaled_size (image_size image) = OK new_size ->
  scene_image image new_size = OK img ->
  declared_size data = OK (width, height) ->
  Forall2 (fun obj b => bndbox_floats obj = OK b) orbs boxes ->
  width = 0 \/ (float_range width = true /\ height = 0) ->
  process_images data image_dir output_dir
  = (raise ZeroDivisionError, scene_trace img output_dir new_size).
Proof.
  intros Hi Ho Hc Hs Himg Hd Hall Hz.
  rewrite (process_images_accepted _ _ _ _ _ _ Hi Ho Hc Hs), Himg, Hd.
  cbn [rbind fst snd OK raise]. f_equal.
  destruct Hall as [|obj [[[xmin ymin] xmax] ymax] orbs boxes Hb _]; [discriminate|].
  destruct (bndbox_floats_inv _ _ _ _ _ Hb)
    as (bb & v1 & v2 & v3 & v4 & Hbb & G1 & I1 & G2 & I2 & G3 & I3 & G4 & I4).
  cbn [map_res]. unfold scene_row_of at 1.
  assert (Hzero : forall key v z, getitem bb key = OK v -> py_float v = OK z ->
            bndbox_coord obj key 0 = raise ZeroDivisionError).
  { intros key v z Hk Hv. unfold bndbox_coord. rewrite Hbb. cbn [rbind OK raise].
    rewrite Hk. cbn [rbind OK raise]. rewrite Hv. cbn [rbind OK raise].
    unfold py_div_int. now rewrite py_float_of_int_range by (now apply exact_in_range). }
  destruct (Z.eq_dec width 0) as [->|Hw].
  - now rewrite (Hzero _ _ _ G1 I1).
  - destruct Hz as [? | [Rw ->]]; [contradiction|].
    rewrite (bndbox_coord_run _ _ _ _ _ _ Hbb G1 I1 Hw Rw). cbn [rbind OK raise].
    now rewrite (Hzero _ _ _ G2 I2).
Qed.

End MoreProperties.

(* ================================================================= *)
(** ** Paths and text *)

Section StringFacts.
Implicit Types (s t p q r : string) (c : ascii).

Lemma append_assoc s t r : ((s ++ t) ++ r = s ++ (t ++ r))%string.
Proof. induction s as [|c s IH]; simpl; [reflexivity | now rewrite IH]. Qed.

Lemma append_nil_r s : (s ++ "")%string = s.
Proof. induction s as [|c s IH]; simpl; [reflexivity | now rewrite IH]. Qed.

Lemma prefix_nil s : String.prefix "" s = true.
Proof. now destruct s. Qed.

Lemma prefix_cons c p c' s :
  String.prefix (String c p) (String c' s) = true <-> c = c' /\ String.prefix p s = true.
Proof.
  simpl. destruct (ascii_dec c c') as [->|Hne]; intuition congruence.
Qed.

Lemma prefix_append p s : String.prefix p (p ++ s) = true.
Proof.
  induction p as [|c p IH]; [apply prefix_nil|].
  change (String.prefix (String c p) (String c (p ++ s)) = true).
  apply prefix_cons. now split.
Qed.

Lemma is_substring_step r c s :
  is_substring r (String c s) = String.prefix r (String c s) || is_substring r s.
Proof. reflexivity. Qed.

Lemma is_substring_nil r : is_substring r "" = String.prefix r "".
Proof. cbn [is_substring]. now rewrite orb_false_r. Qed.

Lemma prefix_is_substring r s : String.prefix r s = true -> is_substring r s = true.
Proof.
  destruct s as [|c s]; [now rewrite is_substring_nil|].
  rewrite is_substring_step. now intros ->.
Qed.

(** What contains [q ++ r] contains [r]. *)
Lemma prefix_drop q r s :
  String.prefix (q ++ r) s = true -> is_substring r s = true.
Proof.
  revert s. induction q as [|c q IH]; intros s.
  - apply prefix_is_substring.
  - destruct s as [|c' s]; [discriminate|].
    change (String c q ++ r)%string with (String c (q ++ r)).
    intros H. apply prefix_cons in H as [_ H].
    rewrite is_substring_step. rewrite (IH s H). apply orb_true_r.
Qed.

Lemma is_substring_drop q r s :
  is_substring (q ++ r) s = true -> is_substring r s = true.
Proof.
  induction s as [|c s IH].
  - rewrite is_substring_nil. apply prefix_drop.
  - rewrite is_substring_step. intros H. apply orb_true_iff in H as [H|H].
    + now apply prefix_drop in H.
    + rewrite is_substring_step, (IH H). apply orb_true_r.
Qed.

(** A text that ends with a separator, found at the head of [a ++ b] where
    [b] has no separator, lies within [a]. *)
Lemma prefix_sep_append p a b :
  no_sep b = true ->
  String.prefix (p ++ "/") (a ++ b) = true -> String.prefix (p ++ "/") a = true.
Proof.
  intros Hb. revert a. induction p as [|c p IH]; intros a H.
  - destruct a as [|c' a].
    + apply prefix_is_substring in H. unfold no_sep in Hb.
      cbn [String.append] in H. rewrite H in Hb. discriminate.
    + cbn [String.append] in *. apply prefix_cons in H as [-> _].
      apply prefix_cons. split; [reflexivity | apply prefix_nil].
  - destruct a as [|c' a].
    + cbn [String.append] in H.
      change (String c (p ++ "/"))%string with (String c p ++ "/")%string in H.
      apply prefix_drop in H. unfold no_sep in Hb. rewrite H in Hb. discriminate.
    + cbn [String.append] in *. apply prefix_cons in H as [-> H].
      apply prefix_cons. split; [reflexivity | now apply IH].
Qed.

Lemma is_substring_sep_append p a b :
  no_sep b = true ->
  is_substring (p ++ "/") (a ++ b) = true -> is_substring (p ++ "/") a = true.
Proof.
  intros Hb. induction a as [|c a IH]; intros H.
  - cbn [String.append] in H. apply is_substring_drop in H.
    unfold no_sep in Hb. rewrite H in Hb. discriminate.
  - cbn [String.append] in H. rewrite is_substring_step in *.
    apply orb_true_iff in H as [H|H].
    + change (String c (a ++ b)) with (String c a ++ b)%string in H.
      now rewrite (prefix_sep_append _ _ _ Hb H).
    + rewrite (IH H). apply orb_true_r.
Qed.

Lemma no_sep_append a b : no_sep a = true -> no_sep b = true -> no_sep (a ++ b) = true.
Proof.
  intros Ha Hb. unfold no_sep. apply negb_true_iff.
  destruct (is_substring "/" (a ++ b)) eqn:E; [|reflexivity].
  apply (is_substring_sep_append "" a b Hb) in E.
  unfold no_sep in Ha. cbn [String.append] in E. rewrite E in Ha. discriminate.
Qed.

Lemma ends_with_sep_append a b : b <> "" -> ends_with_sep (a ++ b) = ends_with_sep b.
Proof.
  intros Hb. induction a as [|c a IH]; [reflexivity|].
  cbn [String.append ends_with_sep]. rewrite IH.
  destruct (a ++ b)%string eqn:E; [|reflexivity].
  destruct a; [simpl in E; contradiction | discriminate].
Qed.

Lemma has_sep_of_ends q : ends_with_sep q = true -> is_substring "/" q = true.
Proof.
  induction q as [|c q IH]; [discriminate|].
  rewrite is_substring_step. cbn [ends_with_sep].
  destruct q as [|c' q].
  - intros H. apply Ascii.eqb_eq in H. subst c. reflexivity.
  - intros H. rewrite (IH H). apply orb_true_r.
Qed.

Lemma basename_no_sep r : no_sep r = true -> basename r = r.
Proof.
  unfold no_sep. intros H. apply negb_true_iff in H.
  destruct r as [|c r]; [reflexivity|]. cbn [basename]. now rewrite H.
Qed.

Lemma prefix_append_l r s t :
  String.prefix r s = true -> String.prefix r (s ++ t) = true.
Proof.
  revert s. induction r as [|c r IH]; intros s; [intros _; apply prefix_nil|].
  destruct s as [|c' s]; [discriminate|].
  cbn [String.append]. intros H. apply prefix_cons in H as [-> H].
  apply prefix_cons. split; [reflexivity | now apply IH].
Qed.

Lemma is_substring_append_l r s t :
  is_substring r s = true -> is_substring r (s ++ t) = true.
Proof.
  induction s as [|c s IH].
  - rewrite is_substring_nil. intros H.
    apply prefix_is_substring. now apply (prefix_append_l r "" t).
  - cbn [String.append]. rewrite !is_substring_step.
    intros H. apply orb_true_iff in H as [H|H].
    + apply (prefix_append_l _ _ t) in H. cbn [String.append] in H. now rewrite H.
    + rewrite (IH H). apply orb_true_r.
Qed.

(** The last component of a path: what follows a directory part that is
    empty or ends with a separator, when it holds no separator itself. *)
Lemma basename_append q r :
  q = "" \/ ends_with_sep q = true -> no_sep r = true -> basename (q ++ r) = r.
Proof.
  intros Hq Hr. induction q as [|c q IH].
  - now apply basename_no_sep.
  - destruct Hq as [Hq|Hq]; [discriminate|].
    cbn [String.append basename].
    assert (Hs : is_substring "/" (String c (q ++ r)) = true).
    { change (String c (q ++ r)) with (String c q ++ r)%string.
      apply is_substring_append_l. now apply has_sep_of_ends. }
    rewrite Hs. apply IH.
    destruct q as [|c' q]; [now left | right].
    exact Hq.
Qed.

Lemma path_join_plain a b :
  a <> "" -> ends_with_sep a = false -> starts_with "/" b = false ->
  path_join a b = (a ++ "/" ++ b)%string.
Proof.
  intros Ha He Hb. unfold path_join. rewrite Hb, He.
  apply String.eqb_neq in Ha. now rewrite Ha.
Qed.

(** A relative second component is appended to a directory part. *)
Lemma path_join_relative a b :
  starts_with "/" b = false ->
  exists q, path_join a b = (q ++ b)%string /\ (q = "" \/ ends_with_sep q = true).
Proof.
  intros Hb. unfold path_join. rewrite Hb.
  destruct (String.eqb a "") eqn:Ea; cbn [orb].
  - apply String.eqb_eq in Ea. subst a. exists "". auto.
  - destruct (ends_with_sep a) eqn:Ee.
    + exists a. auto.
    + exists (a ++ "/")%string. split; [now rewrite append_assoc|].
      right. now rewrite ends_with_sep_append.
Qed.

Lemma no_sep_relative b : no_sep b = true -> starts_with "/" b = false.
Proof.
  unfold no_sep, starts_with. intros H. apply negb_true_iff in H.
  destruct (String.prefix "/" b) eqn:E; [|reflexivity].
  apply prefix_is_substring in E. congruence.
Qed.

Lemma replace_skip old new u s :
  replace_from old new (String.length u) (u ++ s) = replace_from old new O s.
Proof. induction u as [|c u IH]; [reflexivity | exact IH]. Qed.

(** [s.replace(old, new)] on a text that begins with [old]. *)
Lemma replace_head old new s :
  old <> "" ->
  str_replace old new (old ++ s) = (new ++ str_replace old new s)%string.
Proof.
  intros Hold. destruct old as [|c old]; [contradiction|].
  unfold str_replace. cbn [String.append replace_from].
  change (String c (old ++ s)) with (String c old ++ s)%string.
  rewrite prefix_append. cbn [String.length]. rewrite Nat.sub_1_r. cbn [Nat.pred].
  now rewrite replace_skip.
Qed.

(** [s.replace(old, new)] on a text in which [old] does not occur. *)
Lemma replace_absent old new s :
  is_substring old s = false -> str_replace old new s = s.
Proof.
  unfold str_replace. induction s as [|c s IH]; [reflexivity|].
  rewrite is_substring_step. intros H. apply orb_false_iff in H as [Hp Hs].
  cbn [replace_from]. rewrite Hp. now rewrite (IH Hs).
Qed.

Lemma replace_from_length old skip s :
  (String.length (replace_from old "" skip s) <= String.length s)%nat.
Proof.
  revert skip. induction s as [|c s IH]; intros skip; [reflexivity|].
  cbn [replace_from String.length]. destruct skip as [|skip].
  - destruct (String.prefix old (String c s)).
    + cbn [String.append]. specialize (IH (String.length old - 1)%nat). lia.
    + cbn [String.length]. specialize (IH O). lia.
  - specialize (IH skip). lia.
Qed.

(** A text that [s.replace(old, '')] leaves as it is does not hold [old]. *)
Lemma replace_fixed old s :
  old <> "" -> str_replace old "" s = s -> is_substring old s = false.
Proof.
  intros Hold. unfold str_replace. induction s as [|c s IH].
  - intros _. destruct old; [contradiction | reflexivity].
  - rewrite is_substring_step. cbn [replace_from].
    destruct (String.prefix old (String c s)).
    + cbn [String.append]. intros H.
      pose proof (replace_from_length old (String.length old - 1) s) as Hlen.
      rewrite H in Hlen. cbn [String.length] in Hlen. lia.
    + intros [= H]. now rewrite (IH H).
Qed.

Lemma append_inj_l a x y : (a ++ x = a ++ y)%string -> x = y.
Proof. induction a as [|c a IH]; [easy|]. cbn [String.append]. intros [= H]. auto. Qed.

End StringFacts.

(* ================================================================= *)
(** ** The scene pipeline, record after record *)

Section Scenes.
Context {F : Type} {PF : PyFloat F} {Image : Type} {C : Codec F Image}.

#[local] Abbreviation Ev := (event F Image).

Lemma printed_app (t1 t2 : list Ev) : printed (t1 ++ t2) = printed t1 ++ printed t2.
Proof.
  induction t1 as [|ev t1 IH]; [reflexivity|].
  destruct ev; cbn [app printed]; now rewrite IH.
Qed.

Lemma logged_app (t1 t2 : list Ev) : logged (t1 ++ t2) = logged t1 ++ logged t2.
Proof.
  induction t1 as [|ev t1 IH]; [reflexivity|].
  destruct ev; cbn [app logged]; now rewrite IH.
Qed.

Lemma stdout_app (t1 t2 : list Ev) : stdout (t1 ++ t2) = stdout t1 ++ stdout t2.
Proof.
  induction t1 as [|ev t1 IH]; [reflexivity|].
  destruct ev; cbn [app stdout]; rewrite IH; reflexivity.
Qed.

(** A trace without a print, a notice and a help text prints nothing. *)
Lemma silent_trace (t : list Ev) :
  Forall (fun ev => match ev with
                    | EvPrint _ | EvSkip _ _ | EvHelp _ _ _ _ => False
                    | _ => True
                    end) t ->
  stdout t = [].
Proof.
  induction 1 as [|ev t Hev _ IH]; [reflexivity|].
  destruct ev; try contradiction; cbn [stdout]; exact IH.
Qed.

Lemma quiet_trace (t : list Ev) :
  Forall (fun ev => quiet_event ev = true) t -> printed t = [] /\ logged t = [].
Proof.
  induction 1 as [|ev t Hev _ [IH1 IH2]]; [now split|].
  destruct ev; try discriminate; cbn [printed logged]; now split.
Qed.

(** What [process_images] leaves behind, whatever the record: nothing,
    the notice of a skipped record, the request of a resize that the codec
    refuses, or the writing of one scene image. *)
Lemma process_images_trace data image_dir output_dir :
  let trace := snd (process_images data image_dir output_dir) in
  trace = [] \/
  (exists n name, trace = [EvSkip n name]) \/
  (exists new_size, trace = resize_trace new_size) \/
  (exists img new_size, trace = scene_trace img output_dir new_size).
Proof.
  cbv zeta.
  destruct (load_image data image_dir) as [e|image] eqn:Hi.
  { unfold process_images. rewrite Hi. now left. }
  destruct (extract_orb_annotations data) as [e|orbs] eqn:Ho.
  { unfold process_images. rewrite Hi, bind_lift_OK, Ho. now left. }
  destruct (load_image_filename _ _ _ Hi) as [fname Hn].
  destruct (expected_orb_count (Z.of_nat (List.length orbs))) eqn:Hc.
  - destruct (scaled_size (image_size image)) as [e|new_size] eqn:Hs.
    { unfold process_images. rewrite Hi, bind_lift_OK, Ho, bind_lift_OK, Hc.
      simpl negb. cbv iota. rewrite Hs. now left. }
    rewrite (process_images_accepted _ _ _ _ _ _ Hi Ho Hc Hs).
    destruct (scene_image image new_size) as [e|img]; cbn [snd]; eauto 6.
  - rewrite (process_images_skip _ _ _ _ _ _ Hi Ho Hn Hc). cbn [snd]. eauto.
Qed.

Lemma process_images_events data image_dir output_dir :
  Forall (fun ev => scene_event ev = true) (snd (process_images data image_dir output_dir)).
Proof.
  destruct (process_images_trace data image_dir output_dir)
    as [-> | [(n & name & ->) | [(new_size & ->) | (img & new_size & ->)]]];
    [constructor | repeat constructor | |];
    destruct new_size; repeat constructor.
Qed.

(** X10. Whatever the record, and whether it ends well or raises,
    [process_images] writes at most one file, into
    [output_dir/corrected_images], asks for at most one resize and for no
    crop, and writes no manifest line itself. It prints no file name; all
    it ever prints is the one notice of a record that it skips, and then it
    writes no file. *)
Theorem process_images_writes_at_most_one_file
    (data : pyval) (image_dir output_dir : string) :
  let trace := snd (process_images data image_dir output_dir) in
  crops_of trace = [] /\ csv_rows trace = [] /\ printed trace = [] /\
  (stdout trace = [] \/
   exists n name, stdout trace = [skip_notice n name] /\ saved_paths trace = []) /\
  (saved_paths trace = [] \/
   exists img, saved_paths trace = [scene_path output_dir img]) /\
  (List.length (filter (fun ev => match ev with EvResize _ => true | _ => false end)
                  trace) <= 1)%nat.
Proof.
  destruct (process_images_trace data image_dir output_dir)
    as [H | [(n & name & H) | [(new_size & H) | (img & new_size & H)]]];
    cbv zeta in *; rewrite H.
  - repeat split; auto.
  - repeat split; auto. right. now exists n, name.
  - destruct new_size; cbn; repeat split; auto.
  - destruct new_size; cbn; repeat split; eauto.
Qed.

Lemma scene_rows_path path width height orbs rows :
  map_res (scene_row_of path width height) orbs = OK rows ->
  Forall (fun row : scene_row F => row_path row = path) rows.
Proof.
  revert rows. induction orbs as [|obj orbs IH]; intros rows.
  - intros [= <-]. constructor.
  - cbn [map_res].
    destruct (scene_row_of path width height obj) as [e|row] eqn:Er;
      cbn [rbind OK raise]; [discriminate|].
    destruct (map_res (scene_row_of path width height) orbs) as [e|rs];
      cbn [rbind OK raise]; [discriminate|].
    intros [= <-]. constructor; [|now apply IH].
    unfold scene_row_of in Er.
    repeat match type of Er with
           | context [rbind ?x _] =>
               destruct x; cbn [rbind OK raise] in Er; [discriminate|]
           end.
    now injection Er as <-.
Qed.

(** The rows that [process_images] returns carry the path of the image it
    has saved. *)
Lemma process_images_rows data image_dir output_dir rows trace :
  process_images data image_dir output_dir = (OK rows, trace) ->
  rows = [] \/
  exists img,
    In (EvSave (scene_path output_dir img) img) trace /\
    Forall (fun row : scene_row F => row_path row = scene_path output_dir img) rows.
Proof.
  intros Hrun.
  destruct (process_images_inv _ _ _ _ _ Hrun)
    as (image & orbs & Hi & Ho & [[_ ->] | [Hc Hrest]]); [now left|].
  destruct Hrest as (new_size & img & width & height & Hs & Himg & Hd & -> & Hmap).
  right. exists img. split.
  - unfold scene_trace. apply in_or_app. right. right. now left.
  - exact (scene_rows_path _ _ _ _ _ Hmap).
Qed.

(** The address written for a scene image. *)
Lemma scene_image_address out bucket img :
  out <> "" -> ends_with_sep out = false ->
  is_substring (out ++ "/") "corrected_images/" = false ->
  no_sep (md5_hexdigest (image_tobytes img)) = true ->
  gcs_path out bucket (scene_path out img) = scene_address bucket (basename out) img.
Proof.
  intros Hne Hend Habs Hkey.
  set (key := md5_hexdigest (image_tobytes img)) in *.
  assert (Hfile : no_sep (key ++ ".png") = true) by (now apply no_sep_append).
  assert (Hpath : scene_path out img
                  = ((out ++ "/") ++ ("corrected_images/" ++ key ++ ".png"))%string).
  { unfold scene_path, content_path. fold key.
    rewrite (path_join_plain out "corrected_images" Hne Hend eq_refl).
    rewrite path_join_plain.
    - now rewrite !append_assoc.
    - destruct out; discriminate.
    - now rewrite ends_with_sep_append.
    - now apply no_sep_relative. }
  unfold gcs_path, scene_address. fold key. rewrite Hpath.
  rewrite replace_head by (destruct out; discriminate).
  rewrite replace_absent; [reflexivity|].
  destruct (is_substring (out ++ "/") ("corrected_images/" ++ key ++ ".png")) eqn:E;
    [|reflexivity].
  apply (is_substring_sep_append out "corrected_images/" (key ++ ".png") Hfile) in E.
  congruence.
Qed.

Lemma additive_rows out bucket folder :
  additive (rows_address_saved_scenes (F := F) (Image := Image) out bucket folder).
Proof.
  split; [intros cells []|].
  intros t1 t2 H1 H2 cells Hin. apply in_app_or in Hin as [Hin|Hin].
  - destruct (H1 cells Hin) as (img & Hs & Ha). exists img. split; [|exact Ha].
    apply in_or_app. now left.
  - destruct (H2 cells Hin) as (img & Hs & Ha). exists img. split; [|exact Ha].
    apply in_or_app. now right.
Qed.

Lemma screen_step_rows image_dir out bucket total idx file :
  out <> "" -> ends_with_sep out = false ->
  is_substring (out ++ "/") "corrected_images/" = false ->
  (forall bytes, no_sep (md5_hexdigest bytes) = true) ->
  rows_address_saved_scenes out bucket (basename out)
    (snd (screen_step image_dir out bucket total idx file)).
Proof.
  intros Hne Hend Habs Hkey. unfold screen_step.
  assert (Hnone : forall t : list Ev,
            Forall (fun ev => match ev with EvCsvRow _ => False | _ => True end) t ->
            rows_address_saved_scenes out bucket (basename out) t).
  { intros t Ht cells Hin. rewrite Forall_forall in Ht. now apply Ht in Hin. }
  apply trace_bind; [apply additive_rows | apply Hnone; now repeat constructor |].
  intros _. apply trace_bind; [apply additive_rows | |].
  { apply Hnone. destruct (idx mod 100 =? 0); now repeat constructor. }
  intros _. apply trace_bind; [apply additive_rows | apply Hnone; constructor |].
  intros data.
  destruct (process_images data image_dir out) as [[e|rows] t] eqn:Hrun.
  { apply Hnone. pose proof (process_images_events data image_dir out) as H.
    rewrite Hrun in H. eapply Forall_impl; [|exact H].
    intros ev. destruct ev; (discriminate || auto). }
  rewrite (bind_run _ _ _ _ eq_refl). rewrite for_each_emit. cbn [fst snd].
  pose proof (process_images_events data image_dir out) as Hev. rewrite Hrun in Hev.
  intros cells Hin. apply in_app_or in Hin as [Hin|Hin].
  { rewrite Forall_forall in Hev. apply Hev in Hin. discriminate. }
  apply in_map_iff in Hin as (row & [= <-] & Hrow).
  destruct (process_images_rows _ _ _ _ _ Hrun) as [-> | (img & Hsave & Hpath)];
    [contradiction|].
  exists img. split; [apply in_or_app; now left|].
  rewrite Forall_forall in Hpath. specialize (Hpath _ Hrow).
  unfold csv_row_of. cbn [nth]. rewrite Hpath. f_equal.
  now apply scene_image_address.
Qed.

Lemma do_screen_processing_rows image_dir out files bucket :
  out <> "" -> ends_with_sep out = false ->
  is_substring (out ++ "/") "corrected_images/" = false ->
  (forall bytes, no_sep (md5_hexdigest bytes) = true) ->
  rows_address_saved_scenes out bucket (basename out)
    (snd (do_screen_processing image_dir out files bucket)).
Proof.
  intros Hne Hend Habs Hkey. unfold do_screen_processing.
  assert (Hnone : forall t : list Ev,
            Forall (fun ev => match ev with EvCsvRow _ => False | _ => True end) t ->
            rows_address_saved_scenes out bucket (basename out) t).
  { intros t Ht cells Hin. rewrite Forall_forall in Ht. now apply Ht in Hin. }
  apply trace_bind; [apply additive_rows | apply Hnone; now repeat constructor |].
  intros _. apply trace_bind; [apply additive_rows | apply Hnone; now repeat constructor |].
  intros _. apply trace_bind; [apply additive_rows | |].
  - apply trace_for_each_from; [apply additive_rows|].
    intros idx file. now apply screen_step_rows.
  - intros _. apply Hnone. now repeat constructor.
Qed.

(** X11. Every line of the scene manifest points at a file of the same
    run: when the output directory is a plain path (not empty, without a
    final separator, and such that [output/] does not occur in
    ['corrected_images/']) and digests hold no separator, the second column
    of every line that [do_screen_processing] writes is
    [gs://bucket/folder/corrected_images/<md5>.png], where [folder] is the
    last component of the output directory and the file
    [output/corrected_images/<md5>.png] has been saved earlier in the
    run. *)
Theorem scene_manifest_addresses_saved_images
    (image_dir out : string) (files : list (string * xml)) (bucket : string) :
  out <> "" -> ends_with_sep out = false ->
  is_substring (out ++ "/") "corrected_images/" = false ->
  (forall bytes, no_sep (md5_hexdigest bytes) = true) ->
  rows_address_saved_scenes out bucket (basename out)
    (snd (do_screen_processing image_dir out files bucket)).
Proof. apply do_screen_processing_rows. Qed.

(** X22. The condition on the output directory cannot be dropped: when
    its name followed by a separator occurs in ['corrected_images/'], as
    for a directory named ['images'], the address written for a scene image
    is not the address of the file, because [str.replace] takes out every
    occurrence of [output/], not only the leading one. *)
Theorem output_name_within_corrected_images_breaks_addresses
    (out bucket : string) (img : Image) (row : scene_row F) :
  out <> "" -> ends_with_sep out = false ->
  is_substring (out ++ "/") "corrected_images/" = true ->
  no_sep (md5_hexdigest (image_tobytes img)) = true ->
  row_path row = scene_path out img ->
  nth 1 (csv_row_of out bucket (basename out) row) (CText "")
  <> CText (scene_address bucket (basename out) img).
Proof.
  intros Hne Hend Hocc Hkey Hrow. unfold csv_row_of. cbn [nth]. rewrite Hrow.
  set (key := md5_hexdigest (image_tobytes img)) in *.
  assert (Hfile : no_sep (key ++ ".png") = true) by (now apply no_sep_append).
  assert (Hpath : scene_path out img
                  = ((out ++ "/") ++ ("corrected_images/" ++ key ++ ".png"))%string).
  { unfold scene_path, content_path. fold key.
    rewrite (path_join_plain out "corrected_images" Hne Hend eq_refl).
    rewrite path_join_plain.
    - now rewrite !append_assoc.
    - destruct out; discriminate.
    - now rewrite ends_with_sep_append.
    - now apply no_sep_relative. }
  rewrite Hpath. unfold scene_address. fold key.
  assert (Hold : (out ++ "/")%string <> "") by (destruct out; discriminate).
  rewrite (replace_head _ _ _ Hold). cbn [String.append]. intros [= H].
  apply append_inj_l in H. injection H as H.
  apply append_inj_l in H. injection H as H.
  apply (replace_fixed _ _ Hold) in H.
  pose proof (is_substring_append_l _ _ (key ++ ".png") Hocc) as Hin.
  cbn [String.append] in Hin. congruence.
Qed.

(* =============================================================== *)
(** ** A record that fails *)

Lemma screen_step_events image_dir out bucket total idx file :
  Forall (fun ev => record_event ev = true)
    (snd (screen_step image_dir out bucket total idx file)).
Proof.
  unfold screen_step.
  apply all_bind; [now apply all_emit | intros _].
  apply all_bind; [destruct (idx mod 100 =? 0); events | intros _].
  apply all_bind; [apply all_lift | intros data].
  apply all_bind.
  - eapply Forall_impl; [|apply process_images_events].
    intros ev. destruct ev; (discriminate || auto).
  - intros rows. apply all_for_each. intros item. now apply all_emit.
Qed.

(** X12. The scene manifest is opened before any annotation is read and
    is not atomic: when the record of some file fails (raising [e]),
    [do_screen_processing] raises [e]; the directory and the manifest have
    been created, the lines of the files before it stay written, the
    files after it are not read, and the help text is not printed. *)
Theorem failing_record_stops_screen_processing
    (image_dir out bucket : string) (before after : list (string * xml))
    (file : string * xml) (e : exn) (t t' : list Ev) :
  let files := before ++ file :: after in
  let step := screen_step image_dir out bucket (Z.of_nat (List.length files)) in
  for_each_from 0 before step = (OK tt, t) ->
  step (Z.of_nat (List.length before)) file = (raise e, t') ->
  do_screen_processing image_dir out files bucket
  = (raise e,
     [EvMakedirs out; EvCsvOpen (path_join out "screen_data.csv")] ++ t ++ t') /\
  Forall (fun ev => record_event ev = true) (t ++ t').
Proof.
  intros files step Hbefore Hfile.
  pose proof (for_each_from_fails step before file after e t t' 0 Hbefore Hfile) as Hloop.
  subst files step. split.
  - unfold do_screen_processing. rewrite !bind_emit.
    now rewrite (bind_fail _ _ _ _ Hloop).
  - apply Forall_app. split.
    + replace t with (snd (for_each_from 0 before
                             (screen_step image_dir out bucket
                                (Z.of_nat (List.length (before ++ file :: after))))))
        by now rewrite Hbefore.
      apply all_for_each_from. intros i f. apply screen_step_events.
    + replace t' with (snd (screen_step image_dir out bucket
                              (Z.of_nat (List.length (before ++ file :: after)))
                              (Z.of_nat (List.length before)) file))
        by now rewrite Hfile.
      apply screen_step_events.
Qed.

(* =============================================================== *)
(** ** Progress *)

Lemma progress_indices_step (k n : nat) :
  progress_indices k (Datatypes.S n)
  = (if Z.of_nat k mod 100 =? 0 then [Z.of_nat k] else [])
    ++ progress_indices (Datatypes.S k) n.
Proof.
  unfold progress_indices. cbn [seq map filter].
  now destruct (Z.of_nat k mod 100 =? 0).
Qed.

Lemma progress_step (body : M Ev unit) (total idx : Z) (name : string) :
  (emit (EvPrint name) ;;
   (if idx mod 100 =? 0 then emit (EvLog idx total) else ret tt) ;;
   body)%M
  = (fst body,
     EvPrint name :: (if idx mod 100 =? 0 then [EvLog idx total] else []) ++ snd body).
Proof.
  rewrite bind_emit. cbv beta.
  destruct (idx mod 100 =? 0); [rewrite bind_emit | rewrite bind_ret]; reflexivity.
Qed.

(** A loop that prints the name of each file and logs every hundredth
    index before a body that does neither. *)
Lemma progress_of_loop (body : string * xml -> M Ev unit) (total : Z) :
  (forall file, Forall (fun ev => quiet_event ev = true) (snd (body file))) ->
  forall files k t,
    for_each_from (Z.of_nat k) files
      (fun idx file =>
         (emit (EvPrint (fst file)) ;;
          (if idx mod 100 =? 0 then emit (EvLog idx total) else ret tt) ;;
          body file)%M)
    = (OK tt, t) ->
    printed t = map fst files /\
    logged t = map (fun i => (i, total)) (progress_indices k (List.length files)).
Proof.
  intros Hbody files. induction files as [|file files IH]; intros k t.
  - intros [= <-]. now split.
  - cbn [for_each_from]. rewrite progress_step.
    pose proof (Hbody file) as Hq.
    destruct (body file) as [[e|[]] tb]; cbn [fst snd] in *; [discriminate|].
    apply quiet_trace in Hq as [Hp Hl].
    rewrite (bind_run _ _ _ _ eq_refl).
    replace (Z.of_nat k + 1) with (Z.of_nat (Datatypes.S k)) by lia.
    destruct (for_each_from (Z.of_nat (Datatypes.S k)) files _) as [[e|[]] tr] eqn:Er;
      cbn [fst snd]; [discriminate|].
    destruct (IH _ _ Er) as [IHp IHl].
    intros [= <-]. cbn [List.length map]. rewrite progress_indices_step.
    cbn [app printed logged].
    rewrite ?printed_app, ?logged_app, Hp, Hl, IHp, IHl.
    rewrite map_app.
    split; [now destruct (Z.of_nat k mod 100 =? 0)|].
    now destruct (Z.of_nat k mod 100 =? 0).
Qed.

(** What such a loop prints when its body prints nothing. *)
Lemma stdout_of_loop (body : string * xml -> M Ev unit) (total : Z) :
  (forall file, stdout (snd (body file)) = []) ->
  forall files idx t,
    for_each_from idx files
      (fun idx file =>
         (emit (EvPrint (fst file)) ;;
          (if idx mod 100 =? 0 then emit (EvLog idx total) else ret tt) ;;
          body file)%M)
    = (OK tt, t) ->
    stdout t = map fst files.
Proof.
  intros Hbody files. induction files as [|file files IH]; intros idx t.
  - now intros [= <-].
  - cbn [for_each_from]. rewrite progress_step.
    pose proof (Hbody file) as Hq.
    destruct (body file) as [[e|[]] tb]; cbn [fst snd] in *; [discriminate|].
    rewrite (bind_run _ _ _ _ eq_refl).
    destruct (for_each_from (idx + 1) files _) as [[e|[]] tr] eqn:Er;
      cbn [fst snd]; [discriminate|].
    intros [= <-]. cbn [app stdout map]. rewrite !stdout_app, Hq, (IH _ _ Er).
    now destruct (idx mod 100 =? 0).
Qed.

(** X13. A run of [do_screen_processing] that ends well has printed the
    name of every annotation file, in order, and has logged its progress
    at every hundredth file from the first, with the number of files. *)
Theorem screen_processing_reports_progress
    (image_dir out : string) (files : list (string * xml)) (bucket : string) :
  fst (do_screen_processing image_dir out files bucket) = OK tt ->
  let trace := snd (do_screen_processing image_dir out files bucket) in
  printed trace = map fst files /\
  logged trace
  = map (fun i => (i, Z.of_nat (List.length files)))
      (progress_indices 0 (List.length files)).
Proof.
  unfold do_screen_processing. rewrite !bind_emit. cbn [fst snd printed logged].
  set (total := Z.of_nat (List.length files)).
  destruct (for_each_from 0 files (screen_step image_dir out bucket total))
    as [[e|[]] t] eqn:Eloop; [discriminate|].
  intros _. rewrite (bind_run _ _ _ _ eq_refl). cbn [fst snd emit].
  rewrite printed_app, logged_app. cbn [printed logged]. rewrite !app_nil_r.
  apply (progress_of_loop
           (fun file =>
              (data <- lift (load_annotations (snd file)) ;;
               results <- process_images data image_dir out ;;
               for_each results
                 (fun item =>
                    emit (EvCsvRow (csv_row_of out bucket (basename out) item))))%M)
           total) with (k := O); [|exact Eloop].
  intros file. apply all_bind; [apply all_lift | intros data].
  apply all_bind.
  - eapply Forall_impl; [|apply process_images_events].
    intros ev. destruct ev; (discriminate || auto).
  - intros rows. apply all_for_each. intros item. now apply all_emit.
Qed.

End Scenes.

(* ================================================================= *)
(** ** The orb pipeline, record after record, and its manifest *)

Section Orbs.
Context {F : Type} {PF : PyFloat F} {Image : Type} {C : Codec F Image}
        {S : Store F Image}.

#[local] Abbreviation Ev := (event F Image).

Lemma orb_step_events image_dir out total idx file :
  Forall (fun ev : Ev => manifest_event ev = false)
    (snd (orb_step image_dir out total idx file)).
Proof.
  unfold orb_step.
  apply all_bind; [now apply all_emit | intros _].
  apply all_bind; [destruct (idx mod 100 =? 0); events | intros _].
  apply all_bind; [apply all_lift | intros data].
  eapply Forall_impl; [|apply process_orbs_events].
  intros ev. destruct ev; (discriminate || auto).
Qed.

(** X14. The orb manifest is written only when every record has been
    cropped: when the record of some file fails (raising [e]),
    [do_orb_processing] raises [e] after the crops of the files before it,
    without reading the files after it, and it neither opens the manifest
    nor prints the help text. *)
Theorem failing_record_leaves_no_orb_manifest
    (image_dir out bucket : string) (before after : list (string * xml))
    (file : string * xml) (e : exn) (t t' : list Ev) :
  let files := before ++ file :: after in
  let step := orb_step image_dir out (Z.of_nat (List.length files)) in
  for_each_from 0 before step = (OK tt, t) ->
  step (Z.of_nat (List.length before)) file = (raise e, t') ->
  do_orb_processing image_dir out files bucket = (raise e, t ++ t') /\
  Forall (fun ev => manifest_event ev = false) (t ++ t').
Proof.
  intros files step Hbefore Hfile.
  pose proof (for_each_from_fails step before file after e t t' 0 Hbefore Hfile) as Hloop.
  subst files step. split.
  - unfold do_orb_processing. cbv zeta. now rewrite Hloop.
  - replace (t ++ t') with (snd (for_each_from 0 (before ++ file :: after)
                                   (orb_step image_dir out
                                      (Z.of_nat (List.length (before ++ file :: after))))))
      by now rewrite Hloop.
    apply all_for_each_from. intros i f. apply orb_step_events.
Qed.

(** X15. Nothing in [do_orb_processing] makes the output directory
    itself: when every record has been cropped but the manifest cannot be
    opened (raising [e], as when no crop was written and the directory is
    missing), it raises [e] with the crops done, without a manifest line
    and without the help text. *)
Theorem unopened_orb_manifest_raises
    (image_dir out bucket : string) (files : list (string * xml))
    (e : exn) (t : list Ev) :
  for_each_from 0 files (orb_step image_dir out (Z.of_nat (List.length files)))
  = (OK tt, t) ->
  open_w t (path_join out "orb_data.csv") = raise e ->
  do_orb_processing image_dir out files bucket = (raise e, t) /\
  Forall (fun ev => manifest_event ev = false) t.
Proof.
  intros Hloop Hopen. split.
  - unfold do_orb_processing. cbv zeta. rewrite Hloop. rewrite (bind_run _ _ _ _ eq_refl).
    unfold orb_manifest. cbn [snd]. rewrite Hopen, bind_lift_raise.
    cbn [fst snd]. now rewrite app_nil_r.
  - replace t with (snd (for_each_from 0 files
                           (orb_step image_dir out (Z.of_nat (List.length files)))))
      by now rewrite Hloop.
    apply all_for_each_from. intros i f. apply orb_step_events.
Qed.

(** The loop over the entries of the output directory. *)
Lemma label_rows (store : list Ev) out bucket last labels (listing : string -> list string) :
  (forall label, In label labels -> isdir store (path_join out label) = true ->
     listdir store (path_join out label) = OK (listing label)) ->
  for_each labels
    (fun label =>
       if negb (isdir store (path_join out label)) then ret tt
       else
         (orb_filenames <- lift (listdir store (path_join out label)) ;;
          for_each orb_filenames
            (fun orb_filename =>
               emit (E := Ev) (EvCsvRow (orb_csv_row bucket last label orb_filename))))%M)
  = (OK tt,
     map (EvCsvRow (F := F) (Image := Image))
       (flat_map (fun label =>
                    if isdir store (path_join out label)
                    then map (orb_csv_row bucket last label) (listing label)
                    else []) labels)).
Proof.
  induction labels as [|label labels IH]; intros Hl; [reflexivity|].
  cbn [for_each flat_map]. rewrite map_app.
  rewrite IH by (intros l Hin; apply Hl; now right).
  destruct (isdir store (path_join out label)) eqn:Ed; cbn [negb].
  - rewrite (Hl label (or_introl eq_refl) Ed), bind_lift_OK, for_each_emit.
    rewrite (bind_run _ _ _ _ eq_refl). cbn [fst snd]. now rewrite map_map.
  - now rewrite bind_ret.
Qed.

(** X16. When every record has been cropped and the store answers, the
    orb manifest holds one line for every file of every entry of the
    output directory that is a directory, in the order of the listings:
    the file's address [gs://bucket/folder/label/file], where [folder] is
    the last component of the output directory, and the label. Entries
    that are not directories, as the manifest itself, give no line. The
    help text is printed last. *)
Theorem orb_manifest_lists_label_directories
    (image_dir out bucket : string) (files : list (string * xml))
    (t : list Ev) (labels : list string) (listing : string -> list string) :
  let csv := path_join out "orb_data.csv" in
  let store := t ++ [EvCsvOpen csv] in
  for_each_from 0 files (orb_step image_dir out (Z.of_nat (List.length files)))
  = (OK tt, t) ->
  open_w t csv = OK tt ->
  listdir store out = OK labels ->
  (forall label, In label labels -> isdir store (path_join out label) = true ->
     listdir store (path_join out label) = OK (listing label)) ->
  do_orb_processing image_dir out files bucket
  = (OK tt,
     t ++ [EvCsvOpen csv]
     ++ map (EvCsvRow (F := F) (Image := Image))
          (flat_map (fun label =>
                       if isdir store (path_join out label)
                       then map (orb_csv_row bucket (basename out) label) (listing label)
                       else []) labels)
     ++ [EvHelp out bucket (basename out) "orb_data.csv"]).
Proof.
  intros csv store Hloop Hopen Hlabels Hlisting.
  unfold do_orb_processing. cbv zeta. rewrite Hloop. rewrite (bind_run _ _ _ _ eq_refl).
  unfold orb_manifest. cbn [snd]. fold csv. rewrite Hopen, bind_lift_OK, bind_emit.
  fold store. rewrite Hlabels, bind_lift_OK.
  rewrite (bind_run _ _ _ _ (label_rows store out bucket (basename out) labels listing
                               Hlisting)).
  reflexivity.
Qed.

Lemma orb_manifest_events done out bucket :
  Forall (fun ev : Ev =>
            match ev with
            | EvCsvRow cells =>
                exists label name, cells = orb_csv_row bucket (basename out) label name
            | _ => True
            end)
    (snd (orb_manifest done out bucket)).
Proof.
  unfold orb_manifest.
  apply all_bind; [apply all_lift | intros _].
  apply all_bind; [now apply all_emit | intros _].
  apply all_bind; [apply all_lift | intros labels].
  apply all_bind; [|intros _; now apply all_emit].
  apply all_for_each. intros label.
  destruct (isdir _ _); cbn [negb]; [|apply all_ret].
  apply all_bind; [apply all_lift | intros names].
  apply all_for_each. intros name. apply all_emit. eauto.
Qed.

Lemma do_orb_processing_events image_dir out files bucket :
  Forall (fun ev : Ev =>
            match ev with
            | EvCsvRow cells =>
                exists label name, cells = orb_csv_row bucket (basename out) label name
            | _ => True
            end)
    (snd (do_orb_processing image_dir out files bucket)).
Proof.
  unfold do_orb_processing. cbv zeta.
  apply all_bind; [|intros _; apply orb_manifest_events].
  eapply Forall_impl; [|apply all_for_each_from; intros i f; apply orb_step_events].
  intros ev. destruct ev; (discriminate || auto).
Qed.

(** A manifest that is written to its end prints the help text, and
    nothing else. *)
Lemma orb_manifest_stdout (done : list Ev) out bucket :
  fst (orb_manifest done out bucket) = OK tt ->
  stdout (snd (orb_manifest done out bucket))
  = print_gsutil_help out bucket (basename out) "orb_data.csv".
Proof.
  unfold orb_manifest.
  destruct (open_w done (path_join out "orb_data.csv")) as [e|[]]; [discriminate|].
  rewrite bind_lift_OK, bind_emit. cbv beta.
  destruct (listdir _ out) as [e|labels]; [discriminate|].
  rewrite bind_lift_OK.
  match goal with |- context [bind ?l _] => set (loop := l) end.
  assert (Hloop : stdout (snd loop) = []).
  { apply silent_trace. unfold loop. apply all_for_each. intros label.
    destruct (isdir _ _); cbn [negb]; [|apply all_ret].
    apply all_bind; [apply all_lift | intros names].
    apply all_for_each. intros name. now apply all_emit. }
  destruct loop as [[e|[]] tl]; [discriminate|]. intros _.
  rewrite (bind_run _ _ _ _ eq_refl). cbn [fst snd emit stdout] in *.
  rewrite stdout_app, Hloop. cbn [stdout app]. now rewrite app_nil_r.
Qed.

(** X17. A run of [do_orb_processing] that ends well has printed the name
    of every annotation file, in order, and then the six lines of the help
    text, and nothing else; and it has logged its progress at every
    hundredth file from the first, with the number of files. *)
Theorem orb_processing_reports_progress
    (image_dir out : string) (files : list (string * xml)) (bucket : string) :
  fst (do_orb_processing image_dir out files bucket) = OK tt ->
  let trace := snd (do_orb_processing image_dir out files bucket) in
  stdout trace
  = map fst files ++ print_gsutil_help out bucket (basename out) "orb_data.csv" /\
  printed trace = map fst files /\
  logged trace
  = map (fun i => (i, Z.of_nat (List.length files)))
      (progress_indices 0 (List.length files)).
Proof.
  unfold do_orb_processing. cbv zeta.
  set (total := Z.of_nat (List.length files)).
  destruct (for_each_from 0 files (orb_step image_dir out total))
    as [[e|[]] t] eqn:Eloop; [discriminate|].
  rewrite (bind_run _ _ _ _ eq_refl). cbn [fst snd]. intros Hok.
  assert (Hquiet : Forall (fun ev : Ev => quiet_event ev = true)
                     (snd (orb_manifest t out bucket))).
  { unfold orb_manifest.
    apply all_bind; [apply all_lift | intros _].
    apply all_bind; [now apply all_emit | intros _].
    apply all_bind; [apply all_lift | intros labels].
    apply all_bind; [|intros _; now apply all_emit].
    apply all_for_each. intros label.
    destruct (isdir _ _); cbn [negb]; [|apply all_ret].
    apply all_bind; [apply all_lift | intros names].
    apply all_for_each. intros name. now apply all_emit. }
  apply quiet_trace in Hquiet as [Hp Hl].
  rewrite stdout_app, printed_app, logged_app, Hp, Hl, !app_nil_r.
  rewrite (orb_manifest_stdout _ _ _ Hok).
  assert (Hbody : forall file : string * xml,
            Forall (fun ev : Ev => orb_event ev = true)
              (snd (data <- lift (load_annotations (snd file)) ;;
                    process_orbs data image_dir out)%M)).
  { intros file. apply all_bind; [apply all_lift | intros data].
    apply process_orbs_events. }
  split.
  - f_equal.
    apply (stdout_of_loop
             (fun file =>
                (data <- lift (load_annotations (snd file)) ;;
                 process_orbs data image_dir out)%M)
             total) with (idx := 0); [|exact Eloop].
    intros file. apply silent_trace.
    eapply Forall_impl; [|apply Hbody]. intros ev. destruct ev; (discriminate || auto).
  - apply (progress_of_loop
             (fun file =>
                (data <- lift (load_annotations (snd file)) ;;
                 process_orbs data image_dir out)%M)
             total) with (k := O); [|exact Eloop].
    intros file. eapply Forall_impl; [|apply Hbody].
    intros ev. destruct ev; (discriminate || auto).
Qed.

(* =============================================================== *)
(** ** The whole run *)

Lemma main_shape (count : Z) (orbs scenes : M Ev unit) :
  (emit (EvProcessing count) ;;
   emit (EvRun (EvPrint "starting orb processing")) ;;
   run orbs ;;
   emit (EvRun (EvPrint "starting screen processing")) ;;
   run scenes)%M
  = (match fst orbs with
     | inl e => inl e
     | inr _ => fst scenes
     end,
     [EvProcessing count; EvRun (EvPrint "starting orb processing")]
     ++ map EvRun (snd orbs)
     ++ match fst orbs with
        | inl _ => []
        | inr _ => EvRun (EvPrint "starting screen processing") :: map EvRun (snd scenes)
        end).
Proof.
  destruct orbs as [[e|[]] to]; destruct scenes as [rs ts];
    unfold bind, emit, run, OK; cbn [fst snd app]; now rewrite ?app_nil_r.
Qed.

Lemma main_trace (FLAGS : flags) (glob : string -> list (string * xml)) :
  let files := glob (path_join (annotations_dir FLAGS) "*.xml") in
  let bucket := path_join (bucket_path FLAGS) "orbs" in
  let orbs := do_orb_processing (data_dir FLAGS)
                (path_join (output_path FLAGS) "extracted_orb_images") files bucket in
  let scenes := do_screen_processing (data_dir FLAGS)
                  (path_join (output_path FLAGS) "orbs_in_screens") files bucket in
  main FLAGS glob
  = (match fst orbs with
     | inl e => inl e
     | inr _ => fst scenes
     end,
     [EvProcessing (Z.of_nat (List.length files));
      EvRun (EvPrint "starting orb processing")]
     ++ map EvRun (snd orbs)
     ++ match fst orbs with
        | inl _ => []
        | inr _ => EvRun (EvPrint "starting screen processing") :: map EvRun (snd scenes)
        end).
Proof. intros files bucket orbs scenes. apply main_shape. Qed.

(** X18. [main] runs the orb pipeline to its end before the scene
    pipeline starts: when the orb pipeline raises [e], [main] raises [e],
    and it has done nothing but log the number of files, print that the
    orb processing starts, and what the orb pipeline did; no scene is
    prepared. *)
Theorem failed_orb_pipeline_stops_main
    (FLAGS : flags) (glob : string -> list (string * xml)) (e : exn) (t : list Ev) :
  let files := glob (path_join (annotations_dir FLAGS) "*.xml") in
  do_orb_processing (data_dir FLAGS)
    (path_join (output_path FLAGS) "extracted_orb_images") files
    (path_join (bucket_path FLAGS) "orbs")
  = (raise e, t) ->
  main FLAGS glob
  = (raise e,
     EvProcessing (Z.of_nat (List.length files))
     :: EvRun (EvPrint "starting orb processing") :: map EvRun t).
Proof.
  intros files Horbs. rewrite main_trace. fold files. rewrite Horbs. cbn [fst snd].
  now rewrite app_nil_r.
Qed.

(** X19. Every manifest line written in a run of [main] points into the
    bucket folder ['orbs'], whatever the flags: a line of the orb manifest
    is [gs://bucket/orbs/extracted_orb_images/label/file] with its label,
    and, when digests hold no separator, the second column of a line of
    the scene manifest is
    [gs://bucket/orbs/orbs_in_screens/corrected_images/<md5>.png] for a
    scene image that the run has saved under
    [output/orbs_in_screens/corrected_images]. *)
Theorem main_manifests_point_into_bucket
    (FLAGS : flags) (glob : string -> list (string * xml)) :
  (forall bytes, no_sep (md5_hexdigest bytes) = true) ->
  let bucket := path_join (bucket_path FLAGS) "orbs" in
  let trace := snd (main FLAGS glob) in
  forall cells, In (EvRun (EvCsvRow cells)) trace ->
  (exists label name, cells = orb_csv_row bucket "extracted_orb_images" label name) \/
  (exists img,
     In (EvRun (EvSave (scene_path (path_join (output_path FLAGS) "orbs_in_screens") img)
                  img)) trace /\
     nth 1 cells (CText "") = CText (scene_address bucket "orbs_in_screens" img)).
Proof.
  intros Hkey bucket trace cells Hin. unfold trace in *. clear trace.
  rewrite main_trace in *. cbv zeta in *. fold bucket in Hin |- *. cbn [snd app] in *.
  set (files := glob (path_join (annotations_dir FLAGS) "*.xml")) in *.
  set (orb_out := path_join (output_path FLAGS) "extracted_orb_images") in *.
  set (out := path_join (output_path FLAGS) "orbs_in_screens") in *.
  destruct (path_join_relative (output_path FLAGS) "extracted_orb_images" eq_refl)
    as (q1 & E1 & Hq1).
  destruct (path_join_relative (output_path FLAGS) "orbs_in_screens" eq_refl)
    as (q2 & E2 & Hq2).
  assert (B1 : basename orb_out = "extracted_orb_images").
  { unfold orb_out. rewrite E1. now apply basename_append. }
  assert (B2 : basename out = "orbs_in_screens").
  { unfold out. rewrite E2. now apply basename_append. }
  destruct Hin as [Hin|[Hin|Hin]]; try discriminate.
  apply in_app_or in Hin as [Hin|Hin].
  - left. apply in_map_iff in Hin as (ev & [= ->] & Hin).
    pose proof (do_orb_processing_events (data_dir FLAGS) orb_out files bucket) as Hall.
    rewrite Forall_forall in Hall. specialize (Hall _ Hin). cbv beta iota in Hall.
    now rewrite B1 in Hall.
  - right. destruct (fst (do_orb_processing (data_dir FLAGS) orb_out files bucket));
      [contradiction|].
    destruct Hin as [Hin|Hin]; [discriminate|].
    apply in_map_iff in Hin as (ev & [= ->] & Hin).
    assert (Hrows : rows_address_saved_scenes out bucket (basename out)
                      (snd (do_screen_processing (data_dir FLAGS) out files bucket))).
    { apply do_screen_processing_rows; [| | |exact Hkey].
      - unfold out. rewrite E2. destruct q2; discriminate.
      - unfold out. rewrite E2. now rewrite ends_with_sep_append.
      - unfold out. rewrite E2, append_assoc.
        destruct (is_substring (q2 ++ "orbs_in_screens" ++ "/") "corrected_images/")
          eqn:E; [|reflexivity].
        apply is_substring_drop in E. discriminate. }
    destruct (Hrows cells Hin) as (img & Hsave & Haddr).
    exists img. rewrite B2 in Haddr. split; [|exact Haddr].
    right. right. apply in_or_app. right. right. apply in_map_iff. eauto.
Qed.

End Orbs.

(* ================================================================= *)
(** ** The expanded box, whatever the annotated box *)

Section Clamps.
Context {F : Type} {PF : PyFloat F} {laws : PyFloatOrder F}.

(** X20. Whatever the annotated box, also one that runs past the image or
    is turned around, the expanded box is cut at the image on one side per
    edge: it never starts before the origin and never ends beyond the
    width and the height of the image. (Its other sides are not cut: it
    may start beyond the width or end before the origin.) *)
Theorem expanded_box_is_cut_at_the_image
    (width height xmin ymin xmax ymax : Z) :
  0 <= width < 2 ^ 53 -> 0 <= height < 2 ^ 53 ->
  let b := expanded_box (F := F) width height xmin ymin xmax ymax in
  fleb (of_int 0) (bxmin b) = true /\ fleb (of_int 0) (bymin b) = true /\
  fleb (bxmax b) (of_int width) = true /\ fleb (bymax b) (of_int height) = true.
Proof.
  intros Hw Hh b. unfold b, expanded_box. cbn [bxmin bymin bxmax bymax].
  repeat split; first [apply py_max0_nonneg | now apply py_min_le].
Qed.

End Clamps.

(* ================================================================= *)
(** ** Class names that are paths *)

Section ClassNames.
Context {F : Type} {PF : PyFloat F} {Image : Type} {C : Codec F Image}.

(** X24. The class name of a detection is used as a directory name as it
    is: when it is an absolute path, [os.path.join] drops the output
    directory, and both crops of the detection are written under the class
    name itself, whatever the output directory. *)
Theorem absolute_class_name_ignores_output_dir
    (image : Image) (obj : pyval) (name out1 out2 : string) :
  getitem obj "name" = OK (PStr name) ->
  starts_with "/" name = true ->
  process_orb image out1 obj = process_orb image out2 obj /\
  forall p img, In (EvSave p img) (snd (process_orb image out1 obj)) ->
    p = content_path name (image_tobytes img).
Proof.
  intros Hn Habs.
  assert (Hjoin : forall out, path_join out name = name)
    by (intros out; unfold path_join; now rewrite Habs).
  assert (Hsave : forall out b,
            save_orb image out (PStr name) b = save_orb image "" (PStr name) b).
  { intros out b. rewrite !save_orb_run. unfold save_orb_trace. now rewrite !Hjoin. }
  assert (Hrun : forall out, process_orb image out obj = process_orb image "" obj).
  { intros out. unfold process_orb. destruct (image_size image) as [w h].
    rewrite Hn, !bind_lift_OK.
    destruct (bndbox_ints obj) as [e|[[[xmin ymin] xmax] ymax]]; [reflexivity|].
    rewrite !bind_lift_OK, (Hsave out). f_equal.
    destruct (expand_box w h xmin ymin xmax ymax) as [e|expanded]; [reflexivity|].
    now rewrite !bind_lift_OK, (Hsave out). }
  split; [now rewrite (Hrun out1), (Hrun out2)|].
  intros p img. unfold process_orb. destruct (image_size image) as [w h].
  rewrite Hn, bind_lift_OK.
  destruct (bndbox_ints obj) as [e|[[[xmin ymin] xmax] ymax]]; [intros []|].
  rewrite bind_lift_OK. cbv beta iota.
  assert (Hin : forall b, In (EvSave p img) (snd (save_orb image out1 (PStr name) b)) ->
                          p = content_path name (image_tobytes img)).
  { intros b H. apply save_orb_saves in H. now rewrite Hjoin in H. }
  destruct (save_orb image out1 (PStr name) (tight_box xmin ymin xmax ymax))
    as [[e|[]] t1] eqn:E1.
  { rewrite (bind_fail _ _ _ _ eq_refl). cbn [snd]. intros H. apply (Hin (tight_box xmin ymin xmax ymax)).
    now rewrite E1. }
  rewrite (bind_run _ _ _ _ eq_refl). cbn [snd]. intros H.
  apply in_app_or in H as [H|H].
  { apply (Hin (tight_box xmin ymin xmax ymax)). now rewrite E1. }
  destruct (expand_box w h xmin ymin xmax ymax) as [e|expanded]; [destruct H|].
  rewrite bind_lift_OK in H. now apply (Hin expanded).
Qed.

End ClassNames.

(* ================================================================= *)
(** ** The size from which binary64 resizes *)

Module ResizeThreshold.
Import Rounding RoundingFacts Binary64Facts.

Lemma SFcompare_antisym x y :
  SFcompare y x = option_map CompOpp (SFcompare x y).
Proof.
  destruct x as [sx|sx| |sx mx ex], y as [sy|sy| |sy my ey]; try reflexivity;
    try (destruct sx; reflexivity); try (destruct sy; reflexivity);
    try (destruct sx, sy; reflexivity).
  unfold SFcompare. fold (Pos.compare mx my). fold (Pos.compare my mx).
  rewrite (Z.compare_antisym ex ey), (Pos.compare_antisym mx my).
  destruct sx, sy; cbn [option_map]; try reflexivity;
    destruct (ex ?= ey); cbn [CompOpp]; try reflexivity;
    now destruct (mx ?= my)%positive.
Qed.

Lemma SFleb_ltb x y : SFleb x y = true -> SFltb y x = false.
Proof.
  unfold SFleb, SFltb. rewrite (SFcompare_antisym x y).
  now destruct (SFcompare x y) as [[| |]|].
Qed.

Lemma SFltb_total x y :
  nonneg_finite x -> nonneg_finite y -> SFltb x y = false -> SFleb y x = true.
Proof.
  intros Hx Hy. unfold SFleb, SFltb. rewrite (SFcompare_antisym x y).
  destruct Hx as [->|(p & e & -> & _)], Hy as [->|(q & e' & -> & _)];
    cbn -[Z.compare Pos.compare]; try discriminate; try reflexivity.
  destruct (e ?= e'); try discriminate; try reflexivity.
  fold (Pos.compare p q). now destruct (p ?= q)%positive.
Qed.

(** On the integers that binary64 holds exactly, [MAX_IMG_DIM < float(m)]
    is [1024 < m]. *)
Lemma above_max_dim m :
  0 <= m < 2 ^ 53 ->
  fltb (F := float) MAX_IMG_DIM (of_int m) = (1024 <? m).
Proof.
  intros Hm. unfold MAX_IMG_DIM. cbn [fltb of_int Binary64.binary64].
  rewrite ltb_spec, !prim_of_Z by (unfold exact_int; lia).
  destruct (1024 <? m) eqn:E.
  - apply Z.ltb_lt in E.
    destruct (SFltb (norm 1024) (norm m)) eqn:El; [reflexivity|].
    apply SFltb_total in El; try (apply norm_nonneg_finite; lia).
    assert (H : SFleb (norm 1025) (norm 1024) = true).
    { apply SFleb_trans with (norm m); [apply norm_le; lia | exact El]. }
    discriminate H.
  - apply Z.ltb_ge in E. apply SFleb_ltb. apply norm_le; lia.
Qed.

(** X21. In binary64, for an image whose sides are below [2^53], the
    scene image is left at its size exactly when its longer side is at most
    1024: [scaled_size] returns [None] then, and never otherwise. *)
Theorem binary64_resizes_above_1024 (w h : Z) :
  0 <= w < 2 ^ 53 -> 0 <= h < 2 ^ 53 ->
  scaled_size (F := float) (w, h) = OK None <-> Z.max w h <= 1024.
Proof.
  intros Hw Hh. unfold scaled_size. cbn [fst snd].
  rewrite !py_float_of_int_range by (apply exact_in_range; lia).
  cbn [rbind OK]. rewrite above_max_dim by lia.
  destruct (1024 <? Z.max w h) eqn:E.
  - apply Z.ltb_lt in E. split; [|lia].
    destruct (h <? w); cbn [rbind OK fst snd];
      repeat match goal with
             | |- context [py_int_of_float ?x] =>
                 destruct (py_int_of_float x); cbn [rbind OK raise]
             end; discriminate.
  - apply Z.ltb_ge in E. now split.
Qed.

End ResizeThreshold.

(* ================================================================= *)
(** ** The size binary64 resizes to *)

Module ResizeBounds.
Import Rounding RoundingFacts Binary64Facts.

Lemma unit_scale_pos : 0 < unit_scale.
Proof. reflexivity. Qed.

Lemma unit_scale_split e :
  -1074 <= e <= 0 -> unit_scale = 2 ^ (- e) * 2 ^ (e + 1074).
Proof.
  intros He. unfold unit_scale. rewrite <- pow2_add by lia. f_equal. lia.
Qed.

(** The order of canonical floats is the order of their values. *)
Lemma leb_value p1 e1 p2 e2 :
  canon p1 e1 -> canon p2 e2 ->
  SFleb (S754_finite false p1 e1) (S754_finite false p2 e2) = true ->
  Z.pos p1 * 2 ^ (e1 + 1074) <= Z.pos p2 * 2 ^ (e2 + 1074).
Proof.
  intros C1 C2 H. apply leb_finite_pos in H.
  pose proof (proj1 (canon_iff _ _) C1) as (_ & L1 & _).
  pose proof (proj1 (canon_iff _ _) C2) as (_ & L2 & _).
  destruct H as [Hlt | [-> Hm]].
  - pose proof (canon_lt53 _ _ C1) as U1.
    pose proof (canon_normal _ _ C2 ltac:(lia)) as N2.
    assert (H1 : 0 < 2 ^ (e1 + 1074)) by (apply pow2_gt0; lia).
    assert (H2 : 2 * 2 ^ (e1 + 1074) <= 2 ^ (e2 + 1074)).
    { replace (2 * 2 ^ (e1 + 1074)) with (2 ^ (e1 + 1074 + 1))
        by (rewrite pow2_add by lia; lia).
      apply pow2_le; lia. }
    change (2 ^ 53) with (2 * 2 ^ 52) in U1. nia.
  - assert (0 < 2 ^ (e2 + 1074)) by (apply pow2_gt0; lia).
    apply Z.mul_le_mono_nonneg_r; lia.
Qed.

Lemma leb_antisym x p e :
  SFleb x (S754_finite false p e) = true -> SFleb (S754_finite false p e) x = true ->
  x = S754_finite false p e.
Proof.
  destruct x as [s|s| |s m e']; try discriminate.
  - now destruct s.
  - destruct s; [discriminate|].
    intros H1 H2. apply leb_finite_pos in H1, H2.
    assert (e' = e) by lia. subst e'.
    assert (m = p) by lia. now subst m.
Qed.

(** The value of the double of an integer below [2^53]. *)
Lemma norm_scaled p pt et :
  norm (Z.pos p) = S754_finite false pt et -> Z.pos p < 2 ^ 53 ->
  Z.pos pt * 2 ^ (et + 1074) = Z.pos p * unit_scale.
Proof.
  intros E Hp. destruct (norm_value p pt et E Hp) as (Het & _ & Hv & _).
  rewrite Hv, <- Z.mul_assoc. f_equal. symmetry. apply unit_scale_split. lia.
Qed.

(** The difference of two integers below [2^53] is computed exactly. *)
Lemma SFsub_exact a b :
  0 <= b <= a -> a < 2 ^ 53 -> SFsub prec emax (norm a) (norm b) = norm (a - b).
Proof.
  intros [Hb Hab] Ha.
  destruct b as [|pb|pb]; [|clear Hb|lia].
  - rewrite Z.sub_0_r. destruct a as [|pa|pa]; [reflexivity| |lia].
    destruct (norm_pos pa Ha) as (qa & ea & -> & _). reflexivity.
  - destruct a as [|pa|pa]; try lia.
    destruct (norm_pos pa Ha) as (qa & ea & Ea & Ca & Hea & _).
    destruct (norm_pos pb ltac:(lia)) as (qb & eb & Eb & Cb & Heb & _).
    pose proof (norm_scaled _ _ _ Ea Ha) as Va.
    pose proof (norm_scaled _ _ _ Eb ltac:(lia)) as Vb.
    rewrite Ea, Eb. cbn [SFsub cond_Zopp].
    set (ez := Z.min ea eb).
    pose proof (aligned qa ea ez ltac:(lia) ltac:(lia)) as Aa.
    pose proof (aligned qb eb ez ltac:(lia) ltac:(lia)) as Ab.
    set (Ma := Z.pos (fst (shl_align qa ea ez))) in *.
    set (Mb := Z.pos (fst (shl_align qb eb ez))) in *.
    assert (Hz : 0 < 2 ^ (ez + 1074)) by (apply pow2_gt0; lia).
    pose proof unit_scale_pos as HK.
    destruct (Z.pos pa - Z.pos pb) as [|pc|pc] eqn:Ec; try lia.
    + assert (E0 : Ma = Mb).
      { assert (Z.pos pa = Z.pos pb) by lia.
        apply (Z.mul_reg_r _ _ (2 ^ (ez + 1074))); [lia | congruence]. }
      now rewrite E0, Z.sub_diag.
    + destruct (norm_pos pc ltac:(lia)) as (qc & ec & Ecn & Cc & Hec & _).
      pose proof (norm_scaled _ _ _ Ecn ltac:(lia)) as Vc.
      assert (Hd : (Ma - Mb) * 2 ^ (ez + 1074) = Z.pos qc * 2 ^ (ec + 1074)).
      { rewrite Vc, <- Ec, !Z.mul_sub_distr_r. congruence. }
      assert (Hq : 0 < 2 ^ (ec + 1074)) by (apply pow2_gt0; lia).
      rewrite Ecn. unfold binary_normalize.
      clear Va Vb Vc Aa Ab HK.
      destruct (Ma - Mb) as [|d|d] eqn:Ed.
      * exfalso. rewrite Z.mul_0_l in Hd.
        generalize dependent (2 ^ (ec + 1074)). intros. nia.
      * apply leb_antisym.
        -- apply binary_round_le; [lia | assumption | lia | lia].
        -- apply binary_round_ge; [lia | assumption | lia].
      * exfalso.
        generalize dependent (2 ^ (ec + 1074)).
        generalize dependent (2 ^ (ez + 1074)). intros. nia.
Qed.

(** The quotient of two integers below [2^53], the first at least one, is
    at least [2^-53]. *)
Lemma SFdiv_lower a b :
  1 <= a <= b -> b < 2 ^ 53 ->
  SFleb (S754_finite false (2 ^ 52) (-105)) (SFdiv prec emax (norm a) (norm b)) = true.
Proof.
  intros [Ha Hab] Hb.
  destruct b as [|pb|pb]; try lia. destruct a as [|pa|pa]; try lia.
  destruct (norm_pos pb Hb) as (qb & eb & Eb & Cb & Heb & Db & Vb). rewrite Eb.
  destruct (norm_pos pa ltac:(lia)) as (qa & ea & Ea & Ca & Hea & Da & Va). rewrite Ea.
  cbn [SFdiv xorb]. rewrite (SFdiv_core_norm qa ea qb eb Da Db Hea Heb).
  set (M := Z.pos qa * 2 ^ 53). set (q := M / Z.pos qb).
  pose proof (dig_bounds qa) as [Al Au]. pose proof (dig_bounds qb) as [Bl Bu].
  rewrite Da in Al, Au. rewrite Db in Bl, Bu. change (53 - 1) with 52 in *.
  assert (Hq : 2 ^ 52 <= q).
  { unfold q. apply Z.div_le_lower_bound; [lia|]. unfold M.
    assert (0 < 2 ^ 52) by reflexivity. nia. }
  assert (H52 : 0 < 2 ^ 52) by reflexivity.
  destruct q as [|pq|pq] eqn:Eq; try lia.
  assert (Dq : 53 <= dig pq).
  { destruct (Z.le_gt_cases 53 (dig pq)) as [|Hlt]; [assumption|].
    pose proof (dig_bounds pq) as [_ Qu].
    assert (2 ^ dig pq <= 2 ^ 52) by (apply Z.pow_le_mono_r; pose proof (dig_pos pq); lia).
    lia. }
  apply bra_ge.
  - lia.
  - lia.
  - rewrite Zdig_pos, fexp64_eq. lia.
  - apply canon_iff. change (dig (2 ^ 52)) with 53. lia.
  - change (Z.pos (2 ^ 52)) with (2 ^ 52).
    assert (Hp : 2 ^ (-105 + 1074) <= 2 ^ (ea - eb - 53 + 1074)) by (apply pow2_le; lia).
    assert (H0 : 0 < 2 ^ (-105 + 1074)) by (apply pow2_gt0; lia).
    apply Z.le_trans with (2 ^ 52 * 2 ^ (ea - eb - 53 + 1074)).
    + apply Z.mul_le_mono_nonneg_l; [lia | exact Hp].
    + apply Z.mul_le_mono_nonneg_r; [|exact Hq].
      apply Z.lt_le_incl, pow2_gt0. lia.
Qed.

(** [1 - q] for a [q] between [2^-53] and one: zero, or at least
    [2^-105]. *)
Lemma SFsub_one_lower pq eq :
  canon pq eq -> -105 <= eq ->
  SFleb (S754_finite false pq eq) (norm 1) = true ->
  SFsub prec emax (norm 1) (S754_finite false pq eq) = S754_zero false \/
  SFleb (S754_finite false (2 ^ 52) (-157))
    (SFsub prec emax (norm 1) (S754_finite false pq eq)) = true.
Proof.
  intros Cq Heq Hle. rewrite norm_one in *.
  assert (C1 : canon (2 ^ 52) (-52)) by (apply canon_iff; change (dig (2 ^ 52)) with 53; lia).
  pose proof (leb_value _ _ _ _ Cq C1 Hle) as Hv.
  cbn [SFsub cond_Zopp].
  set (ez := Z.min (-52) eq).
  pose proof (aligned (2 ^ 52) (-52) ez ltac:(lia) ltac:(lia)) as Aa.
  pose proof (aligned pq eq ez ltac:(lia) ltac:(lia)) as Ab.
  set (Ma := Z.pos (fst (shl_align (2 ^ 52) (-52) ez))) in *.
  set (Mo := Z.pos (fst (shl_align pq eq ez))) in *.
  assert (Hz : 0 < 2 ^ (ez + 1074)) by (apply pow2_gt0; lia).
  assert (Hge : Mo <= Ma).
  { apply (Z.mul_le_mono_pos_r _ _ (2 ^ (ez + 1074))); [exact Hz|].
    rewrite Aa, Ab. exact Hv. }
  unfold binary_normalize. destruct (Ma - Mo) as [|d|d] eqn:Ed.
  - now left.
  - right. apply binary_round_ge; [lia | |].
    + apply canon_iff. change (dig (2 ^ 52)) with 53. lia.
    + change (Z.pos (2 ^ 52)) with (2 ^ 52).
      replace (2 ^ 52 * 2 ^ (-157 + 1074)) with (1 * 2 ^ (-105 + 1074))
        by (rewrite Z.mul_1_l, <- pow2_add by lia; f_equal).
      apply Z.mul_le_mono_nonneg; [lia | lia | apply Z.lt_le_incl, pow2_gt0; lia |].
      apply pow2_le; lia.
  - exfalso. lia.
Qed.

(** The product of a double by a factor of at most one does not exceed
    it. *)
Lemma SFmul_le px ex pS eS :
  canon px ex -> -52 <= ex <= 0 -> 2 ^ 52 <= Z.pos px ->
  canon pS eS -> -157 <= eS ->
  SFleb (S754_finite false pS eS) (norm 1) = true ->
  SFleb (SFmul prec emax (S754_finite false px ex) (S754_finite false pS eS))
    (S754_finite false px ex) = true.
Proof.
  intros Cx Hex Hpx CS HeS Hle. rewrite norm_one in Hle.
  assert (C1 : canon (2 ^ 52) (-52)) by (apply canon_iff; change (dig (2 ^ 52)) with 53; lia).
  pose proof (leb_value _ _ _ _ CS C1 Hle) as Hv.
  change (Z.pos (2 ^ 52)) with (2 ^ 52) in Hv.
  rewrite <- pow2_add in Hv by lia.
  cbn [SFmul xorb].
  assert (H52 : 0 < 2 ^ 52) by reflexivity.
  assert (Dm : 53 <= dig (px * pS)).
  { destruct (Z.le_gt_cases 53 (dig (px * pS))) as [|Hlt]; [assumption|].
    pose proof (dig_bounds (px * pS)) as [_ Qu].
    assert (2 ^ dig (px * pS) <= 2 ^ 52)
      by (apply Z.pow_le_mono_r; pose proof (dig_pos (px * pS)); lia).
    rewrite Pos2Z.inj_mul in Qu. nia. }
  apply bra_le.
  - lia.
  - lia.
  - rewrite Zdig_pos, fexp64_eq. lia.
  - assumption.
  - lia.
  - cbn [inexact]. rewrite Z.add_0_r, Pos2Z.inj_mul.
    assert (Hp : 0 < 2 ^ (- ex)) by (apply pow2_gt0; lia).
    assert (E1 : 2 ^ (eS + 1074) = 2 ^ (ex + eS + 1074) * 2 ^ (- ex)).
    { rewrite <- pow2_add by lia. f_equal. lia. }
    assert (E2 : 2 ^ (52 + (-52 + 1074)) = 2 ^ (ex + 1074) * 2 ^ (- ex)).
    { rewrite <- pow2_add by lia. f_equal. lia. }
    rewrite E1, E2 in Hv.
    assert (Hs : Z.pos pS * 2 ^ (ex + eS + 1074) <= 2 ^ (ex + 1074)).
    { apply (Z.mul_le_mono_pos_r _ _ (2 ^ (- ex))); [exact Hp|].
      now rewrite <- Z.mul_assoc. }
    rewrite <- Z.mul_assoc.
    apply Z.mul_le_mono_nonneg_l; [lia | exact Hs].
Qed.

(** [int(x)] for a double between zero and an integer below [2^53]. *)
Lemma to_Z_bounded (f : float) (x : Z) :
  0 < x < 2 ^ 53 ->
  SFleb (S754_zero false) (Prim2SF f) = true ->
  SFleb (Prim2SF f) (norm x) = true ->
  exists z, Binary64.to_Z f = Some z /\ 0 <= z <= x.
Proof.
  intros Hx H0 Hle. unfold Binary64.to_Z.
  destruct (nonneg_cases _ (Prim2SF_valid f) H0) as [[s E]|[E|(p & e & E & Cp & He)]];
    rewrite E in *.
  - exists 0. split; [reflexivity | lia].
  - destruct x as [|px|px]; try lia.
    destruct (norm_pos px ltac:(lia)) as (qx & exx & Ex & _). rewrite Ex in Hle.
    discriminate.
  - destruct x as [|px|px]; try lia.
    destruct (norm_pos px ltac:(lia)) as (qx & exx & Ex & Cx & Hexx & _).
    pose proof (norm_scaled _ _ _ Ex ltac:(lia)) as Vx.
    rewrite Ex in Hle. pose proof (leb_value _ _ _ _ Cp Cx Hle) as Hv.
    rewrite Vx in Hv. clear Vx.
    pose proof (proj1 (canon_iff _ _) Cp) as (_ & Lp & _).
    eexists. split; [reflexivity|].
    destruct (Z.leb_spec 0 e) as [Hpos|Hneg].
    + assert (He0 : 0 < 2 ^ e) by (apply pow2_gt0; lia).
      assert (E2 : 2 ^ (e + 1074) = 2 ^ e * unit_scale).
      { unfold unit_scale. apply pow2_add; lia. }
      rewrite E2, Z.mul_assoc in Hv.
      apply Z.mul_le_mono_pos_r in Hv; [|exact unit_scale_pos].
      split; [|exact Hv]. apply Z.mul_nonneg_nonneg; lia.
    + assert (Hp : 0 < 2 ^ (- e)) by (apply pow2_gt0; lia).
      assert (Hq : 0 < 2 ^ (e + 1074)) by (apply pow2_gt0; lia).
      rewrite (unit_scale_split e), Z.mul_assoc in Hv by lia.
      apply Z.mul_le_mono_pos_r in Hv; [|exact Hq].
      split; [apply Z.div_pos; lia|].
      apply Z.div_le_upper_bound; [lia|]. rewrite Z.mul_comm. exact Hv.
Qed.

(** The factor by which the sides are multiplied lies between zero and
    one, and is zero or at least [2^-105]. *)
Lemma scale_factor_range (m : Z) :
  1024 < m < 2 ^ 53 ->
  let scale := Prim2SF (PrimFloat.sub (Binary64.of_Z 1)
                          (PrimFloat.div (PrimFloat.sub (Binary64.of_Z m)
                                            (Binary64.of_Z 1024))
                             (Binary64.of_Z m))) in
  scale = S754_zero false \/
  exists pS eS,
    scale = S754_finite false pS eS /\ canon pS eS /\ -157 <= eS <= 971 /\
    SFleb (S754_finite false pS eS) (norm 1) = true.
Proof.
  intros Hm scale. unfold scale.
  rewrite sub_spec, div_spec, sub_spec, !prim_of_Z by (unfold exact_int; lia).
  rewrite SFsub_exact by lia.
  pose proof (Prim2SF_valid (PrimFloat.div (PrimFloat.sub (Binary64.of_Z m)
                                             (Binary64.of_Z 1024))
                               (Binary64.of_Z m))) as Vq.
  rewrite div_spec, sub_spec, !prim_of_Z in Vq by (unfold exact_int; lia).
  rewrite SFsub_exact in Vq by lia.
  pose proof (Prim2SF_valid (PrimFloat.sub (Binary64.of_Z 1)
                               (PrimFloat.div (PrimFloat.sub (Binary64.of_Z m)
                                                 (Binary64.of_Z 1024))
                                  (Binary64.of_Z m)))) as Vs.
  rewrite sub_spec, div_spec, sub_spec, !prim_of_Z in Vs by (unfold exact_int; lia).
  rewrite SFsub_exact in Vs by lia.
  unfold SF64sub, SF64div in *.
  destruct (SFdiv_unit (m - 1024) m ltac:(lia) ltac:(lia)) as [Q0 Q1].
  pose proof (SFdiv_lower (m - 1024) m ltac:(lia) ltac:(lia)) as QL.
  set (q := SFdiv prec emax (norm (m - 1024)) (norm m)) in *.
  destruct (nonneg_cases q Vq Q0) as [[s E]|[E|(pq & eq & E & Cq & Hq)]];
    rewrite E in *; try discriminate.
  assert (Heq : -105 <= eq) by (apply leb_finite_pos in QL; lia).
  pose proof (SFsub_le (norm 1) (S754_finite false pq eq)
                (norm_nonneg_finite 1 ltac:(lia)) Vq Q0) as S1.
  destruct (SFsub_one_lower pq eq Cq Heq Q1) as [Hz|HL]; [now left | right].
  set (s := SFsub prec emax (norm 1) (S754_finite false pq eq)) in *.
  assert (S0 : SFleb (S754_zero false) s = true).
  { apply SFleb_trans with (S754_finite false (2 ^ 52) (-157)); [reflexivity | exact HL]. }
  destruct (nonneg_cases s Vs S0) as [[z E']|[E'|(pS & eS & E' & CS & HS)]];
    rewrite E' in *; try discriminate.
  exists pS, eS. repeat split; try assumption.
  apply leb_finite_pos in HL. lia.
Qed.


(** A side times the factor: [int(...)] returns, and returns at most the
    side. *)
Lemma scaled_side (x m : Z) :
  0 < x < 2 ^ 53 -> 1024 < m < 2 ^ 53 ->
  exists z,
    Binary64.to_Z
      (PrimFloat.mul (Binary64.of_Z x)
         (PrimFloat.sub (Binary64.of_Z 1)
            (PrimFloat.div (PrimFloat.sub (Binary64.of_Z m) (Binary64.of_Z 1024))
               (Binary64.of_Z m))))
    = Some z /\ 0 <= z <= x.
Proof.
  intros Hx Hm. apply to_Z_bounded; [exact Hx| |];
    rewrite mul_spec, prim_of_Z by (unfold exact_int; lia); unfold SF64mul;
    destruct x as [|px|px]; try lia;
    destruct (norm_pos px ltac:(lia)) as (qx & exx & Ex & Cx & Hexx & Dx & Vx);
    rewrite Ex;
    destruct (scale_factor_range m Hm) as [-> | (pS & eS & -> & CS & HeS & Hle)];
    try reflexivity.
  - apply SFmul_nonneg. right. exists pS, eS. repeat split; try assumption. lia.
  - apply SFmul_le; try assumption; try lia.
    pose proof (dig_bounds qx) as [Dl _]. rewrite Dx in Dl. exact Dl.
Qed.

(** X23. In binary64, computing the size to resize to never fails and
    never enlarges: for an image whose sides are positive and below [2^53]
    and whose longer side exceeds 1024, [scaled_size] returns a size (no
    conversion and no [int(...)] raises); the side that is set is exactly
    1024 (the width when it is the strictly longer side, the height
    otherwise) and the other side lies between zero and its original
    length. Zero is reached: an image of 1025 x 1 is to be resized to
    1024 x 0. *)
Theorem binary64_resize_never_enlarges :
  (forall w h : Z,
     0 < w < 2 ^ 53 -> 0 < h < 2 ^ 53 -> 1024 < Z.max w h ->
     exists w' h',
       scaled_size (F := float) (w, h) = OK (Some (w', h')) /\
       (if h <? w then w' = 1024 /\ 0 <= h' <= h else h' = 1024 /\ 0 <= w' <= w)) /\
  scaled_size (F := float) (1025, 1) = OK (Some (1024, 0)).
Proof.
  split; [|vm_compute; reflexivity].
  intros w h Hw Hh Hmax. unfold scaled_size. cbn [fst snd].
  rewrite !py_float_of_int_range by (apply exact_in_range; lia).
  cbn [rbind OK]. rewrite ResizeThreshold.above_max_dim by lia.
  apply Z.ltb_lt in Hmax. rewrite Hmax. apply Z.ltb_lt in Hmax.
  unfold MAX_IMG_DIM.
  destruct (h <? w) eqn:E.
  - apply Z.ltb_lt in E. rewrite Z.max_l in * by lia.
    destruct (scaled_side h w Hh ltac:(lia)) as (z & Ez & Hz).
    exists 1024, z. split; [|now split].
    cbv beta iota. cbn [rbind OK fst snd]. unfold py_int_of_float.
    cbn [trunc fmul fsub fdiv of_int Binary64.binary64]. rewrite Ez.
    change (Binary64.to_Z (Binary64.of_Z 1024)) with (Some 1024). reflexivity.
  - apply Z.ltb_ge in E. rewrite Z.max_r in * by lia.
    destruct (scaled_side w h Hw ltac:(lia)) as (z & Ez & Hz).
    exists z, 1024. split; [|now split].
    cbv beta iota. cbn [rbind OK fst snd]. unfold py_int_of_float.
    cbn [trunc fmul fsub fdiv of_int Binary64.binary64]. rewrite Ez.
    change (Binary64.to_Z (Binary64.of_Z 1024)) with (Some 1024). reflexivity.
Qed.

End ResizeBounds.

(* ================================================================= *)
(** ** Boxes without extent in binary64 *)

Module EmptyCrops.
Import Rounding RoundingFacts Binary64Facts.

(** The doubles of the integers below [2^53] are ordered as the integers. *)
Lemma norm_le_inv a b :
  0 <= a < 2 ^ 53 -> 0 <= b < 2 ^ 53 -> SFleb (norm a) (norm b) = true -> a <= b.
Proof.
  intros Ha Hb H.
  destruct a as [|pa|pa]; [lia | | lia].
  destruct b as [|pb|pb]; [ | | lia].
  - destruct (norm_pos pa ltac:(lia)) as (qa & ea & Ea & _).
    rewrite Ea in H. discriminate H.
  - destruct (norm_pos pa ltac:(lia)) as (qa & ea & Ea & Ca & _).
    destruct (norm_pos pb ltac:(lia)) as (qb & eb & Eb & Cb & _).
    rewrite Ea, Eb in H. apply ResizeBounds.leb_value in H; try assumption.
    rewrite (ResizeBounds.norm_scaled _ _ _ Ea), (ResizeBounds.norm_scaled _ _ _ Eb) in H
      by lia.
    apply (Z.mul_le_mono_pos_r _ _ unit_scale ResizeBounds.unit_scale_pos). exact H.
Qed.

Lemma of_Z_leb a b :
  0 <= a < 2 ^ 53 -> 0 <= b < 2 ^ 53 ->
  PrimFloat.leb (Binary64.of_Z a) (Binary64.of_Z b) = (a <=? b).
Proof.
  intros Ha Hb. rewrite leb_spec, !prim_of_Z by (unfold exact_int; lia).
  destruct (a <=? b) eqn:E.
  - apply Z.leb_le in E. apply norm_le; lia.
  - apply Z.leb_gt in E. destruct (SFleb (norm a) (norm b)) eqn:E2; [|reflexivity].
    apply norm_le_inv in E2; lia.
Qed.

Lemma of_Z_ltb a b :
  0 <= a < 2 ^ 53 -> 0 <= b < 2 ^ 53 ->
  PrimFloat.ltb (Binary64.of_Z a) (Binary64.of_Z b) = (a <? b).
Proof.
  intros Ha Hb. rewrite ltb_spec, !prim_of_Z by (unfold exact_int; lia).
  destruct (a <? b) eqn:E.
  - apply Z.ltb_lt in E. destruct (SFltb (norm a) (norm b)) eqn:El; [reflexivity|].
    apply ResizeThreshold.SFltb_total in El; try (apply norm_nonneg_finite; lia).
    apply norm_le_inv in El; lia.
  - apply Z.ltb_ge in E. apply ResizeThreshold.SFleb_ltb. apply norm_le; lia.
Qed.

(** A tenth of no extent is zero, and leaves a coordinate as it is. *)
Lemma sub_no_offset x :
  0 <= x < 2 ^ 53 ->
  PrimFloat.sub (Binary64.of_Z x) (PrimFloat.mul tenth (Binary64.of_Z 0)) = Binary64.of_Z x.
Proof.
  intros Hx. apply Prim2SF_inj. rewrite sub_spec, prim_of_Z by (unfold exact_int; lia).
  change (Prim2SF (PrimFloat.mul tenth (Binary64.of_Z 0))) with (S754_zero false).
  destruct (norm_nonneg_finite x Hx) as [->|(p & e & -> & _)]; reflexivity.
Qed.

Lemma add_no_offset x :
  0 <= x < 2 ^ 53 ->
  PrimFloat.add (Binary64.of_Z x) (PrimFloat.mul tenth (Binary64.of_Z 0)) = Binary64.of_Z x.
Proof.
  intros Hx. apply Prim2SF_inj. rewrite add_spec, prim_of_Z by (unfold exact_int; lia).
  change (Prim2SF (PrimFloat.mul tenth (Binary64.of_Z 0))) with (S754_zero false).
  destruct (norm_nonneg_finite x Hx) as [->|(p & e & -> & _)]; reflexivity.
Qed.

(** Along one axis, for an interval within the image: the expanded
    interval has no extent exactly when the annotated one has none. *)
Lemma axis_collapsed lo hi dim :
  0 <= lo <= hi -> hi <= dim < 2 ^ 53 ->
  let offset := fmul (F := float) ORB_EXPANSION_PCT (of_int (hi - lo)) in
  fleb (py_min dim (fadd (of_int hi) offset)) (py_max0 (fsub (of_int lo) offset))
  = (lo =? hi).
Proof.
  intros Hlo Hhi offset. destruct (lo =? hi) eqn:E.
  - apply Z.eqb_eq in E. subst hi offset. rewrite Z.sub_diag.
    unfold ORB_EXPANSION_PCT, py_min, py_max0.
    cbn [fleb fltb fadd fsub fmul of_int tenth Binary64.binary64].
    rewrite sub_no_offset, add_no_offset, !of_Z_ltb by lia.
    destruct (0 <? lo) eqn:E0, (lo <? dim) eqn:E1; rewrite of_Z_leb by lia;
      apply Z.leb_le; lia.
  - apply Z.eqb_neq in E.
    destruct (expanded_axis (F := float) lo hi dim Hlo (proj1 Hhi) (proj2 Hhi))
      as (H1 & H2 & _).
    fold offset in H1, H2.
    destruct (fleb (py_min dim _) _) eqn:E3; [|reflexivity].
    pose proof (fleb_trans _ _ _ (fleb_trans _ _ _ H2 E3) H1) as H.
    cbn [fleb of_int Binary64.binary64] in H. rewrite of_Z_leb in H by lia.
    apply Z.leb_le in H. lia.
Qed.

(** X25. In binary64, for an annotated box that lies within the image
    (sides below [2^53]): the expanded box has no extent along some axis
    exactly when the annotated box has none, that is when two of its
    opposite sides coincide. The ten percent added around a box never turn
    an empty crop into one with pixels, nor the other way round. *)
Theorem binary64_expanded_box_empty_iff_annotated_is
    (width height xmin ymin xmax ymax : Z) :
  0 <= xmin <= xmax -> xmax <= width < 2 ^ 53 ->
  0 <= ymin <= ymax -> ymax <= height < 2 ^ 53 ->
  box_collapsed (expanded_box (F := float) width height xmin ymin xmax ymax)
  = ((xmin =? xmax) || (ymin =? ymax)) /\
  box_collapsed (tight_box (F := float) xmin ymin xmax ymax)
  = ((xmin =? xmax) || (ymin =? ymax)).
Proof.
  intros Hx Hw Hy Hh. split.
  - unfold box_collapsed, expanded_box. cbn [bxmin bymin bxmax bymax].
    now rewrite !axis_collapsed.
  - unfold box_collapsed, tight_box.
    cbn [bxmin bymin bxmax bymax fleb of_int Binary64.binary64].
    rewrite !of_Z_leb by lia. f_equal.
    + destruct (Z.leb_spec xmax xmin), (Z.eqb_spec xmin xmax); lia.
    + destruct (Z.leb_spec ymax ymin), (Z.eqb_spec ymin ymax); lia.
Qed.

End EmptyCrops.

(* ================================================================= *)
(** ** The script on concrete records *)

Module Runs.
Import Demo.

#[local] Abbreviation orbs64 := (process_orbs (F := float) (C := Demo.codec float)).
#[local] Abbreviation images64 := (process_images (F := float) (C := Demo.codec float)).

(** The orb scenario of the specification: the annotated box
    [(100, 100, 200, 200)] and the expanded box [(90, 90, 210, 210)], both
    written under [orb_red]. *)
Example orb_scenario :
  orbs64 (data_of one_orb) "images" "out"
  = (OK tt,
     save_orb_trace tile "out" "orb_red" (tight_box 100 100 200 200)
     ++ save_orb_trace tile "out" "orb_red" (tight_box 90 90 210 210)).
Proof. vm_compute. reflexivity. Qed.

(** The scene scenario of the specification: twenty detections, each row
    normalized to [(0.1, 0.2, 0.2, 0.4)]. *)
Example scene_scenario :
  fst (images64 (data_of board20) "images" "out")
  = OK (repeat (SceneRow "UNASSIGNED" "out/corrected_images/0102.png" "orb"
                  (fdiv (of_int 1) (of_int 10)) (fdiv (of_int 1) (of_int 5))
                  (fdiv (of_int 1) (of_int 5)) (fdiv (of_int 2) (of_int 5))) 20).
Proof. vm_compute. reflexivity. Qed.

(** An image that is neither JPEG nor PNG is refused. *)
Example gif_is_refused :
  images64 (data_of (annotation "photo.gif" "1000" "500" [orb_red])) "images" "out"
  = (raise (ValueError "Image format not JPEG/PNG"), []).
Proof. vm_compute. reflexivity. Qed.

(** C2, counterexample. A record without any detection parses, has no
    ['object'] entry, and is rejected by both pipelines. *)
Lemma empty_board_is_rejected :
  filter (has_tag "object") (xml_children empty_board) = [] /\
  exists data,
    load_annotations empty_board = OK data /\
    getitem data "object" = raise (KeyError "object") /\
    orbs64 data "images" "out"
    = (raise (ValueError "no objects found in images/board.png"), []) /\
    images64 data "images" "out"
    = (raise (ValueError "no objects found in images/board.png"), []).
Proof.
  split; [reflexivity|]. eexists. split; [reflexivity|].
  repeat split; vm_compute; reflexivity.
Qed.

(** C3, counterexample. A box that runs past the right edge of a
    1000 x 500 image is cropped as annotated: the first crop does not lie
    within the image, and the expanded crop does not contain it. *)
Lemma outside_box_is_cropped_as_annotated :
  fst (orbs64 (data_of outside_orb) "images" "out") = OK tt /\
  crops_of (snd (orbs64 (data_of outside_orb) "images" "out"))
  = [tight_box 900 100 1200 200; expanded_box 1000 500 900 100 1200 200] /\
  box_within (F := float) 1000 500 (tight_box 900 100 1200 200) = false /\
  box_contains (F := float) (expanded_box 1000 500 900 100 1200 200)
    (tight_box 900 100 1200 200) = false.
Proof. repeat split; vm_compute; reflexivity. Qed.

(** C6, counterexample. Twenty orbs and a heart: the record passes the
    count validation with twenty-one detections and yields twenty rows. *)
Lemma heart_gets_no_row :
  exists objs rows,
    getitem (data_of board20_and_heart) "object" = OK (PList objs) /\
    List.length objs = 21%nat /\
    fst (images64 (data_of board20_and_heart) "images" "out") = OK rows /\
    List.length rows = 20%nat.
Proof.
  do 2 eexists. split; [vm_compute; reflexivity|]. split; [reflexivity|].
  split; [vm_compute; reflexivity|]. reflexivity.
Qed.

(** C7, counterexample. A box whose [xmax] is 1200 in a record declared
    1000 wide is normalized to 1.2. *)
Lemma outside_box_leaves_unit_square :
  exists rows,
    fst (images64 (data_of board20_outside) "images" "out") = OK rows /\
    map row_xmax rows = repeat (fdiv (of_int 1200) (of_int 1000)) 20 /\
    fleb (fdiv (of_int 1200) (of_int 1000)) (of_int (F := float) 1) = false /\
    map row_in_unit_square rows = repeat false 20.
Proof.
  eexists. split; [vm_compute; reflexivity|].
  repeat split; vm_compute; reflexivity.
Qed.

(** C5, counterexample. What is validated is not the number of objects,
    and a record without objects is not skipped. Twenty orbs and a heart
    are twenty-one objects, and the record yields rows; nineteen orbs and a
    heart are twenty objects, and the record is skipped; a record without
    any object raises, and the batch stops there: the file after it is not
    read. *)
Lemma object_count_is_not_what_is_validated :
  (exists objs rows,
     getitem (data_of board20_and_heart) "object" = OK (PList objs) /\
     List.length objs = 21%nat /\
     fst (images64 (data_of board20_and_heart) "images" "out") = OK rows /\
     List.length rows = 20%nat) /\
  (exists objs,
     getitem (data_of board19_and_heart) "object" = OK (PList objs) /\
     List.length objs = 20%nat /\
     images64 (data_of board19_and_heart) "images" "out"
     = (OK [], [EvSkip 19 (PStr "board.png")])) /\
  (filter (has_tag "object") (xml_children empty_board) = [] /\
   do_screen_processing (F := float) (C := Demo.codec float) "images" "out"
     [("a.xml", empty_board); ("b.xml", board20)] "bucket"
   = (raise (ValueError "no objects found in images/board.png"),
      [EvMakedirs "out"; EvCsvOpen "out/screen_data.csv"; EvPrint "a.xml"; EvLog 0 2])).
Proof.
  split; [|split].
  - do 2 eexists. split; [vm_compute; reflexivity|]. split; [reflexivity|].
    split; [vm_compute; reflexivity|]. reflexivity.
  - eexists. split; [vm_compute; reflexivity|]. split; [reflexivity|].
    vm_compute. reflexivity.
  - split; [reflexivity|]. vm_compute. reflexivity.
Qed.

(** C8, counterexample. A box without width: the expanded box has no
    width either, and both are cropped and written; nothing is skipped and
    nothing is raised. A box to the right of the image: the expanded box
    has a negative extent, it is handed to the codec all the same, after
    the annotated box has been cropped and written, and the exception is
    the codec's. *)
Lemma collapsed_box_is_cropped :
  (fst (orbs64 (data_of flat_orb) "images" "out") = OK tt /\
   crops_of (snd (orbs64 (data_of flat_orb) "images" "out"))
   = [tight_box 100 100 100 200; tight_box 100 90 100 210] /\
   saved_paths (snd (orbs64 (data_of flat_orb) "images" "out"))
   = ["out/orb_red/0102.png"; "out/orb_red/0102.png"] /\
   expanded_box (F := float) 1000 500 100 100 100 200 = tight_box 100 90 100 210 /\
   box_collapsed (F := float) (tight_box 100 90 100 210) = true) /\
  (orbs64 (data_of far_orb) "images" "out"
   = (raise (ValueError "Coordinate 'right' is less than 'left'"),
      save_orb_trace tile "out" "orb_red" (tight_box 1100 100 1200 200)
      ++ [EvCrop (tight_box 1090 90 1000 210)]) /\
   expanded_box (F := float) 1000 500 1100 100 1200 200 = tight_box 1090 90 1000 210 /\
   box_collapsed (F := float) (tight_box 1090 90 1000 210) = true).
Proof. repeat split; vm_compute; reflexivity. Qed.

(** Both crops of a box that is a single point go to one file. *)
Example point_box_collapses_to_one_file :
  saved_paths (snd (orbs64 (data_of point_orb) "images" "out"))
  = ["out/orb_red/0102.png"; "out/orb_red/0102.png"].
Proof. vm_compute. reflexivity. Qed.

(** An image of 1025 x 1 is to be resized to 1024 x 0, which the codec
    refuses. *)
Example thin_image_scales_to_zero :
  scaled_size (F := float) (1025, 1) = OK (Some (1024, 0)) /\
  image_resize (F := float) board (1024, 0)
  = raise (ValueError "height and width must be > 0").
Proof. split; vm_compute; reflexivity. Qed.

(** What [int], [float] and the division by an [int] raise. *)
Example conversion_errors :
  py_int (PStr "left") = raise (ValueError "invalid literal for int() with base 10: 'left'") /\
  py_float (F := float) (PStr "left")
  = raise (ValueError "could not convert string to float: 'left'") /\
  py_div_int (F := float) (of_int 1) (10 ^ 400) = raise OverflowError /\
  py_div_int (F := float) (of_int 1) 0 = raise ZeroDivisionError /\
  expand_box (F := float) 1000 500 0 0 (10 ^ 400) 10 = raise OverflowError.
Proof. repeat split; vm_compute; reflexivity. Qed.

End Runs.

(* ================================================================= *)
(** ** The properties at concrete records *)

Module Witnesses.
Import Demo.

#[local] Abbreviation images64 := (process_images (F := float) (C := Demo.codec float)).
#[local] Abbreviation orbs64 := (process_orbs (F := float) (C := Demo.codec float)).

(** The record without detections of [Demo.empty_board]. *)
Lemma record_without_objects_witness :
  filter (has_tag "object") (xml_children empty_board) = [] /\
  exists data,
    load_annotations empty_board = OK data /\
    exists e, images64 data "images" "out" = (raise e, []).
Proof.
  split; [reflexivity|].
  destruct (record_without_objects_is_rejected (F := float) (C := Demo.codec float)
              None (xml_children empty_board) "images" "out" eq_refl)
    as (data & Hload & _ & _ & _ & _ & Himages).
  exists data. split; [exact Hload | exact Himages].
Defined.

(** Nineteen orbs: the record is skipped. *)
Lemma unexpected_count_witness :
  exists filename,
    images64 (data_of board19) "images" "out" = (OK [], [EvSkip 19 filename]).
Proof.
  edestruct (unexpected_count_skips_record (F := float) (C := Demo.codec float)
               (data_of board19) "images" "out") as [_ H];
    [vm_compute; reflexivity | vm_compute; reflexivity |].
  destruct H as (filename & Hrun & _); [vm_compute; discriminate ..|].
  exists filename. exact Hrun.
Defined.

(** Twenty orbs in a record declared 300 x 700: twenty lines, the
    coordinates 100/300, 100/700, 200/300 and 200/700 rounded to four
    decimals. *)
Lemma accepted_record_witness :
  csv_rows (snd (screen_step (F := float) (C := Demo.codec float) "images" "out" "bucket"
                   1 0 ("a.xml", board20_thirds)))
  = repeat [CText "UNASSIGNED"; CText "gs://bucket/out/corrected_images/0102.png";
            CText "orb";
            CNum (fdiv (of_int 3333) (of_int 10000));
            CNum (fdiv (of_int 1429) (of_int 10000));
            CText ""; CText "";
            CNum (fdiv (of_int 6667) (of_int 10000));
            CNum (fdiv (of_int 2857) (of_int 10000));
            CText ""; CText ""] 20.
Proof.
  refine (eq_trans
            (f_equal (fun r => csv_rows (snd r))
               (proj2 (proj2 (accepted_record_yields_one_row_per_orb
                                (F := float) (C := Demo.codec float)
                                "images" "out" "bucket" "a.xml" board20_thirds 1 0
                                (data_of board20_thirds) board board
                                (repeat (node_value orb_red) 20) None 300 700
                                (repeat (of_int 100, of_int 100, of_int 200, of_int 200) 20)
                                _ _ _ _ _ _ _ _ _ _ _ _)))) _);
    [vm_compute; reflexivity | vm_compute; reflexivity | vm_compute; reflexivity
    | vm_compute; reflexivity | vm_compute; reflexivity | vm_compute; reflexivity
    | vm_compute; reflexivity | discriminate | discriminate
    | vm_compute; reflexivity | vm_compute; reflexivity
    | repeat (apply Forall2_cons; [vm_compute; reflexivity|]); apply Forall2_nil
    | vm_compute; reflexivity].
Defined.

(** Twenty orbs and a heart: the heart is not read. *)
Lemma orb_named_only_witness :
  extract_orb_annotations (data_of board20_and_heart)
  = OK (repeat (node_value orb_red) 20).
Proof.
  refine (proj1 (scene_mode_reads_orb_named_detections_only
                   (F := float) (C := Demo.codec float)
                   (items_of (data_of board20_and_heart))
                   (repeat (node_value orb_red) 20
                    ++ [node_value (detection "heart" "10" "10" "20" "20")])
                   "images" "out" _ _)).
  - vm_compute. reflexivity.
  - repeat constructor; eexists; reflexivity.
Defined.

(** A box without width: both crops are made and written. *)
Lemma crops_every_box_witness :
  fst (orbs64 (data_of flat_orb) "images" "out") = OK tt /\
  crops_of (snd (orbs64 (data_of flat_orb) "images" "out"))
  = [tight_box 100 100 100 200; expanded_box (F := float) 1000 500 100 100 100 200] /\
  List.length (saved_paths (snd (orbs64 (data_of flat_orb) "images" "out"))) = 2%nat.
Proof.
  refine (proj1 (proj2 (process_orbs_crops_every_box (F := float) (C := Demo.codec float)
                          (data_of flat_orb) "images" "out" board
                          [node_value (detection "orb_red" "100" "100" "100" "200")]
                          [("orb_red", (100, 100, 100, 200))] _ _ _)) _);
    [vm_compute; reflexivity | vm_compute; reflexivity
    | apply Forall2_cons; [repeat split; vm_compute; reflexivity | apply Forall2_nil]
    | intros b [<-|[<-|[]]]; eexists; vm_compute; reflexivity].
Defined.

(** The orb of the specification's scenario, in binary64. *)
Lemma expanded_crop_witness :
  exists tight expanded,
    tight = tight_box 100 100 200 200 /\
    expand_box 1000 500 100 100 200 200 = OK expanded /\
    crops_of (snd (process_orb (F := float) (C := Demo.codec float) board "out"
                     (node_value orb_red)))
    = tight :: (if succeeded (save_orb (F := float) (C := Demo.codec float) board "out"
                                (PStr "orb_red") tight)
                then [expanded] else []) /\
    box_contains expanded tight = true /\
    box_within 1000 500 tight = true /\
    box_within 1000 500 expanded = true.
Proof.
  apply (expanded_crop_contains_tight_crop (F := float) (C := Demo.codec float)
           board "out" (node_value orb_red) "orb_red" 1000 500 100 100 200 200);
    try reflexivity; try lia; vm_compute; discriminate.
Defined.

Lemma normalized_box_witness :
  exists row,
    scene_row_of (F := float) "out/corrected_images/0102.png" 1000 500
      (node_value orb_red)
    = OK row /\
    row_in_unit_square row = true.
Proof.
  apply (normalized_box_in_unit_square (F := float)
           "out/corrected_images/0102.png" 1000 500 (node_value orb_red)
           100 100 200 200);
    try reflexivity; try lia; split; try lia; vm_compute; discriminate.
Defined.

End Witnesses.

(* ================================================================= *)
(** ** The further properties at concrete records *)

Module MoreWitnesses.
Import Demo DemoStore.

#[local] Abbreviation images64 := (process_images (F := float) (C := Demo.codec float)).
#[local] Abbreviation orbs64 := (process_orbs (F := float) (C := Demo.codec float)).
#[local] Abbreviation screens64 :=
  (do_screen_processing (F := float) (C := Demo.codec float)).
#[local] Abbreviation crops64 :=
  (do_orb_processing (F := float) (C := Demo.codec float) (S := file_store float)).
#[local] Abbreviation main64 :=
  (main (F := float) (C := Demo.codec float) (S := file_store float)).

(** The digests of the stand-in codec are made of hexadecimal digits. *)
Lemma hex_no_sep bytes : no_sep (hex bytes) = true.
Proof.
  unfold no_sep. apply negb_true_iff.
  induction bytes as [|b bytes IH]; [reflexivity|].
  cbn [hex]. rewrite !is_substring_step, IH. now destruct b.
Qed.

(** A GIF file. *)
Lemma other_format_witness :
  orbs64 (data_of gif_record) "images" "out"
  = (raise (ValueError "Image format not JPEG/PNG"), []).
Proof.
  refine (proj1 (proj2 (other_format_is_refused (F := float) (C := Demo.codec float)
                          (data_of gif_record) "images" "out" "photo.gif" photo
                          _ _ _ _ _)));
    [vm_compute; reflexivity | vm_compute; reflexivity | vm_compute; reflexivity
    | vm_compute; discriminate | vm_compute; discriminate].
Defined.

(** A record whose file name is an absolute path. *)
Lemma absolute_filename_witness :
  load_image (F := float) (C := Demo.codec float) (data_of absolute_record) "images"
  = load_image (F := float) (C := Demo.codec float) (data_of absolute_record) "elsewhere".
Proof.
  refine (absolute_filename_ignores_image_dir (F := float) (C := Demo.codec float)
            (data_of absolute_record) "/data/board.png" "images" "elsewhere" _ _);
    [vm_compute; reflexivity | reflexivity].
Defined.

(** A detection without a name after an orb: nothing is cropped. *)
Lemma unnamed_detection_witness :
  orbs64 (data_of orb_and_unnamed) "images" "out" = (raise (KeyError "name"), []).
Proof.
  refine (proj1 (proj2 (unnamed_detection_aborts_record
                          (F := float) (C := Demo.codec float)
                          (data_of orb_and_unnamed) "images" "out" board
                          [node_value orb_red] []
                          (node_value
                             (node "object"
                                [node "bndbox" [leaf "xmin" "1"; leaf "ymin" "1";
                                                leaf "xmax" "2"; leaf "ymax" "2"]]))
                          (KeyError "name") _ _ _ _)));
    [vm_compute; reflexivity | vm_compute; reflexivity
    | repeat constructor; eexists; reflexivity | vm_compute; reflexivity].
Defined.

(** A box that is not a number after an orb: the orb stays cropped. *)
Lemma unreadable_box_witness :
  fst (orbs64 (data_of orb_and_bad_box) "images" "out")
  = raise (ValueError "invalid literal for int() with base 10: 'left'") /\
  crops_of (snd (orbs64 (data_of orb_and_bad_box) "images" "out"))
  = [tight_box 100 100 200 200; expanded_box (F := float) 1000 500 100 100 200 200] /\
  List.length (saved_paths (snd (orbs64 (data_of orb_and_bad_box) "images" "out")))
  = (2 * 1)%nat.
Proof.
  refine (unreadable_box_keeps_earlier_crops (F := float) (C := Demo.codec float)
            (data_of orb_and_bad_box) "images" "out" board
            [node_value orb_red] []
            [("orb_red", (100, 100, 200, 200))]
            (node_value (detection "orb_blue" "left" "100" "400" "200")) "orb_blue"
            (ValueError "invalid literal for int() with base 10: 'left'") _ _ _ _ _ _);
    [vm_compute; reflexivity | vm_compute; reflexivity
    | apply Forall2_cons; [repeat split; vm_compute; reflexivity | apply Forall2_nil]
    | intros b [<-|[<-|[]]]; eexists; vm_compute; reflexivity
    | vm_compute; reflexivity | vm_compute; reflexivity].
Defined.

(** A full board whose record declares no size. *)
Lemma unreadable_size_witness :
  images64 (data_of board20_unsized) "images" "out"
  = (raise (KeyError "size"), scene_trace board "out" None).
Proof.
  refine (proj1 (unreadable_size_raises_after_save (F := float) (C := Demo.codec float)
                   (data_of board20_unsized) "images" "out" board board
                   (repeat (node_value orb_red) 20) None (KeyError "size")
                   _ _ _ _ _ _));
    vm_compute; reflexivity.
Defined.

(** A full board whose record declares a width of zero. *)
Lemma zero_declared_size_witness :
  images64 (data_of board20_flat) "images" "out"
  = (raise ZeroDivisionError, scene_trace board "out" None).
Proof.
  refine (zero_declared_size_raises_after_save (F := float) (C := Demo.codec float)
            (data_of board20_flat) "images" "out" board board
            (repeat (node_value orb_red) 20) None 0 500
            (repeat (of_int 100, of_int 100, of_int 200, of_int 200) 20)
            _ _ _ _ _ _ _ _);
    [vm_compute; reflexivity | vm_compute; reflexivity | vm_compute; reflexivity
    | vm_compute; reflexivity | vm_compute; reflexivity | vm_compute; reflexivity
    | repeat (apply Forall2_cons; [vm_compute; reflexivity|]); apply Forall2_nil
    | now left].
Defined.

(** The scene manifest of one full board. *)
Lemma scene_manifest_witness :
  rows_address_saved_scenes "out" "bucket" "out"
    (snd (screens64 "images" "out" [("a.xml", board20)] "bucket")).
Proof.
  refine (scene_manifest_addresses_saved_images (F := float) (C := Demo.codec float)
            "images" "out" [("a.xml", board20)] "bucket" _ _ _ _);
    [discriminate | reflexivity | reflexivity | exact hex_no_sep].
Defined.

(** An output directory named ['images']: the address written is
    [gs://bucket/images/corrected_0102.png]. *)
Lemma images_directory_witness :
  nth 1 (csv_row_of (F := float) "images" "bucket" "images"
           (SceneRow "UNASSIGNED" (scene_path (F := float) "images" board) "orb"
              (of_int 0) (of_int 0) (of_int 1) (of_int 1)))
    (CText "")
  <> CText (scene_address (F := float) "bucket" "images" board).
Proof.
  refine (output_name_within_corrected_images_breaks_addresses
            (F := float) (C := Demo.codec float) "images" "bucket" board
            (SceneRow "UNASSIGNED" (scene_path (F := float) "images" board) "orb"
               (of_int 0) (of_int 0) (of_int 1) (of_int 1)) _ _ _ _ _);
    [discriminate | reflexivity | reflexivity | reflexivity | reflexivity].
Defined.

(** A record without detections between two full boards. *)
Lemma failing_scene_record_witness :
  fst (screens64 "images" "out"
         ([("a.xml", board20)] ++ ("b.xml", empty_board) :: [("c.xml", board20)])
         "bucket")
  = raise (ValueError "no objects found in images/board.png").
Proof.
  refine (f_equal fst
            (proj1 (failing_record_stops_screen_processing
                      (F := float) (C := Demo.codec float)
                      "images" "out" "bucket" [("a.xml", board20)] [("c.xml", board20)]
                      ("b.xml", empty_board)
                      (ValueError "no objects found in images/board.png") _ _ _ _)));
    vm_compute; reflexivity.
Defined.

(** Two records, the second one skipped. *)
Lemma scene_progress_witness :
  printed (snd (screens64 "images" "out" [("a.xml", board20); ("b.xml", board19)]
                  "bucket"))
  = ["a.xml"; "b.xml"].
Proof.
  refine (proj1 (screen_processing_reports_progress (F := float) (C := Demo.codec float)
                   "images" "out" [("a.xml", board20); ("b.xml", board19)] "bucket" _)).
  vm_compute. reflexivity.
Defined.

(** A record without detections after a record with one orb. *)
Lemma failing_orb_record_witness :
  fst (crops64 "images" "out"
         ([("a.xml", one_orb)] ++ ("b.xml", empty_board) :: []) "bucket")
  = raise (ValueError "no objects found in images/board.png").
Proof.
  refine (f_equal fst
            (proj1 (failing_record_leaves_no_orb_manifest
                      (F := float) (C := Demo.codec float) (S := file_store float)
                      "images" "out" "bucket" [("a.xml", one_orb)] []
                      ("b.xml", empty_board)
                      (ValueError "no objects found in images/board.png") _ _ _ _)));
    vm_compute; reflexivity.
Defined.

(** No annotation file: nothing has made the output directory. *)
Lemma unopened_orb_manifest_witness :
  crops64 "images" "out" [] "bucket"
  = (raise (FileNotFoundError "out/orb_data.csv"), []).
Proof.
  refine (proj1 (unopened_orb_manifest_raises
                   (F := float) (C := Demo.codec float) (S := file_store float)
                   "images" "out" "bucket" []
                   (FileNotFoundError "out/orb_data.csv") [] _ _));
    vm_compute; reflexivity.
Defined.

(** Two orbs of two colours: two label directories and the manifest
    itself in the output directory. *)
Lemma orb_manifest_witness :
  csv_rows (snd (crops64 "images" "out" [("a.xml", two_orbs)] "bucket"))
  = [[CText "gs://bucket/out/orb_red/0102.png"; CText "orb_red"];
     [CText "gs://bucket/out/orb_blue/0102.png"; CText "orb_blue"]].
Proof.
  refine (eq_trans
            (f_equal (fun r => csv_rows (snd r))
               (orb_manifest_lists_label_directories
                  (F := float) (C := Demo.codec float) (S := file_store float)
                  "images" "out" "bucket" [("a.xml", two_orbs)]
                  (snd (for_each_from 0 [("a.xml", two_orbs)]
                          (orb_step (F := float) (C := Demo.codec float)
                             "images" "out" 1)))
                  ["orb_red"; "orb_blue"; "orb_data.csv"] (fun _ => ["0102.png"])
                  _ _ _ _)) _);
    [vm_compute; reflexivity | vm_compute; reflexivity | vm_compute; reflexivity
    | | vm_compute; reflexivity].
  intros label [<-|[<-|[<-|[]]]] H; vm_compute in H |- *;
    (reflexivity || discriminate).
Defined.

(** Two records: their names, then the help text. *)
Lemma orb_progress_witness :
  stdout (snd (crops64 "images" "out" [("a.xml", one_orb); ("b.xml", two_orbs)]
                 "bucket"))
  = ["a.xml"; "b.xml"] ++ print_gsutil_help "out" "bucket" "out" "orb_data.csv".
Proof.
  refine (proj1 (orb_processing_reports_progress
                   (F := float) (C := Demo.codec float) (S := file_store float)
                   "images" "out" [("a.xml", one_orb); ("b.xml", two_orbs)] "bucket" _)).
  vm_compute. reflexivity.
Defined.

(** A run over one record without detections. *)
Lemma failed_orb_pipeline_witness :
  main64 default_flags (glob [("a.xml", empty_board)])
  = (raise (ValueError "no objects found in images/board.png"),
     [EvProcessing 1; EvRun (EvPrint "starting orb processing");
      EvRun (EvPrint "a.xml"); EvRun (EvLog 0 1)]).
Proof.
  refine (failed_orb_pipeline_stops_main
            (F := float) (C := Demo.codec float) (S := file_store float)
            default_flags (glob [("a.xml", empty_board)])
            (ValueError "no objects found in images/board.png")
            [EvPrint "a.xml"; EvLog 0 1] _).
  vm_compute. reflexivity.
Defined.

(** A run over the record of one orb, with the flags left at their
    defaults: the line of the orb manifest. *)
Lemma main_manifests_witness :
  (exists label name,
     [CText "gs://rpad-discord-vcm/orbs/extracted_orb_images/orb_red/0102.png";
      CText "orb_red"]
     = orb_csv_row (F := float) (path_join "rpad-discord-vcm" "orbs")
         "extracted_orb_images" label name) \/
  (exists img,
     In (EvRun (EvSave (scene_path (F := float) (path_join "" "orbs_in_screens") img) img))
        (snd (main64 default_flags (glob [("a.xml", one_orb)]))) /\
     nth 1 [CText "gs://rpad-discord-vcm/orbs/extracted_orb_images/orb_red/0102.png";
            CText (F := float) "orb_red"] (CText "")
     = CText (scene_address (F := float) (path_join "rpad-discord-vcm" "orbs")
                "orbs_in_screens" img)).
Proof.
  refine (main_manifests_point_into_bucket
            (F := float) (C := Demo.codec float) (S := file_store float)
            default_flags (glob [("a.xml", one_orb)]) hex_no_sep
            [CText "gs://rpad-discord-vcm/orbs/extracted_orb_images/orb_red/0102.png";
             CText "orb_red"] _).
  vm_compute. repeat (first [left; reflexivity | right]).
Defined.

(** A box that runs past the right edge of a 1000 x 500 image. *)
Lemma expanded_box_cut_witness :
  let b := expanded_box (F := float) 1000 500 900 100 1200 200 in
  fleb (of_int 0) (bxmin b) = true /\ fleb (of_int 0) (bymin b) = true /\
  fleb (bxmax b) (of_int 1000) = true /\ fleb (bymax b) (of_int 500) = true.
Proof.
  apply (expanded_box_is_cut_at_the_image (F := float) 1000 500 900 100 1200 200); lia.
Defined.

(** An image of 800 x 600. *)
Lemma resize_threshold_witness :
  scaled_size (F := float) (800, 600) = OK None <-> Z.max 800 600 <= 1024.
Proof. apply (ResizeThreshold.binary64_resizes_above_1024 800 600); lia. Defined.

(** An image of 1122 x 561, which binary64 sizes 1024 x 511. *)
Lemma resize_bounds_witness :
  exists w' h',
    scaled_size (F := float) (1122, 561) = OK (Some (w', h')) /\
    (if 561 <? 1122 then w' = 1024 /\ 0 <= h' <= 561 else h' = 1024 /\ 0 <= w' <= 1122).
Proof. apply (proj1 ResizeBounds.binary64_resize_never_enlarges 1122 561); lia. Defined.

(** A detection whose class name is an absolute path. *)
Lemma absolute_class_name_witness :
  let obj := node_value (detection "/srv/orb" "100" "100" "200" "200") in
  process_orb (F := float) (C := Demo.codec float) board "out" obj
  = process_orb (F := float) (C := Demo.codec float) board "elsewhere" obj /\
  forall p img,
    In (EvSave p img) (snd (process_orb (F := float) (C := Demo.codec float) board "out" obj)) ->
    p = content_path (C := Demo.codec float) "/srv/orb"
          (image_tobytes (F := float) img).
Proof.
  apply (absolute_class_name_ignores_output_dir (F := float) (C := Demo.codec float)
           board (node_value (detection "/srv/orb" "100" "100" "200" "200"))
           "/srv/orb" "out" "elsewhere");
    [vm_compute; reflexivity | reflexivity].
Defined.

(** A box without width in a 1000 x 500 image. *)
Lemma empty_crop_witness :
  box_collapsed (expanded_box (F := float) 1000 500 100 100 100 200)
  = ((100 =? 100) || (100 =? 200)) /\
  box_collapsed (tight_box (F := float) 100 100 100 200)
  = ((100 =? 100) || (100 =? 200)).
Proof.
  apply (EmptyCrops.binary64_expanded_box_empty_iff_annotated_is 1000 500 100 100 100 200);
    lia.
Defined.

End MoreWitnesses.
